(** * Komodo UI glue: the URI open dispatcher and the dynamic-button registry

    A shallow embedding of
      - [chrome/komodo/content/library/open.p.js]   (module [Open]) and
      - [chrome/komodo/content/sdk/dynamic-button.js] (module [DynamicButton]),
    followed by the properties of the two facilities.

    JavaScript strings are modelled as [string]: sequences of code units
    below 256. What the code itself looks at in a string are ASCII
    characters (separators, digits, extensions, word characters); the one
    built-in that looks at other letters, [toLowerCase], is a service of
    the platform. Objects used as dictionaries are modelled as
    [gmap string _] or [gset string] for their own keys, together with the
    keys they inherit from [Object.prototype]. The platform services the
    code talks to (view manager, dialogs, preference store, timers, DOM) are
    explicit parameters and explicit state. *)

From Stdlib Require Import ZArith Ascii String List Bool Lia DecimalString.
From stdpp Require Import gmap strings list.

Local Open Scope Z_scope.
Local Open Scope string_scope.

(** ** JavaScript string primitives used by both files *)
Module JsString.

Definition chars (s : string) : list ascii := list_ascii_of_string s.
Definition text (l : list ascii) : string := string_of_list_ascii l.

Definition code (c : ascii) : nat := nat_of_ascii c.

(** [\d] *)
Definition is_digit (c : ascii) : bool :=
  (48 <=? code c)%nat && (code c <=? 57)%nat.

(** [\w] is [[A-Za-z0-9_]] *)
Definition is_word (c : ascii) : bool :=
  is_digit c
  || ((65 <=? code c)%nat && (code c <=? 90)%nat)
  || ((97 <=? code c)%nat && (code c <=? 122)%nat)
  || (code c =? 95)%nat.

(** [.] matches every code unit but the line terminators. *)
Definition is_line_terminator (c : ascii) : bool :=
  (code c =? 10)%nat || (code c =? 13)%nat.

Definition single_line (l : list ascii) : bool :=
  forallb (fun c => negb (is_line_terminator c)) l.

(** Case folding for a pattern with the flag [i] whose letters are ASCII
    letters: A-Z and a-z are folded, and a code unit from 128 on matches
    itself only. *)
Definition to_lower (c : ascii) : ascii :=
  if (65 <=? code c)%nat && (code c <=? 90)%nat
  then ascii_of_nat (code c + 32) else c.

(** The lower-case mapping of one code unit below 256: of the letters
    A-Z, and of the capital letters U+00C0 to U+00DE without the
    multiplication sign U+00D7. *)
Definition lower_case (c : ascii) : ascii :=
  if ((65 <=? code c)%nat && (code c <=? 90)%nat)
     || ((192 <=? code c)%nat && (code c <=? 222)%nat && negb (code c =? 215)%nat)
  then ascii_of_nat (code c + 32) else c.

(** [toLowerCase] of the sample platforms, code unit by code unit. *)
Definition lower_case_latin1 (s : string) : string :=
  text (map lower_case (chars s)).

(** Truthiness of a possibly missing string: [undefined], [null] and the
    empty string are falsy. *)
Definition truthy (o : option string) : bool :=
  match o with
  | Some s => negb (String.eqb s "")
  | None => false
  end.

(** [a || b] on possibly missing strings. *)
Definition or_else (a b : option string) : option string :=
  if truthy a then a else b.

(** Case-insensitive comparison of a pattern with the front of a list. *)
Fixpoint starts_with_ci (p l : list ascii) : bool :=
  match p, l with
  | [], _ => true
  | _ :: _, [] => false
  | a :: p', b :: l' => Ascii.eqb (to_lower a) (to_lower b) && starts_with_ci p' l'
  end.

(** [/<suffix>$/i.test(s)] for a literal suffix: the pattern is anchored at
    the end of the input only, so the match is a case-insensitive
    comparison of the last characters. *)
Definition ends_with_ci (suffix s : string) : bool :=
  starts_with_ci (rev (chars suffix)) (rev (chars s)).

(** Two patterns agree when they are equal, case aside, as far as the
    shorter one goes. *)
Fixpoint agree (p q : list ascii) : bool :=
  match p, q with
  | a :: p', b :: q' => Ascii.eqb (to_lower a) (to_lower b) && agree p' q'
  | _, _ => true
  end.

(** [s.lastIndexOf(c)] for a one-character needle; [-1] when absent. *)
Fixpoint lastIndexOf_char (c : ascii) (l : list ascii) : Z :=
  match l with
  | [] => -1
  | a :: l' =>
      let r := lastIndexOf_char c l' in
      if (0 <=? r)%Z then r + 1 else if Ascii.eqb a c then 0 else -1
  end.

Definition lastIndexOf (c : ascii) (s : string) : Z := lastIndexOf_char c (chars s).

(** Is [needle] a prefix of [l]? (case-sensitive) *)
Fixpoint starts_with (needle l : list ascii) : bool :=
  match needle, l with
  | [], _ => true
  | _ :: _, [] => false
  | a :: n', b :: l' => Ascii.eqb a b && starts_with n' l'
  end.

(** [s.lastIndexOf(needle)] for a string needle; [-1] when absent. *)
Fixpoint lastIndexOf_list (needle l : list ascii) : Z :=
  match l with
  | [] => if starts_with needle [] then 0 else -1
  | a :: l' =>
      let r := lastIndexOf_list needle l' in
      if (0 <=? r)%Z then r + 1 else if starts_with needle l then 0 else -1
  end.

Definition lastIndexOf_str (needle s : string) : Z :=
  lastIndexOf_list (chars needle) (chars s).

(** [s.substr(from)] with [from >= 0]. *)
Definition substr (s : string) (from : Z) : string :=
  text (drop (Z.to_nat from) (chars s)).

(** [s.substring(0, to)]; a negative [to] counts as [0]. *)
Definition substring0 (s : string) (to : Z) : string :=
  text (take (Z.to_nat to) (chars s)).

(** [s.replace(/\W+/g, "")] *)
Definition strip_non_word (s : string) : string :=
  text (List.filter is_word (chars s)).

(** [s.replace(/&/g, "")] *)
Definition strip_ampersands (s : string) : string :=
  text (List.filter (fun c => negb (Ascii.eqb c "&")) (chars s)).

(** [s.length] *)
Definition str_length (s : string) : Z := Z.of_nat (String.length s).

(** The property names that every plain object inherits from
    [Object.prototype] in the engine of the platform (SpiderMonkey): those
    of ECMAScript and of its annex B, and [toSource], [watch] and
    [unwatch]. *)
Definition Object_prototype : list string :=
  ["constructor"; "toSource"; "toString"; "toLocaleString"; "valueOf";
   "watch"; "unwatch"; "hasOwnProperty"; "isPrototypeOf";
   "propertyIsEnumerable"; "__defineGetter__"; "__defineSetter__";
   "__lookupGetter__"; "__lookupSetter__"; "__proto__"].

Definition inherited (key : string) : bool :=
  existsb (String.eqb key) Object_prototype.

End JsString.

(** ** open.p.js *)
Module Open.
Import JsString.

(** *** Values *)

(** A thrown JavaScript value; only its text is ever used (in alerts). *)
Inductive exn := JsError (msg : string).

Definition exn_text (e : exn) : string := let 'JsError m := e in m.

(** What a call into the platform does: it returns or it throws. *)
Inductive result (A : Type) :=
| Ok (a : A)
| Throw (e : exn).
Arguments Ok {A} a.
Arguments Throw {A} e.

(** A line number is a number when a caller passes one and the matched
    digit string when it comes from the URI. *)
Inductive lineval :=
| LineNum (n : Z)
| LineStr (digits : string).

(** [if (lineno)]: [null], [0] and the empty string are falsy. *)
Definition lineno_truthy (l : option lineval) : bool :=
  match l with
  | None => false
  | Some (LineNum n) => negb (n =? 0)%Z
  | Some (LineStr s) => negb (String.eqb s "")
  end.

(** Callbacks are opaque functions: the ones callers supply, and the
    closure [recentURI] builds over its [uri]. *)
Inductive callback :=
| UserCallback (k : nat)
| RecentCallback (uri : string).

(** A view of the view manager; [koDoc] carries the document's display
    path when the view has a document. *)
Record view := { view_id : nat; koDoc : option string }.

(** The preprocessor symbol [PLATFORM]. *)
Inductive platform := Win | Darwin | Linux.

Definition folds_case (p : platform) : bool :=
  match p with Win | Darwin => true | Linux => false end.

(** *** The platform

    Every collaborator of the dispatcher is a field of the environment.
    The calls [URIAtLine] makes inside its [try] block may throw; the
    calls the other functions make outside any [try] are total. *)
Record Env := {
  PLATFORM : platform;
  (* String.prototype.toLowerCase, of the engine *)
  toLowerCase : string -> string;
  (* ko.uriparse *)
  pathToURI : string -> result string;
  URIToPath : string -> result string;
  baseName : string -> result string;
  ext : string -> result string;
  (* the string bundle views.properties *)
  GetStringFromName : string -> string;
  formatStringFromName : string -> list string -> string;
  (* openers *)
  projects_open : string -> option bool -> result unit;
  installPackageByUrl : string -> result unit;
  importPackage : string -> result unit;
  dbexplorer_viewManager : bool;
  addSqliteDatabaseFromURI : string -> result bool;
  importSublimeSnippet_dragDrop : string -> result unit;
  importFilesFromFileSystem_dragDrop : string -> result unit;
  (* ko.dialogs *)
  dialogs_alert : string -> result unit;
  customButtons : string -> list string -> string -> result (option string);
  dialogs_prompt : string -> string -> string -> result (option string);
  yesNoCancel : string -> string;
  (* koScintillaSchemeService *)
  getSchemeService : result unit;
  getSchemeNames : result (list string);
  schemeNameIsValid : string -> result bool;
  loadSchemeFromURI : string -> string -> result string;
  activateScheme : string -> result string;
  notifyHowtoRestoreOldScheme : string -> string -> result unit;
  (* ko.views.manager *)
  doFileOpenAsync : string -> option string -> option callback -> result unit;
  doFileOpenAtLineAsync :
    string -> lineval -> option string -> option callback -> result unit;
  getViewsByType : string -> list view;
  (* koFileEx, ko.places, the preference service *)
  file_exists : string -> bool;
  places : bool;
  single_project_view : bool;
  viewStateMRU : string -> option (option (list string));
}.

(** *** Observable effects, in program order *)
Inductive event :=
| EvPathToURI (path : string)
| EvURIToPath (uri : string)
| EvBaseName (uri : string)
| EvExt (uri : string)
| EvProjectsOpen (uri : string) (skipRecentOpenFeature : option bool)
| EvInstallAddon (uri : string)
| EvImportPackage (uri : string)
| EvAddSqliteDatabase (uri : string)
| EvImportSublimeSnippet (path : string)
| EvImportFiles (path : string)
| EvDialogsAlert (msg : string)
| EvWindowAlert (e : exn)
| EvCustomButtons (prompt : string) (buttons : list string) (title : string)
| EvDialogsPrompt (prompt label default : string)
| EvYesNoCancel (prompt : string)
| EvGetSchemeService
| EvGetSchemeNames
| EvSchemeNameIsValid (name : string)
| EvLoadSchemeFromURI (uri base : string)
| EvActivateScheme (name : string)
| EvNotifyHowtoRestoreOldScheme (old new : string)
| EvFileOpenAsync (uri : string) (viewType : option string) (cb : option callback)
| EvFileOpenAtLineAsync (uri : string) (line : lineval) (viewType : option string)
    (cb : option callback)
| EvLogException (e : exn)
| EvMakeCurrent (v : nat)
| EvCallback (cb : callback) (v : option nat)
| EvMruRemoveURL (list uri : string)
| EvRebuildView
| EvSetBatchMode (b : bool)
| EvAddViewOpenedListener.

(** *** State: [ko.open.skipNextPrompt] and the effects so far *)
Record world := { skipNextPrompt : bool; trace : list event }.

Definition log_event (ev : event) (w : world) : world :=
  {| skipNextPrompt := skipNextPrompt w; trace := trace w ++ [ev] |}.

(** *** Computations

    A statement runs in a world and ends by completing, by throwing, or
    not at all ([Diverge]: the loop of [_checkKSFBaseName] ran out of
    fuel). Whatever it did to the world before throwing stays done. *)
Inductive outcome (A : Type) :=
| Val (a : A)
| Exc (e : exn)
| Diverge.
Arguments Val {A} a.
Arguments Exc {A} e.
Arguments Diverge {A}.

Definition M (A : Type) : Type := world -> outcome A * world.

Definition ret {A} (a : A) : M A := fun w => (Val a, w).

Definition bind {A B} (c : M A) (k : A -> M B) : M B :=
  fun w =>
    match c w with
    | (Val a, w') => k a w'
    | (Exc e, w') => (Exc e, w')
    | (Diverge, w') => (Diverge, w')
    end.

#[local] Notation "x <- c ;; k" := (bind c (fun x => k))
  (at level 100, c at next level, right associativity).
#[local] Notation "c ;;; k" := (bind c (fun _ => k))
  (at level 100, right associativity).

(** [try { c } catch (e) { h e }] *)
Definition try_catch {A} (c : M A) (h : exn -> M A) : M A :=
  fun w =>
    match c w with
    | (Exc e, w') => h e w'
    | r => r
    end.

Definition diverge {A} : M A := fun w => (Diverge, w).

(** An effect that cannot fail. *)
Definition emit (ev : event) : M unit := fun w => (Val tt, log_event ev w).

(** A call into the platform: the call is observed, then it returns or throws. *)
Definition call {A} (ev : event) (r : result A) : M A :=
  fun w =>
    (match r with Ok a => Val a | Throw e => Exc e end, log_event ev w).

Definition get_skipNextPrompt : M bool := fun w => (Val (skipNextPrompt w), w).

Definition set_skipNextPrompt (b : bool) : M unit :=
  fun w => (Val tt, {| skipNextPrompt := b; trace := trace w |}).

(** [for (i = 0; i < xs.length; i++) body(xs[i])] *)
Fixpoint for_each {A} (xs : list A) (body : A -> M unit) : M unit :=
  match xs with
  | [] => ret tt
  | x :: xs' => body x ;;; for_each xs' body
  end.

(** *** [fileLineNoRE]

    The regular expression is, from [^] to [$]: a greedy capturing group of
    any characters but line terminators; one of the separators [#], [:],
    [%23], [%3A]; a capturing group of one or more digits. *)

(** The alternatives of the separator group, in the order they are tried. *)
Definition separators : list (list ascii) :=
  [chars "#"; chars ":"; chars "%23"; chars "%3A"].

(** [\d+] up to the end of the input *)
Definition digits_to_end (l : list ascii) : bool :=
  negb (Nat.eqb (length l) 0) && forallb is_digit l.

(** [(?:[#:]|%23|%3A)(\d+)$] at the front of [rest]: the first alternative
    after which only digits remain. *)
Fixpoint match_separator_digits (alts : list (list ascii)) (rest : list ascii)
  : option (list ascii) :=
  match alts with
  | [] => None
  | alt :: alts' =>
      if starts_with alt rest && digits_to_end (drop (length alt) rest)
      then Some (drop (length alt) rest)
      else match_separator_digits alts' rest
  end.

(** The greedy first group first takes as much as it can and gives characters
    back one at a time; [k] is the number of characters it holds. *)
Fixpoint exec_from (k : nat) (l : list ascii) : option (list ascii * list ascii) :=
  let here :=
    if single_line (take k l)
    then match_separator_digits separators (drop k l)
    else None in
  match here with
  | Some d => Some (take k l, d)
  | None =>
      match k with
      | O => None
      | S k' => exec_from k' l
      end
  end.

(** [fileLineNoRE.exec(uri)]: the groups [m[1]] and [m[2]], or [null]. *)
Definition fileLineNoRE (uri : string) : option (string * string) :=
  match exec_from (length (chars uri)) (chars uri) with
  | Some (m1, m2) => Some (text m1, text m2)
  | None => None
  end.

Definition removeAmpersands (labels : list string) : list string :=
  map strip_ampersands labels.

(** *** Preview types *)
Definition _imageUrlREs : list string :=
  [".png"; ".gif"; ".jpg"; ".jpeg"; ".bmp"; ".ico"].

Definition isImageUrl (url : string) : bool :=
  existsb (fun re => ends_with_ci re url) _imageUrlREs.

Definition _audioUrlREs : list string := [".mp3"].

Definition isAudioUrl (url : string) : bool :=
  existsb (fun re => ends_with_ci re url) _audioUrlREs.

(** [uri.match(/\.(?:kpf|komodoproject)$/i)] *)
Definition is_project_uri (uri : string) : bool :=
  ends_with_ci ".kpf" uri || ends_with_ci ".komodoproject" uri.

(** [uri.match(/(?:\.komodotool|\.ktf)$/i)] *)
Definition is_tool_uri (uri : string) : bool :=
  ends_with_ci ".komodotool" uri || ends_with_ci ".ktf" uri.

(** *** [loadSqliteDatabase] *)
Definition loadSqliteDatabase (env : Env) (uri : string) : M bool :=
  if negb (dbexplorer_viewManager env) then ret false else
  let lastDot := lastIndexOf "." uri in
  if (lastDot =? -1)%Z || (lastDot =? str_length uri - 1)%Z then ret false else
  let ext := substr uri (lastDot + 1) in
  if negb (existsb (String.eqb ext) ["db"; "sqlite"; "sqlite3"]) then ret false else
  call (EvAddSqliteDatabase uri) (addSqliteDatabaseFromURI env uri).

Definition _installAddon (env : Env) (uri : string) : M unit :=
  call (EvInstallAddon uri) (installPackageByUrl env uri).

(** *** [_checkKSFBaseName] *)

(** Scheme names are compared in lower case on darwin and win. *)
Definition scheme_key (env : Env) (name : string) : string :=
  if folds_case (PLATFORM env) then toLowerCase env name else name.

(** [currentSchemeNames] is a plain object used as a set of names: its own
    keys and, as long as [Object.prototype] is its prototype, the keys it
    inherits. *)
Record name_set := { own_names : gset string; has_prototype : bool }.

(** [var currentSchemeNames = {}] *)
Definition no_names : name_set := {| own_names := ∅; has_prototype := true |}.

(** [currentSchemeNames[name] = null]. For the key [__proto__] the
    assignment is a call of the setter the object inherits: the prototype
    becomes [null] and no key is added. Once the prototype is gone,
    [__proto__] is a key like any other. *)
Definition add_name (o : name_set) (name : string) : name_set :=
  if has_prototype o && String.eqb name "__proto__"
  then {| own_names := own_names o; has_prototype := false |}
  else {| own_names := {[name]} ∪ own_names o; has_prototype := has_prototype o |}.

(** [typeof(currentSchemeNames[name]) != "undefined"] *)
Definition known_name (o : name_set) (name : string) : bool :=
  bool_decide (name ∈ own_names o) || (has_prototype o && inherited name).

(** The [while (true)] loop; one unit of fuel per iteration. *)
Fixpoint _checkKSFBaseName_loop (fuel : nat) (env : Env)
    (currentSchemeNames : name_set) (ext newSchemeName : string)
  : M (option string) :=
  match fuel with
  | O => diverge
  | S fuel' =>
      invalid <-
        (if String.eqb newSchemeName "" then ret true
         else (ok <- call (EvSchemeNameIsValid newSchemeName)
                       (schemeNameIsValid env newSchemeName) ;;
               ret (negb ok))) ;;
      let testName := scheme_key env newSchemeName in
      if negb invalid && negb (known_name currentSchemeNames testName)
      then ret (Some (newSchemeName +:+ ext))
      else
        let prompt :=
          formatStringFromName env
            (if invalid then "schemeNameHasInvalidCharacters.template"
             else "schemeExists.template")
            [newSchemeName] in
        let label := GetStringFromName env "newSchemeName.label" in
        answer <- call (EvDialogsPrompt prompt label newSchemeName)
                    (dialogs_prompt env prompt label newSchemeName) ;;
        match answer with
        | Some name =>
            if String.eqb name "" then ret None
            else _checkKSFBaseName_loop fuel' env currentSchemeNames ext name
        | None => ret None
        end
  end.

Definition _checkKSFBaseName (fuel : nat) (env : Env) (uri : string)
  : M (option string) :=
  names <- call EvGetSchemeNames (getSchemeNames env) ;;
  let currentSchemeNames : name_set :=
    fold_left add_name (map (scheme_key env) names) no_names in
  schemeBaseName <- call (EvBaseName uri) (baseName env uri) ;;
  ext <- call (EvExt uri) (ext env uri) ;;
  let newSchemeName :=
    substring0 schemeBaseName (lastIndexOf_str ext schemeBaseName) in
  _checkKSFBaseName_loop fuel env currentSchemeNames ext newSchemeName.

(** *** [URIAtLine] *)

(** Lines 151-157: an attached line number is looked for only when the
    caller gave none ([lineno == null]). *)
Definition attached_lineno (uri : string) (lineno : option lineval)
  : string * option lineval :=
  match lineno with
  | Some _ => (uri, lineno)
  | None =>
      match fileLineNoRE uri with
      | Some (m1, m2) => (m1, Some (LineStr m2))
      | None => (uri, None)
      end
  end.

(** How the prompting part of the default branch ends: with [return null],
    or by going on to open the file with a view type. *)
Inductive flow :=
| Return
| Continue (viewType : option string).

(** [answer == responses[i]] for a truthy [answer] *)
Definition is_response (answer : option string) (responses : list string) (i : nat)
  : bool :=
  match answer, responses !! i with
  | Some a, Some r => String.eqb a r
  | _, _ => false
  end.

(** [!answer || answer == responses[2]] *)
Definition declined (answer : option string) (responses : list string) : bool :=
  negb (truthy answer) || is_response answer responses 2.

(** Lines 177-205 *)
Definition prompt_scheme (fuel : nat) (env : Env) (uri : string)
    (viewType : option string) (buttons responses : list string) : M flow :=
  name <- call (EvBaseName uri) (baseName env uri) ;;
  let prompt := formatStringFromName env "importFileAsScheme.prompt" [name] in
  let title := GetStringFromName env "openingSchemeFile.label" in
  answer <- call (EvCustomButtons prompt buttons title)
              (customButtons env prompt buttons title) ;;
  if declined answer responses then ret Return
  else if is_response answer responses 0 then
    call EvGetSchemeService (getSchemeService env) ;;;
    schemeBaseName <- _checkKSFBaseName fuel env uri ;;
    match schemeBaseName with
    | None => ret Return
    | Some base =>
        if String.eqb base "" then ret Return
        else
          try_catch
            (newSchemeName <- call (EvLoadSchemeFromURI uri base)
                                (loadSchemeFromURI env uri base) ;;
             oldScheme <- call (EvActivateScheme newSchemeName)
                            (activateScheme env newSchemeName) ;;
             call (EvNotifyHowtoRestoreOldScheme oldScheme newSchemeName)
               (notifyHowtoRestoreOldScheme env oldScheme newSchemeName) ;;;
             ret Return)
            (fun ex =>
               emit (EvWindowAlert ex) ;;;
               emit (EvLogException ex) ;;;
               ret (Continue viewType))
    end
  else ret (Continue viewType).

(** Lines 206-219 *)
Definition prompt_snippet (env : Env) (uri : string)
    (viewType : option string) (buttons responses : list string) : M flow :=
  let prompt := GetStringFromName env "importSublimeFileAsTool.prompt" in
  let title := GetStringFromName env "openingSublimeFile.label" in
  answer <- call (EvCustomButtons prompt buttons title)
              (customButtons env prompt buttons title) ;;
  if declined answer responses then ret Return
  else if is_response answer responses 0 then
    path <- call (EvURIToPath uri) (URIToPath env uri) ;;
    call (EvImportSublimeSnippet path) (importSublimeSnippet_dragDrop env path) ;;;
    ret Return
  else ret (Continue viewType).

(** Lines 220-233 *)
Definition prompt_tool (env : Env) (uri : string)
    (viewType : option string) (buttons responses : list string) : M flow :=
  let prompt := GetStringFromName env "importFileAsKomodoTool.prompt" in
  let title := GetStringFromName env "openingKomodoToolFile.label" in
  answer <- call (EvCustomButtons prompt buttons title)
              (customButtons env prompt buttons title) ;;
  if declined answer responses then ret Return
  else if is_response answer responses 0 then
    path <- call (EvURIToPath uri) (URIToPath env uri) ;;
    call (EvImportFiles path) (importFilesFromFileSystem_dragDrop env path) ;;;
    ret Return
  else ret (Continue viewType).

(** Lines 177-238: the body of [if (!this.skipNextPrompt)] *)
Definition prompts (fuel : nat) (env : Env) (uri : string)
    (viewType : option string) (buttons responses : list string) : M flow :=
  if ends_with_ci ".ksf" uri then
    prompt_scheme fuel env uri viewType buttons responses
  else if ends_with_ci ".sublime-snippet" uri then
    prompt_snippet env uri viewType buttons responses
  else if is_tool_uri uri then
    prompt_tool env uri viewType buttons responses
  else if negb (truthy viewType) && (isImageUrl uri || isAudioUrl uri) then
    ret (Continue (Some "browser"))
  else ret (Continue viewType).

(** Lines 242-246: which request goes to the view manager, and what the
    view manager does with it. *)
Definition open_request (uri : string) (lineno : option lineval)
    (viewType : option string) (callback : option callback) : event :=
  match lineno with
  | Some l =>
      if lineno_truthy lineno
      then EvFileOpenAtLineAsync uri l viewType callback
      else EvFileOpenAsync uri viewType callback
  | None => EvFileOpenAsync uri viewType callback
  end.

Definition open_answer (env : Env) (uri : string) (lineno : option lineval)
    (viewType : option string) (callback : option callback) : result unit :=
  match lineno with
  | Some l =>
      if lineno_truthy lineno
      then doFileOpenAtLineAsync env uri l viewType callback
      else doFileOpenAsync env uri viewType callback
  | None => doFileOpenAsync env uri viewType callback
  end.

Definition open_file (env : Env) (uri : string) (lineno : option lineval)
    (viewType : option string) (callback : option callback) : M unit :=
  call (open_request uri lineno viewType callback)
    (open_answer env uri lineno viewType callback).

(** Lines 170-247: the final [else] *)
Definition open_document (fuel : nat) (env : Env) (uri : string)
    (lineno : option lineval) (viewType : option string)
    (callback : option callback) : M unit :=
  let buttons :=
    [GetStringFromName env "OK.customButtonLabel";
     GetStringFromName env "openAsText.customButtonLabel";
     GetStringFromName env "Cancel.customButtonLabel"] in
  let responses := removeAmpersands buttons in
  skip <- get_skipNextPrompt ;;
  next <- (if negb skip then prompts fuel env uri viewType buttons responses
           else ret (Continue viewType)) ;;
  match next with
  | Return => ret tt
  | Continue viewType' =>
      set_skipNextPrompt false ;;;
      open_file env uri lineno viewType' callback
  end.

(** Lines 158-247: classification of the URI, after the line number was
    taken off *)
Definition dispatch (fuel : nat) (env : Env) (uri : string)
    (lineno : option lineval) (viewType : option string)
    (skipRecentOpenFeature : option bool) (callback : option callback) : M unit :=
  if is_project_uri uri then
    call (EvProjectsOpen uri skipRecentOpenFeature)
      (projects_open env uri skipRecentOpenFeature)
  else if ends_with_ci ".xpi" uri then
    try_catch (_installAddon env uri)
      (fun ex =>
         let msg :=
           GetStringFromName env "installingExtensionIsCurrentlyDisabled"
           +:+ " " +:+ exn_text ex in
         call (EvDialogsAlert msg) (dialogs_alert env msg))
  else if ends_with_ci ".kpz" uri then
    call (EvImportPackage uri) (importPackage env uri)
  else
    handled <- loadSqliteDatabase env uri ;;
    if handled then ret tt
    else open_document fuel env uri lineno viewType callback.

(** Lines 146-247: the body of the [try] block *)
Definition URIAtLine_try (fuel : nat) (env : Env) (uri : string)
    (lineno : option lineval) (viewType : option string)
    (skipRecentOpenFeature : option bool) (callback : option callback) : M unit :=
  uri' <- call (EvPathToURI uri) (pathToURI env uri) ;;
  let '(uri'', lineno') := attached_lineno uri' lineno in
  dispatch fuel env uri'' lineno' viewType skipRecentOpenFeature callback.

(** The function returns [null] on every path. *)
Definition URIAtLine (fuel : nat) (env : Env) (uri : string)
    (lineno : option lineval) (viewType : option string)
    (skipRecentOpenFeature : option bool) (callback : option callback)
  : M (option view) :=
  try_catch
    (URIAtLine_try fuel env uri lineno viewType skipRecentOpenFeature callback)
    (fun e => emit (EvLogException e)) ;;;
  ret None.

Definition URI (fuel : nat) (env : Env) (uri : string)
    (viewType : option string) (skipRecentOpenFeature : option bool)
    (callback : option callback) : M (option view) :=
  URIAtLine fuel env uri None viewType skipRecentOpenFeature callback.

(** *** [recentURI] *)
Definition recentURI (fuel : nat) (env : Env) (uri : string)
    (viewType : option string) (skipRecentOpenFeature : option bool) : M unit :=
  let viewType := if truthy viewType then viewType else Some "editor" in
  let skipRecentOpenFeature :=
    match skipRecentOpenFeature with
    | None => Some false
    | Some b => Some b
    end in
  (if is_project_uri uri && negb (file_exists env uri) then
     emit (EvMruRemoveURL "mruProjectList" uri) ;;;
     (if places env && single_project_view env then emit EvRebuildView else ret tt)
   else ret tt) ;;;
  URI fuel env uri viewType skipRecentOpenFeature (Some (RecentCallback uri)) ;;;
  ret tt.

(** *** [displayPath] *)
Definition _fequal (env : Env) (a b : string) : bool :=
  if folds_case (PLATFORM env)
  then String.eqb (toLowerCase env a) (toLowerCase env b)
  else String.eqb a b.

(** The [for] loop of lines 394-406; the result tells whether the function
    returned from inside the loop. *)
Fixpoint displayPath_loop (env : Env) (typedViews : list view)
    (displayPath : string) (callback : option callback) : M bool :=
  match typedViews with
  | [] => ret false
  | typedView :: rest =>
      match koDoc typedView with
      | None => displayPath_loop env rest displayPath callback
      | Some path =>
          if _fequal env path displayPath then
            emit (EvMakeCurrent (view_id typedView)) ;;;
            match callback with
            | Some cb =>
                emit (EvCallback cb (Some (view_id typedView))) ;;;
                ret true
            | None => displayPath_loop env rest displayPath callback
            end
          else displayPath_loop env rest displayPath callback
      end
  end.

Definition displayPath (fuel : nat) (env : Env) (displayPath : string)
    (viewType : option string) (callback : option callback) : M unit :=
  let viewType := if truthy viewType then viewType else Some "editor" in
  let typedViews := getViewsByType env (default "editor" viewType) in
  returned <- displayPath_loop env typedViews displayPath callback ;;
  if returned then ret tt
  else
    (* Fallback to open URI. *)
    URI fuel env displayPath viewType (Some true) callback ;;; ret tt.

(** *** [multipleURIs] *)

(** Lines 432-447: the remembered [opened_files] of every requested URL
    that has a view state, in order. *)
Definition projectFiles (env : Env) (urls : list string) : list string :=
  flat_map
    (fun url =>
       match viewStateMRU env url with
       | Some (Some opened_files) => opened_files
       | _ => []
       end)
    urls.

Definition multipleURIs (fuel : nat) (env : Env) (urls : list string)
    (viewType : option string) (isRecent : option bool) : M unit :=
  let isRecent := default false isRecent in
  if Nat.eqb (length urls) 0 then ret tt else
  let projectFiles := projectFiles env urls in
  chosen <-
    (if Nat.ltb 0 (length projectFiles) then
       let prompt := GetStringFromName env "reopenProjectFilesPrompt" in
       emit (EvYesNoCancel prompt) ;;;
       let action := yesNoCancel env prompt in
       if String.eqb action "Cancel" then ret None
       else if String.eqb action "Yes" then ret (Some (urls ++ projectFiles)%list)
       else ret (Some urls)
     else ret (Some urls)) ;;
  match chosen with
  | None => ret tt
  | Some urls =>
      (if Nat.ltb 1 (length urls) then emit (EvSetBatchMode true) else ret tt) ;;;
      for_each urls
        (fun url =>
           if isRecent
           then recentURI fuel env url viewType (Some true)
           else (URI fuel env url viewType (Some true) None ;;; ret tt)) ;;;
      emit EvAddViewOpenedListener
  end.

End Open.

(** ** dynamic-button.js *)
Module DynamicButton.
Import JsString.

(** *** Values *)

(** [throw new Error(msg)], and the [TypeError] the engine raises when a
    property of [undefined] or [null] is read or a non-function is called. *)
Inductive js_error :=
| Error (msg : string)
| TypeError (msg : string).

Inductive result (A : Type) :=
| Ok (a : A)
| Throw (e : js_error).
Arguments Ok {A} a.
Arguments Throw {A} e.

(** [opts.isEnabled] is a function of the caller, the query of a command
    controller that [init] puts in its place, [() => false], or the
    [() => { return true; }] of the "Add .." button. *)
Inductive predicate :=
| UserPredicate (k : nat)
| ControllerPredicate (command : string)
| NeverEnabled
| AlwaysEnabled.

(** [opts.command] is the name of a command or a function. *)
Inductive command :=
| CommandName (name : string)
| CommandHandler (k : nat).

(** The option object; a field that is [None] is a key that is not there. *)
Record options := {
  o_id : option string;
  o_label : option string;
  o_tooltip : option string;
  o_classList : option string;
  o_command : option command;
  o_icon : option string;
  o_image : option string;
  o_ordinal : option nat;
  o_menuitems : option nat;
  o_menuitemsInitialize : option nat;
  o_group : option string;
  o_groupOrdinal : option nat;
  o_isEnabled : option predicate;
  o_events : option (list string);
}.

(** The first argument of [register]: a label, or the option object. *)
Inductive label_or_spec :=
| Label (label : string)
| Spec (opts : options).

(** What the predicates and the command controllers answer, by time. *)
Record Env := {
  user_predicate : nat -> nat -> bool;
  getControllerForCommand : string -> bool;
  isCommandEnabled : string -> nat -> bool;
}.

(** *** State *)

(** An entry of [ss.storage.buttons]; [{}] has no [hide]. *)
Record stored := { hide : option bool }.

(** A [dynamicButton] object: its options, its [button] and [menupopup]
    elements and [this.update._timer]. *)
Record widget := {
  opts : options;
  button : nat;
  menupopup : option nat;
  _timer : option nat;
}.

(** A timer of [window.setTimeout]; it calls [update(true)] on [target]. *)
Record timer := { timer_id : nat; deadline : nat; target : nat }.

Record world := {
  buttons : gmap string nat;  (* [var buttons = {}]: the registry, id to dynamicButton object *)
  heap : gmap nat widget;  (* the dynamicButton objects *)
  next_widget : nat;
  storage : gmap string stored;  (* [ss.storage.buttons] *)
  elements : gmap nat (gmap string string);  (* the XUL elements made so far, with their attributes *)
  toolbar : list (nat * list nat);  (* [#side-top-toolbar]: its group items and their children *)
  next_element : nat;
  clock : nat;  (* milliseconds *)
  pending : list timer;  (* timers set and not yet fired or cleared *)
  next_timer : nat;
  listeners : list (string * string * nat);  (* (kind, event or topic, widget) subscriptions *)
  predicate_calls : list nat;  (* the widgets whose [opts.isEnabled] was called, in order *)
}.

Definition set_buttons (x : gmap string nat) (w : world) : world :=
  {| buttons := x; heap := heap w; next_widget := next_widget w;
     storage := storage w; elements := elements w; toolbar := toolbar w;
     next_element := next_element w; clock := clock w; pending := pending w;
     next_timer := next_timer w; listeners := listeners w;
     predicate_calls := predicate_calls w |}.

Definition set_heap (x : gmap nat widget) (w : world) : world :=
  {| buttons := buttons w; heap := x; next_widget := next_widget w;
     storage := storage w; elements := elements w; toolbar := toolbar w;
     next_element := next_element w; clock := clock w; pending := pending w;
     next_timer := next_timer w; listeners := listeners w;
     predicate_calls := predicate_calls w |}.

Definition set_next_widget (x : nat) (w : world) : world :=
  {| buttons := buttons w; heap := heap w; next_widget := x; storage := storage w;
     elements := elements w; toolbar := toolbar w; next_element := next_element w;
     clock := clock w; pending := pending w; next_timer := next_timer w;
     listeners := listeners w; predicate_calls := predicate_calls w |}.

Definition set_storage (x : gmap string stored) (w : world) : world :=
  {| buttons := buttons w; heap := heap w; next_widget := next_widget w;
     storage := x; elements := elements w; toolbar := toolbar w;
     next_element := next_element w; clock := clock w; pending := pending w;
     next_timer := next_timer w; listeners := listeners w;
     predicate_calls := predicate_calls w |}.

Definition set_elements (x : gmap nat (gmap string string)) (w : world) : world :=
  {| buttons := buttons w; heap := heap w; next_widget := next_widget w;
     storage := storage w; elements := x; toolbar := toolbar w;
     next_element := next_element w; clock := clock w; pending := pending w;
     next_timer := next_timer w; listeners := listeners w;
     predicate_calls := predicate_calls w |}.

Definition set_toolbar (x : list (nat * list nat)) (w : world) : world :=
  {| buttons := buttons w; heap := heap w; next_widget := next_widget w;
     storage := storage w; elements := elements w; toolbar := x;
     next_element := next_element w; clock := clock w; pending := pending w;
     next_timer := next_timer w; listeners := listeners w;
     predicate_calls := predicate_calls w |}.

Definition set_next_element (x : nat) (w : world) : world :=
  {| buttons := buttons w; heap := heap w; next_widget := next_widget w;
     storage := storage w; elements := elements w; toolbar := toolbar w;
     next_element := x; clock := clock w; pending := pending w;
     next_timer := next_timer w; listeners := listeners w;
     predicate_calls := predicate_calls w |}.

Definition set_clock (x : nat) (w : world) : world :=
  {| buttons := buttons w; heap := heap w; next_widget := next_widget w;
     storage := storage w; elements := elements w; toolbar := toolbar w;
     next_element := next_element w; clock := x; pending := pending w;
     next_timer := next_timer w; listeners := listeners w;
     predicate_calls := predicate_calls w |}.

Definition set_pending (x : list timer) (w : world) : world :=
  {| buttons := buttons w; heap := heap w; next_widget := next_widget w;
     storage := storage w; elements := elements w; toolbar := toolbar w;
     next_element := next_element w; clock := clock w; pending := x;
     next_timer := next_timer w; listeners := listeners w;
     predicate_calls := predicate_calls w |}.

Definition set_next_timer (x : nat) (w : world) : world :=
  {| buttons := buttons w; heap := heap w; next_widget := next_widget w;
     storage := storage w; elements := elements w; toolbar := toolbar w;
     next_element := next_element w; clock := clock w; pending := pending w;
     next_timer := x; listeners := listeners w;
     predicate_calls := predicate_calls w |}.

Definition set_listeners (x : list (string * string * nat)) (w : world) : world :=
  {| buttons := buttons w; heap := heap w; next_widget := next_widget w;
     storage := storage w; elements := elements w; toolbar := toolbar w;
     next_element := next_element w; clock := clock w; pending := pending w;
     next_timer := next_timer w; listeners := x;
     predicate_calls := predicate_calls w |}.

Definition set_predicate_calls (x : list nat) (w : world) : world :=
  {| buttons := buttons w; heap := heap w; next_widget := next_widget w;
     storage := storage w; elements := elements w; toolbar := toolbar w;
     next_element := next_element w; clock := clock w; pending := pending w;
     next_timer := next_timer w; listeners := listeners w; predicate_calls := x |}.

(** *** Computations: state, and [throw] *)
Definition M (A : Type) : Type := world -> result A * world.

Definition ret {A} (a : A) : M A := fun w => (Ok a, w).

Definition bind {A B} (c : M A) (k : A -> M B) : M B :=
  fun w =>
    match c w with
    | (Ok a, w') => k a w'
    | (Throw e, w') => (Throw e, w')
    end.

#[local] Notation "x <- c ;; k" := (bind c (fun x => k))
  (at level 100, c at next level, right associativity).
#[local] Notation "c ;;; k" := (bind c (fun _ => k))
  (at level 100, right associativity).

Definition throw {A} (e : js_error) : M A := fun w => (Throw e, w).

Definition modify (f : world -> world) : M unit := fun w => (Ok tt, f w).

Definition gets {A} (f : world -> A) : M A := fun w => (Ok (f w), w).

Fixpoint for_each {A} (xs : list A) (body : A -> M unit) : M unit :=
  match xs with
  | [] => ret tt
  | x :: xs' => body x ;;; for_each xs' body
  end.

(** String concatenation turns a missing value into ["undefined"], and so
    does its use as a property key. *)
Definition js_str (o : option string) : string := default "undefined" o.

Definition show_nat (n : nat) : string := NilZero.string_of_uint (Nat.to_uint n).

(** [if (n)] on a possibly missing number *)
Definition truthy_nat (o : option nat) : bool :=
  match o with
  | Some (S _) => true
  | _ => false
  end.

(** [if (opts.command)]: a function, or a non-empty command name *)
Definition truthy_command (o : option command) : bool :=
  match o with
  | Some (CommandName c) => negb (String.eqb c "")
  | Some (CommandHandler _) => true
  | None => false
  end.

(** *** The toolbar and its elements *)
Definition attrs_of (el : nat) (w : world) : gmap string string :=
  default ∅ (elements w !! el).

(** [el.attr(name, value)] *)
Definition attr (el : nat) (name value : string) (w : world) : world :=
  set_elements (<[el := <[name := value]> (attrs_of el w)]> (elements w)) w.

(** [el.removeAttr(name)] *)
Definition removeAttr (el : nat) (name : string) (w : world) : world :=
  set_elements (<[el := delete name (attrs_of el w)]> (elements w)) w.

(** [el.addClass(c)] *)
Definition addClass (el : nat) (c : string) (w : world) : world :=
  attr el "class" (default "" (attrs_of el w !! "class") +:+ " " +:+ c) w.

(** [$("<tag>")] *)
Definition new_element (w : world) : nat * world :=
  let el := next_element w in
  (el, set_next_element (S el) (set_elements (<[el := ∅]> (elements w)) w)).

Definition has_child (el : nat) (g : nat * list nat) : bool :=
  existsb (Nat.eqb el) (snd g).

(** [el.parentNode] *)
Definition parentNode (el : nat) (w : world) : option (nat * list nat) :=
  List.find (has_child el) (toolbar w).

Definition without (el : nat) (children : list nat) : list nat :=
  List.filter (fun c => negb (Nat.eqb el c)) children.

(** [el.remove()] *)
Definition remove (el : nat) (w : world) : world :=
  set_toolbar (map (fun g => (fst g, without el (snd g))) (toolbar w)) w.

(** [group.append(el)]: the element moves to the end of the group. *)
Definition append (grp el : nat) (w : world) : world :=
  set_toolbar
    (map (fun g =>
            if Nat.eqb (fst g) grp
            then (fst g, (without el (snd g) ++ [el])%list)
            else (fst g, without el (snd g)))
       (toolbar w))
    w.

(** [tb.find("#" + id)] among the group items *)
Definition find_group (id : string) (w : world) : option nat :=
  fst <$> List.find
            (fun g => bool_decide (attrs_of (fst g) w !! "id" = Some id))
            (toolbar w).

(** The selector of [update]: a button that is not disabled. *)
Definition not_disabled (w : world) (el : nat) : bool :=
  match attrs_of el w !! "disabled" with
  | Some v => String.eqb v "false"
  | None => true
  end.

(** *** Timers of the main window *)

(** [w.setTimeout(this.update.bind(this, true), delay)] *)
Definition setTimeout (self delay : nat) (w : world) : nat * world :=
  let h := next_timer w in
  let t := {| timer_id := h; deadline := clock w + delay; target := self |} in
  (h, set_next_timer (S h) (set_pending (pending w ++ [t])%list w)).

(** [w.clearTimeout(handle)]; [null] and handles of timers that fired
    clear nothing. *)
Definition clearTimeout (handle : option nat) (w : world) : world :=
  match handle with
  | None => w
  | Some h =>
      set_pending
        (List.filter (fun t => negb (Nat.eqb (timer_id t) h)) (pending w)) w
  end.

Definition eval_predicate (env : Env) (p : predicate) (now : nat) : bool :=
  match p with
  | UserPredicate k => user_predicate env k now
  | ControllerPredicate c => isCommandEnabled env c now
  | NeverEnabled => false
  | AlwaysEnabled => true
  end.

(** *** The methods of a [dynamicButton]; [self] is [this] *)
Module dynamicButton.

Definition set_timer (self : nat) (h : option nat) (w : world) : world :=
  match heap w !! self with
  | Some d =>
      set_heap
        (<[self := {| opts := opts d; button := button d;
                      menupopup := menupopup d; _timer := h |}]> (heap w)) w
  | None => w
  end.

Definition set_opts (self : nat) (o : options) (w : world) : world :=
  match heap w !! self with
  | Some d =>
      set_heap
        (<[self := {| opts := o; button := button d;
                      menupopup := menupopup d; _timer := _timer d |}]> (heap w)) w
  | None => w
  end.

(** [this], which every method is called on, is a live object. *)
Definition this (self : nat) : M widget :=
  fun w =>
    match heap w !! self with
    | Some d => (Ok d, w)
    | None => (Throw (TypeError "this is undefined"), w)
    end.

(** [ss.storage.buttons[opts.id].hide = value]. An object is made by
    [register] only, which refuses the ids that are names of
    [Object.prototype]: [opts.id] is an own key of the stored flags or no
    key at all. *)
Definition store_hide (key : string) (value : bool) : M unit :=
  fun w =>
    match storage w !! key with
    | Some _ => (Ok tt, set_storage (<[key := {| hide := Some value |}]> (storage w)) w)
    | None => (Throw (TypeError "ss.storage.buttons[opts.id] is undefined"), w)
    end.

Definition hide (self : nat) : M unit :=
  d <- this self ;;
  store_hide (js_str (o_id (opts d))) true ;;;
  modify (attr (button d) "kohidden" "true").

Definition show (self : nat) : M unit :=
  d <- this self ;;
  store_hide (js_str (o_id (opts d))) false ;;;
  modify (removeAttr (button d) "kohidden").

(** Lines 200-212: the recomputation of [update] *)
Definition recompute (env : Env) (self : nat) : M unit :=
  d <- this self ;;
  match o_isEnabled (opts d) with
  | None => throw (TypeError "opts.isEnabled is not a function")
  | Some p =>
      now <- gets clock ;;
      let enabled := eval_predicate env p now in
      modify (fun w => set_predicate_calls (predicate_calls w ++ [self])%list w) ;;;
      modify (attr (button d) "disabled" (if enabled then "false" else "true")) ;;;
      parent <- gets (parentNode (button d)) ;;
      match parent with
      | None => throw (TypeError "button.element().parentNode is null")
      | Some (grp, childNodes) =>
          visibleChildren <-
            (if Nat.eqb (length childNodes) 1 then ret enabled
             else
               w <- gets (fun w => w) ;;
               ret (negb (Nat.eqb (length (List.filter (not_disabled w) childNodes)) 0))) ;;
          modify (attr grp "collapsed" (if visibleChildren then "false" else "true"))
      end
  end.

(** [this.update = function(now = false)]; [now] is [true] only for the
    value [true] itself. *)
Definition update (env : Env) (self : nat) (now : bool) : M unit :=
  if negb now then
    d <- this self ;;
    modify (clearTimeout (_timer d)) ;;;
    h <- (fun w => let '(h, w') := setTimeout self 250 w in (Ok h, w')) ;;
    modify (set_timer self (Some h))
  else recompute env self.

Definition setLabel (self : nat) (value : option string) : M unit :=
  d <- this self ;;
  match value with
  | None => modify (removeAttr (button d) "label")
  | Some v => modify (attr (button d) "label" v)
  end.

Definition setCounter (self : nat) (value : option string) : M unit :=
  d <- this self ;;
  match value with
  | None => modify (removeAttr (button d) "counter")
  | Some v => modify (attr (button d) "counter" v)
  end.

(** [this.unregister = function () { button.remove(); }] *)
Definition unregister (self : nat) : M unit :=
  d <- this self ;;
  modify (remove (button d)).

Definition element (self : nat) : M nat :=
  d <- this self ;;
  ret (button d).

(** One subscription per entry of [opts.events]. *)
Definition subscribe (self : nat) (event : string) : M unit :=
  let l := chars event in
  let entry :=
    if starts_with (chars "observe:") l then ("observe", text (drop 8 l), self)
    else if starts_with (chars "pref:") l then ("pref", text (drop 5 l), self)
    else ("event", event, self) in
  modify (fun w => set_listeners (listeners w ++ [entry])%list w).

(** [this.init] *)
Definition init (env : Env) (self : nat) (o : options) : M unit :=
  btn <- (fun w => let '(el, w') := new_element w in (Ok el, w')) ;;
  modify (fun w =>
            set_heap (<[self := {| opts := o; button := btn;
                                   menupopup := None; _timer := None |}]> (heap w)) w) ;;;
  modify (attr btn "id" ("dynamicBtn-" +:+ js_str (o_id o))) ;;;
  modify (attr btn "tooltiptext" (js_str (o_tooltip o))) ;;;
  modify (attr btn "type" "button") ;;;
  modify (attr btn "disabled" "true") ;;;
  modify (attr btn "class" ("dynamic-button " +:+ js_str (o_classList o))) ;;;
  match o_command o with
  | Some (CommandName c) =>
      modify (attr btn "oncommand"
                ("ko.commands.doCommandAsync('" +:+ c +:+ "', event)")) ;;;
      modify (attr btn "observes" c)
  | Some (CommandHandler _) =>
      modify (fun w => set_listeners (listeners w ++ [("command", "", self)])%list w)
  | None => ret tt
  end ;;;
  (if truthy (o_icon o) then modify (addClass btn ("icon-" +:+ js_str (o_icon o)))
   else if truthy (o_image o) then modify (attr btn "image" (js_str (o_image o)))
   else ret tt) ;;;
  (if truthy (o_label o) then modify (attr btn "label" (js_str (o_label o)))
   else ret tt) ;;;
  (if truthy_nat (o_ordinal o)
   then modify (attr btn "ordinal" (show_nat (default 0%nat (o_ordinal o))))
   else ret tt) ;;;
  match o_menuitems o with
  | Some _ =>
      modify (attr btn "type"
                (if truthy_command (o_command o) then "menu-button" else "menu")) ;;;
      popup <- (fun w => let '(el, w') := new_element w in (Ok el, w')) ;;
      modify (fun w =>
                set_heap (<[self := {| opts := o; button := btn;
                                       menupopup := Some popup;
                                       _timer := None |}]> (heap w)) w)
  | None => ret tt
  end ;;;
  let group_id := "dynamicBtnGrp-" +:+ js_str (o_group o) in
  found <- gets (find_group group_id) ;;
  groupItem <-
    match found with
    | Some g => ret g
    | None =>
        g <- (fun w => let '(el, w') := new_element w in (Ok el, w')) ;;
        modify (attr g "id" group_id) ;;;
        (if truthy_nat (o_groupOrdinal o)
         then modify (attr g "ordinal" (show_nat (default 0%nat (o_groupOrdinal o))))
         else ret tt) ;;;
        modify (fun w => set_toolbar (toolbar w ++ [(g, [])])%list w) ;;;
        ret g
    end ;;
  let isEnabled :=
    match o_isEnabled o with
    | Some p => p
    | None =>
        match o_command o with
        | Some (CommandName c) =>
            if getControllerForCommand env c then ControllerPredicate c
            else NeverEnabled
        | _ => NeverEnabled
        end
    end in
  modify (set_opts self
            {| o_id := o_id o; o_label := o_label o; o_tooltip := o_tooltip o;
               o_classList := o_classList o; o_command := o_command o;
               o_icon := o_icon o; o_image := o_image o; o_ordinal := o_ordinal o;
               o_menuitems := o_menuitems o;
               o_menuitemsInitialize := o_menuitemsInitialize o;
               o_group := o_group o; o_groupOrdinal := o_groupOrdinal o;
               o_isEnabled := Some isEnabled; o_events := o_events o |}) ;;;
  entry <- gets (fun w => storage w !! js_str (o_id o)) ;;
  match entry with
  | None => throw (TypeError "ss.storage.buttons[opts.id] is undefined")
  | Some st =>
      (if default false (DynamicButton.hide st) then hide self else ret tt) ;;;
      modify (append groupItem btn) ;;;
      match o_events o with
      | None => throw (TypeError "opts.events is not iterable")
      | Some events =>
          for_each events (subscribe self) ;;;
          modify (fun w =>
                    set_listeners
                      (listeners w ++ [("event", "update_dynamic_buttons", self)])%list
                      w) ;;;
          update env self false
      end
  end.

(** [new dynamicButton(opts)]: a fresh object, then [this.init()]. *)
Definition new (env : Env) (o : options) : M nat :=
  self <- (fun w => (Ok (next_widget w), set_next_widget (S (next_widget w)) w)) ;;
  init env self o ;;;
  ret self.

End dynamicButton.

(** *** The registry *)

(** [_.extend(defaults, opts)]: the keys of [opts] win. *)
Definition extend (defaults o : options) : options :=
  let pick {A} (f : options -> option A) : option A :=
    match f o with
    | Some v => Some v
    | None => f defaults
    end in
  {| o_id := pick o_id; o_label := pick o_label; o_tooltip := pick o_tooltip;
     o_classList := pick o_classList; o_command := pick o_command;
     o_icon := pick o_icon; o_image := pick o_image; o_ordinal := pick o_ordinal;
     o_menuitems := pick o_menuitems;
     o_menuitemsInitialize := pick o_menuitemsInitialize;
     o_group := pick o_group; o_groupOrdinal := pick o_groupOrdinal;
     o_isEnabled := pick o_isEnabled; o_events := pick o_events |}.

Definition already_exists (id : string) : js_error :=
  Error ("A dynamic button with id " +:+ id +:+ " already exists").

Definition does_not_exist (id : string) : js_error :=
  Error ("A dynamic button with id " +:+ id +:+ " does not exist").

(** [id in buttons]: an own key of the registry, or a name that the object
    inherits from [Object.prototype]. *)
Definition in_buttons (id : string) (w : world) : bool :=
  bool_decide (is_Some (buttons w !! id)) || inherited id.

(** [this.register = function(label, opts)] *)
Definition register (env : Env) (label : label_or_spec) (opts : option options)
  : M nat :=
  args <-
    match label with
    | Spec o => ret (o, or_else (o_label o) (o_id o))
    | Label l =>
        match opts with
        | Some o => ret (o, Some l)
        | None => throw (TypeError "opts is undefined")
        end
    end ;;
  let '(opts, label) := args in
  match or_else (o_id opts) label with
  | None => throw (TypeError "(opts.id || label) is undefined")
  | Some raw =>
      let id := strip_non_word raw in
      registered <- gets (in_buttons id) ;;
      if registered : bool then throw (already_exists id)
      else
        let icon :=
          if negb (truthy (o_image opts))
          then or_else (o_icon opts) (Some "question4")
          else None in
        let opts :=
          extend
            {| o_id := Some id; o_group := Some id; o_label := label;
               o_tooltip := or_else (o_tooltip opts) label;
               o_isEnabled := None; o_command := None; o_menuitems := None;
               o_menuitemsInitialize := None; o_icon := icon; o_image := None;
               o_classList := Some "";
               o_events :=
                 Some ["current_place_opened"; "project_opened";
                       "workspace_restored"];
               o_ordinal := None; o_groupOrdinal := None |}
            opts in
        modify (fun w =>
                  match storage w !! id with
                  | Some _ => w
                  | None => set_storage (<[id := {| hide := None |}]> (storage w)) w
                  end) ;;;
        self <- dynamicButton.new env opts ;;
        modify (fun w => set_buttons (<[id := self]> (buttons w)) w) ;;;
        ret self
  end.

(** The arguments of [register] as its first lines read them: the option
    object, and the text the id is made from. *)
Definition id_source (label : label_or_spec) (o : option options) : option string :=
  match label with
  | Spec spec => or_else (o_id spec) (or_else (o_label spec) (o_id spec))
  | Label l =>
      match o with
      | Some opts => or_else (o_id opts) (Some l)
      | None => None
      end
  end.

(** [this.unregister = function(id)]. For a name that is in the registry
    by inheritance only, [buttons[id]] is no [dynamicButton]: the call of
    its [unregister] is a [TypeError]. *)
Definition unregister (id : string) : M unit :=
  registered <- gets (in_buttons id) ;;
  if negb registered then throw (does_not_exist id)
  else
    entry <- gets (fun w => buttons w !! id) ;;
    match entry with
    | Some self => dynamicButton.unregister self
    | None => throw (TypeError "buttons[id].unregister is not a function")
    end.

(** The state the module starts in: nothing registered, an empty toolbar,
    and the stored flags of earlier sessions, if any
    ([if (!ss.storage.buttons) ss.storage.buttons = {}]). *)
Definition initial_world (persisted : option (gmap string stored)) : world :=
  {| buttons := ∅; heap := ∅; next_widget := 0; storage := default ∅ persisted;
     elements := ∅; toolbar := []; next_element := 0; clock := 0; pending := [];
     next_timer := 0; listeners := []; predicate_calls := [] |}.

(** [var init = () => ...]: the "Add .." button; its menu is
    [this.getAvailableToAdd]. *)
Definition init (env : Env) : M nat :=
  register env (Label "Add ..")
    (Some {| o_id := None; o_label := None; o_tooltip := None; o_classList := None;
             o_command := None; o_icon := Some "plus"; o_image := None;
             o_ordinal := Some 0%nat; o_menuitems := Some 0%nat;
             o_menuitemsInitialize := None; o_group := Some "add";
             o_groupOrdinal := Some 0%nat; o_isEnabled := Some AlwaysEnabled;
             o_events := Some [] |}).

(** *** The event loop: time passes and timers fire *)

(** The timer to fire next at time [t]: the earliest deadline that is not
    after [t], the oldest timer first among equals. *)
Fixpoint first_due (t : nat) (ts : list timer) : option timer :=
  match ts with
  | [] => None
  | x :: rest =>
      match first_due t rest with
      | Some y =>
          if Nat.leb (deadline x) t && Nat.leb (deadline x) (deadline y)
          then Some x else Some y
      | None => if Nat.leb (deadline x) t then Some x else None
      end
  end.

Definition timer_eqb (a b : timer) : bool :=
  Nat.eqb (timer_id a) (timer_id b)
  && Nat.eqb (deadline a) (deadline b)
  && Nat.eqb (target a) (target b).

Fixpoint remove_timer (tm : timer) (ts : list timer) : list timer :=
  match ts with
  | [] => []
  | x :: rest => if timer_eqb x tm then rest else x :: remove_timer tm rest
  end.

(** The timer leaves the queue and its callback, [update(true)], runs; an
    exception of the callback ends the callback and nothing else. *)
Definition fire (env : Env) (tm : timer) (w : world) : world :=
  let w1 :=
    set_clock (Nat.max (clock w) (deadline tm))
      (set_pending (remove_timer tm (pending w)) w) in
  snd (dynamicButton.update env (target tm) true w1).

Fixpoint run_due (fuel : nat) (env : Env) (t : nat) (w : world) : world :=
  match fuel with
  | O => w
  | S fuel' =>
      match first_due t (pending w) with
      | Some tm => run_due fuel' env t (fire env tm w)
      | None => w
      end
  end.

(** [d] milliseconds pass: every timer due by then fires, in order. A
    callback sets no timer, so the length of the queue bounds the firings. *)
Definition elapse (env : Env) (d : nat) (w : world) : world :=
  let t := (clock w + d)%nat in
  let w' := run_due (length (pending w)) env t w in
  set_clock (Nat.max t (clock w')) w'.

(** A refresh request, [update()] or [update(false)], from an event
    listener or an observer. *)
Definition request (env : Env) (self : nat) (w : world) : world :=
  snd (dynamicButton.update env self false w).

(** A run of requests; each arrives [gap] milliseconds after the one
    before it. *)
Fixpoint requests (env : Env) (self : nat) (gaps : list nat) (w : world) : world :=
  match gaps with
  | [] => w
  | gap :: rest => requests env self rest (request env self (elapse env gap w))
  end.

(** How often [opts.isEnabled] of [self] was called: its recomputations. *)
Definition recomputations (self : nat) (w : world) : nat :=
  length (List.filter (Nat.eqb self) (predicate_calls w)).

(** The pending timers of [self]. *)
Definition own_timers (self : nat) (w : world) : list timer :=
  List.filter (fun t => Nat.eqb (target t) self) (pending w).

(** A computation that leaves a component [f] of the state as it was. *)
Definition keeps {X A} (f : world -> X) (c : M A) : Prop :=
  forall w, f (snd (c w)) = f w.

(** Is [self] a [dynamicButton] with a predicate to call? [init] gives
    every button one. *)
Definition has_predicate (self : nat) (w : world) : bool :=
  match heap w !! self with
  | Some d =>
      match o_isEnabled (opts d) with
      | Some _ => true
      | None => false
      end
  | None => false
  end.

(** The [button] element of [self], and its [opts.isEnabled]. *)
Definition button_of (self : nat) (w : world) : option nat :=
  match heap w !! self with
  | Some d => Some (button d)
  | None => None
  end.

Definition predicate_of (self : nat) (w : world) : option predicate :=
  match heap w !! self with
  | Some d => o_isEnabled (opts d)
  | None => None
  end.

(** The [dynamicButton] objects whose [button] is the element [el]; the
    constructor makes one element per object. *)
Definition owners (el : nat) (w : world) : list nat :=
  map fst
    (List.filter (fun xd => Nat.eqb (button (snd xd)) el) (map_to_list (heap w))).

(** [c], started in a state with [P], ends - when it returns - with a
    result and a state with [Q]. *)
Definition hoare {A} (P : world -> Prop) (c : M A) (Q : A -> world -> Prop) : Prop :=
  forall w a w', P w -> c w = (Ok a, w') -> Q a w'.

(** The object [self] has the element [btn], made before the next element
    to come, and the predicate [q]; the attribute [disabled] of [btn] is
    [v]. *)
Definition made (self btn : nat) (q : option predicate) (v : option string)
    (w : world) : Prop :=
  button_of self w = Some btn
  /\ predicate_of self w = q
  /\ (btn < next_element w)%nat
  /\ attrs_of btn w !! "disabled" = v.

(** Lines 134-150: the predicate that [init] leaves in [opts.isEnabled]. *)
Definition isEnabled_of (env : Env) (o : options) : predicate :=
  match o_isEnabled o with
  | Some p => p
  | None =>
      match o_command o with
      | Some (CommandName c) =>
          if getControllerForCommand env c then ControllerPredicate c
          else NeverEnabled
      | _ => NeverEnabled
      end
  end.

(** The option object among the arguments of [register]. *)
Definition given_options (label : label_or_spec) (o : option options)
  : option options :=
  match label with
  | Spec spec => Some spec
  | Label _ => o
  end.

(** The object [self] has the element [btn], made before the next element
    to come, and goes by the id [key] in the stored flags; these are [st],
    and the attribute [kohidden] of [btn] is [v]. *)
Definition kept (self btn : nat) (key : string) (v : option string)
    (st : gmap string stored) (w : world) : Prop :=
  (exists d, heap w !! self = Some d /\ button d = btn
             /\ js_str (o_id (opts d)) = key)
  /\ (btn < next_element w)%nat
  /\ attrs_of btn w !! "kohidden" = v
  /\ storage w = st.

(** The id under which [init] looks for the stored flags: [opts.id] after
    [_.extend], the id of the caller as it was given, or else the id made
    from the label. *)
Definition storage_key (opts : options) (id : string) : string :=
  default id (o_id opts).

(** [ss.storage.buttons[key].hide], as a condition *)
Definition stored_hidden (st : gmap string stored) (key : string) : bool :=
  match st !! key with
  | Some entry => default false (hide entry)
  | None => false
  end.

(** A refresh of [self] is pending: its one timer is the one that
    [this.update._timer] names, and it is due at [due]. *)
Definition armed (self due : nat) (w : world) : Prop :=
  exists d tm,
    heap w !! self = Some d
    /\ own_timers self w = [tm]
    /\ _timer d = Some (timer_id tm)
    /\ deadline tm = due.

End DynamicButton.

(** ** What an observer of the dispatcher sees *)
Module Observe.
Import Open.

(** The URIs of the single-open calls: every call of [URIAtLine] starts by
    converting its argument with [pathToURI]. *)
Definition opened_uris (evs : list event) : list string :=
  flat_map (fun ev => match ev with EvPathToURI u => [u] | _ => [] end) evs.

(** The events of classification, import and prompting: all but the path
    conversion, the requests to the view manager, and what only
    [displayPath], [recentURI] and [multipleURIs] do. *)
Definition quiet_event (ev : event) : bool :=
  match ev with
  | EvPathToURI _ | EvFileOpenAsync _ _ _ | EvFileOpenAtLineAsync _ _ _ _
  | EvCallback _ _ | EvMakeCurrent _ | EvMruRemoveURL _ _ | EvRebuildView
  | EvSetBatchMode _ | EvAddViewOpenedListener | EvYesNoCancel _ => false
  | _ => true
  end.

(** A request that the view manager took without throwing. *)
Definition accepted (env : Env) (ev : event) : bool :=
  match ev with
  | EvFileOpenAsync u vt cb =>
      match doFileOpenAsync env u vt cb with Ok _ => true | Throw _ => false end
  | EvFileOpenAtLineAsync u l vt cb =>
      match doFileOpenAtLineAsync env u l vt cb with Ok _ => true | Throw _ => false end
  | _ => false
  end.

Definition is_callback (ev : event) : bool :=
  match ev with EvCallback _ _ => true | _ => false end.

Definition is_prompt (ev : event) : bool :=
  match ev with
  | EvCustomButtons _ _ _ | EvDialogsPrompt _ _ _ | EvYesNoCancel _ => true
  | _ => false
  end.

Definition is_open_request (ev : event) : bool :=
  match ev with
  | EvFileOpenAsync _ _ _ | EvFileOpenAtLineAsync _ _ _ _ => true
  | _ => false
  end.

(** What [log.exception] adds when a call threw. *)
Definition logged {A} (r : result A) : list event :=
  match r with
  | Ok _ => []
  | Throw e => [EvLogException e]
  end.

(** A computation adds events to the trace, all of them in [P]. *)
Definition emits {A} (P : event -> bool) (c : M A) : Prop :=
  forall w, exists evs,
    trace (snd (c w)) = (trace w ++ evs)%list /\ forallb P evs = true.

Definition outcome_of {A} (r : result A) : outcome A :=
  match r with
  | Ok a => Val a
  | Throw e => Exc e
  end.

(** What a run of the default branch looks like from outside: quiet events
    only, or quiet events and then one request to the view manager, whose
    answer is the outcome. *)
Definition document_shape (env : Env) (uri : string) (lineno : option lineval)
    (callback : option callback) (w : world) (r : outcome unit * world) : Prop :=
  exists evs,
    trace (snd r) = (trace w ++ evs)%list /\
    (forallb quiet_event evs = true \/
     exists evs0 viewType,
       evs = (evs0 ++ [open_request uri lineno viewType callback])%list /\
       forallb quiet_event evs0 = true /\
       fst r = outcome_of (open_answer env uri lineno viewType callback)).

(** A computation that comes to an end, by completing or by throwing. *)
Definition finishes {A} (c : M A) : Prop := forall w, fst (c w) <> Diverge.

(** The exchange at the scheme-name prompt that starts with [name], as the
    answers of the user make it go: does it come to an end - a name is
    accepted, the user cancels, or a call throws - within [rounds] rounds
    of the loop of [_checkKSFBaseName]? *)
Fixpoint settles (rounds : nat) (env : Env) (taken : name_set) (name : string)
  : bool :=
  match rounds with
  | O => false
  | S rounds' =>
      let valid :=
        if String.eqb name "" then Ok false else schemeNameIsValid env name in
      match valid with
      | Throw _ => true
      | Ok ok =>
          if ok && negb (known_name taken (scheme_key env name)) then true
          else
            let prompt :=
              formatStringFromName env
                (if negb ok then "schemeNameHasInvalidCharacters.template"
                 else "schemeExists.template")
                [name] in
            let label := GetStringFromName env "newSchemeName.label" in
            match dialogs_prompt env prompt label name with
            | Ok (Some answer) =>
                if String.eqb answer "" then true
                else settles rounds' env taken answer
            | _ => true
            end
      end
  end.

(** The user comes to an end at the scheme-name prompt within [rounds]
    rounds, whatever name the exchange starts with. *)
Definition settles_within (rounds : nat) (env : Env) : Prop :=
  forall names name,
    getSchemeNames env = Ok names ->
    settles rounds env (fold_left add_name (map (scheme_key env) names) no_names)
      name = true.

(** Extensions (without the dot) that none of the special branches of the
    classification takes: no project, add-on, toolbox or database file. *)
Definition document_extension (e : list ascii) : bool :=
  negb (existsb (fun c => Ascii.eqb "." (JsString.to_lower c)) e)
  && negb (existsb (Nat.eqb (length e)) [0; 2; 6; 7]%nat)
  && forallb
       (fun q => negb (JsString.agree (rev ("."%char :: e)) (rev (JsString.chars q))))
       [".kpf"; ".komodoproject"; ".xpi"; ".kpz"].

(** Extensions for which the default branch has no prompt. *)
Definition unprompted_extension (e : list ascii) : bool :=
  forallb
    (fun q => negb (JsString.agree (rev ("."%char :: e)) (rev (JsString.chars q))))
    [".ksf"; ".sublime-snippet"; ".komodotool"; ".ktf"].

End Observe.

(** ** Sample platforms and states *)
Module Examples.
Import Open.

(** A platform whose services all answer; [convert] is [pathToURI], [views]
    the open views of every type, [answer] what the user answers to the
    yes/no/cancel question and [remembered] the view-state preferences. *)
Definition platform_with (convert : string -> result string) (views : list view)
    (answer : string) (remembered : string -> option (option (list string))) : Env :=
  {| PLATFORM := Linux;
     toLowerCase := JsString.lower_case_latin1;
     pathToURI := convert;
     URIToPath := fun uri => Ok uri;
     baseName := fun uri => Ok uri;
     ext := fun _ => Ok ".ksf";
     GetStringFromName := fun name => name;
     formatStringFromName := fun name _ => name;
     projects_open := fun _ _ => Ok tt;
     installPackageByUrl := fun _ => Ok tt;
     importPackage := fun _ => Ok tt;
     dbexplorer_viewManager := true;
     addSqliteDatabaseFromURI := fun _ => Ok true;
     importSublimeSnippet_dragDrop := fun _ => Ok tt;
     importFilesFromFileSystem_dragDrop := fun _ => Ok tt;
     dialogs_alert := fun _ => Ok tt;
     customButtons := fun _ _ _ => Ok None;
     dialogs_prompt := fun _ _ _ => Ok None;
     yesNoCancel := fun _ => answer;
     getSchemeService := Ok tt;
     getSchemeNames := Ok [];
     schemeNameIsValid := fun _ => Ok true;
     loadSchemeFromURI := fun _ base => Ok base;
     activateScheme := fun _ => Ok "Dark";
     notifyHowtoRestoreOldScheme := fun _ _ => Ok tt;
     doFileOpenAsync := fun _ _ _ => Ok tt;
     doFileOpenAtLineAsync := fun _ _ _ _ => Ok tt;
     getViewsByType := fun _ => views;
     file_exists := fun _ => true;
     places := true;
     single_project_view := false;
     viewStateMRU := remembered |}.

Definition calm : Env := platform_with Ok [] "No" (fun _ => None).

(** [pathToURI] throws on every path. *)
Definition broken_paths : Env :=
  platform_with (fun _ => Throw (JsError "NS_ERROR_FAILURE")) [] "No" (fun _ => None).

(** One editor view is open, on [/tmp/a.txt]. *)
Definition one_view : Env :=
  platform_with Ok [{| view_id := 7; koDoc := Some "/tmp/a.txt" |}] "No"
    (fun _ => None).

(** The project [p.komodoproject] remembers two opened files. *)
Definition remembering (answer : string) : Env :=
  platform_with Ok [] answer
    (fun url =>
       if String.eqb url "p.komodoproject"
       then Some (Some ["file:///a.py"; "file:///b.py"])
       else None).

Definition fresh : world := {| skipNextPrompt := false; trace := [] |}.

Definition skipping : world := {| skipNextPrompt := true; trace := [] |}.

End Examples.

(** ** Sample buttons *)
Module ButtonExamples.
Import DynamicButton.

(** No command has a controller and every predicate of a caller says no. *)
Definition idle : Env :=
  {| user_predicate := fun _ _ => false;
     getControllerForCommand := fun _ => false;
     isCommandEnabled := fun _ _ => false |}.

(** [{}] *)
Definition no_options : options :=
  {| o_id := None; o_label := None; o_tooltip := None; o_classList := None;
     o_command := None; o_icon := None; o_image := None; o_ordinal := None;
     o_menuitems := None; o_menuitemsInitialize := None; o_group := None;
     o_groupOrdinal := None; o_isEnabled := None; o_events := None |}.

(** [{ id: id }] *)
Definition with_id (id : string) : options :=
  {| o_id := Some id; o_label := None; o_tooltip := None; o_classList := None;
     o_command := None; o_icon := None; o_image := None; o_ordinal := None;
     o_menuitems := None; o_menuitemsInitialize := None; o_group := None;
     o_groupOrdinal := None; o_isEnabled := None; o_events := None |}.

(** The module after it was loaded in a new profile: only "Add ..". *)
Definition loaded : world := snd (init idle (initial_world None)).

(** The predicates of the callers say yes from 900ms on. *)
Definition waking : Env :=
  {| user_predicate := fun _ now => Nat.leb 900 now;
     getControllerForCommand := fun _ => false;
     isCommandEnabled := fun _ _ => false |}.

(** [{ isEnabled: f }] for the function number [k] of a caller *)
Definition with_predicate (k : nat) : options :=
  {| o_id := None; o_label := None; o_tooltip := None; o_classList := None;
     o_command := None; o_icon := None; o_image := None; o_ordinal := None;
     o_menuitems := None; o_menuitemsInitialize := None; o_group := None;
     o_groupOrdinal := None; o_isEnabled := Some (UserPredicate k);
     o_events := None |}.

(** "Foo" is registered with a predicate in a new profile, and 300ms pass:
    the first refresh is over. *)
Definition settled : world :=
  elapse waking 300
    (snd (register waking (Label "Foo") (Some (with_predicate 0))
            (snd (init waking (initial_world None))))).

End ButtonExamples.

(** ** More samples and observations *)
Module MoreObserve.
Import Open Observe.

(** A computation that adds quiet events only and leaves the flag alone. *)
Definition quietly {A} (c : M A) : Prop :=
  forall w, exists evs,
    trace (snd (c w)) = (trace w ++ evs)%list
    /\ forallb quiet_event evs = true
    /\ skipNextPrompt (snd (c w)) = skipNextPrompt w.

(** Whatever a computation returns satisfies [Q]. *)
Definition yields {A} (c : M A) (Q : A -> Prop) : Prop :=
  forall w a w', c w = (Val a, w') -> Q a.

(** The view type of a request. *)
Definition request_viewType (ev : event) : option (option string) :=
  match ev with
  | EvFileOpenAsync _ vt _ => Some vt
  | EvFileOpenAtLineAsync _ _ vt _ => Some vt
  | _ => None
  end.

(** [env] with another user at the three-button dialog. *)
Definition answering (answer : option string) (env : Env) : Env :=
  {| PLATFORM := PLATFORM env;
     toLowerCase := toLowerCase env;
     pathToURI := pathToURI env;
     URIToPath := URIToPath env;
     baseName := baseName env;
     ext := ext env;
     GetStringFromName := GetStringFromName env;
     formatStringFromName := formatStringFromName env;
     projects_open := projects_open env;
     installPackageByUrl := installPackageByUrl env;
     importPackage := importPackage env;
     dbexplorer_viewManager := dbexplorer_viewManager env;
     addSqliteDatabaseFromURI := addSqliteDatabaseFromURI env;
     importSublimeSnippet_dragDrop := importSublimeSnippet_dragDrop env;
     importFilesFromFileSystem_dragDrop := importFilesFromFileSystem_dragDrop env;
     dialogs_alert := dialogs_alert env;
     customButtons := fun _ _ _ => Ok answer;
     dialogs_prompt := dialogs_prompt env;
     yesNoCancel := yesNoCancel env;
     getSchemeService := getSchemeService env;
     getSchemeNames := getSchemeNames env;
     schemeNameIsValid := schemeNameIsValid env;
     loadSchemeFromURI := loadSchemeFromURI env;
     activateScheme := activateScheme env;
     notifyHowtoRestoreOldScheme := notifyHowtoRestoreOldScheme env;
     doFileOpenAsync := doFileOpenAsync env;
     doFileOpenAtLineAsync := doFileOpenAtLineAsync env;
     getViewsByType := getViewsByType env;
     file_exists := file_exists env;
     places := places env;
     single_project_view := single_project_view env;
     viewStateMRU := viewStateMRU env |}.

(** [env] with a scheme service that cannot load the file. *)
Definition unloadable (env : Env) : Env :=
  {| PLATFORM := PLATFORM env;
     toLowerCase := toLowerCase env;
     pathToURI := pathToURI env;
     URIToPath := URIToPath env;
     baseName := baseName env;
     ext := ext env;
     GetStringFromName := GetStringFromName env;
     formatStringFromName := formatStringFromName env;
     projects_open := projects_open env;
     installPackageByUrl := installPackageByUrl env;
     importPackage := importPackage env;
     dbexplorer_viewManager := dbexplorer_viewManager env;
     addSqliteDatabaseFromURI := addSqliteDatabaseFromURI env;
     importSublimeSnippet_dragDrop := importSublimeSnippet_dragDrop env;
     importFilesFromFileSystem_dragDrop := importFilesFromFileSystem_dragDrop env;
     dialogs_alert := dialogs_alert env;
     customButtons := customButtons env;
     dialogs_prompt := dialogs_prompt env;
     yesNoCancel := yesNoCancel env;
     getSchemeService := getSchemeService env;
     getSchemeNames := getSchemeNames env;
     schemeNameIsValid := schemeNameIsValid env;
     loadSchemeFromURI := fun _ _ => Throw (JsError "not a scheme");
     activateScheme := activateScheme env;
     notifyHowtoRestoreOldScheme := notifyHowtoRestoreOldScheme env;
     doFileOpenAsync := doFileOpenAsync env;
     doFileOpenAtLineAsync := doFileOpenAtLineAsync env;
     getViewsByType := getViewsByType env;
     file_exists := file_exists env;
     places := places env;
     single_project_view := single_project_view env;
     viewStateMRU := viewStateMRU env |}.

End MoreObserve.

(** * Properties *)

(** ** Strings *)
Section StringFacts.
Import JsString.

Lemma chars_app (a b : string) : chars (a +:+ b) = (chars a ++ chars b)%list.
Proof. induction a as [|c a IH]; simpl; [reflexivity|]. unfold chars in *. simpl. now rewrite IH. Qed.

Lemma text_chars (s : string) : text (chars s) = s.
Proof. apply string_of_list_ascii_of_string. Qed.

Lemma chars_text (l : list ascii) : chars (text l) = l.
Proof. apply list_ascii_of_string_of_list_ascii. Qed.

Lemma chars_length (s : string) : length (chars s) = String.length s.
Proof. induction s as [|c s IH]; simpl; [reflexivity|]. unfold chars in *. simpl. now rewrite IH. Qed.

Lemma to_lower_idem (c : ascii) : to_lower (to_lower c) = to_lower c.
Proof. destruct c as [[] [] [] [] [] [] [] []]; reflexivity. Qed.

Lemma starts_with_ci_agree (p q l : list ascii) :
  starts_with_ci p l = true -> starts_with_ci q l = true -> agree p q = true.
Proof.
  revert q l. induction p as [|a p IH]; intros [|b q] [|c l]; simpl; try easy.
  intros [Ha Hp]%andb_prop [Hb Hq]%andb_prop.
  apply Ascii.eqb_eq in Ha, Hb. rewrite Ha, Hb, Ascii.eqb_refl. simpl.
  eapply IH; eassumption.
Qed.

(** A string cannot end in two suffixes that disagree. *)
Lemma ends_with_ci_exclusive (p q s : string) :
  agree (rev (chars p)) (rev (chars q)) = false ->
  ends_with_ci p s = true -> ends_with_ci q s = false.
Proof.
  unfold ends_with_ci. intros Hd Hp.
  destruct (starts_with_ci (rev (chars q)) (rev (chars s))) eqn:Hq; [|reflexivity].
  now rewrite (starts_with_ci_agree _ _ _ Hp Hq) in Hd.
Qed.

Lemma lastIndexOf_char_bounds (c : ascii) (l : list ascii) :
  (-1 <= lastIndexOf_char c l < Z.of_nat (length l))%Z.
Proof.
  induction l as [|a l IH]; simpl length; simpl lastIndexOf_char; [lia|].
  destruct (Z.leb_spec 0 (lastIndexOf_char c l)); [lia|].
  destruct (Ascii.eqb a c); lia.
Qed.

(** After the last occurrence of [c] comes a tail without [c]. *)
Lemma lastIndexOf_char_app (c : ascii) (p e : list ascii) :
  lastIndexOf_char c e = (-1)%Z ->
  lastIndexOf_char c (p ++ c :: e) = Z.of_nat (length p).
Proof.
  intros He. induction p as [|a p IH]; simpl.
  - rewrite He. simpl. now rewrite Ascii.eqb_refl.
  - rewrite IH. destruct (Z.leb_spec 0 (Z.of_nat (length p))); lia.
Qed.

Lemma starts_with_ci_split (q l : list ascii) :
  starts_with_ci q l = true ->
  exists l1 l2, l = (l1 ++ l2)%list /\ map to_lower l1 = map to_lower q.
Proof.
  revert l. induction q as [|a q IH]; intros l H.
  - exists [], l. split; reflexivity.
  - destruct l as [|b l]; simpl in H; [discriminate|].
    apply andb_prop in H as [Hab Hq]. apply Ascii.eqb_eq in Hab.
    destruct (IH _ Hq) as (l1 & l2 & -> & Hm).
    exists (b :: l1), l2. split; [reflexivity|]. simpl. now rewrite Hab, Hm.
Qed.

Lemma to_lower_dot (c : ascii) : to_lower c = "."%char -> c = "."%char.
Proof. destruct c as [[] [] [] [] [] [] [] []]; simpl; intros H; try discriminate H; reflexivity. Qed.

Lemma lastIndexOf_char_absent (e : list ascii) :
  existsb (fun c => Ascii.eqb "." (to_lower c)) e = false ->
  lastIndexOf_char "." e = (-1)%Z.
Proof.
  induction e as [|a e IH]; simpl; [reflexivity|].
  intros [Ha He]%orb_false_elim. rewrite (IH He). simpl.
  destruct (Ascii.eqb_spec a ".") as [->|]; [discriminate Ha | reflexivity].
Qed.

Lemma existsb_lower_map (l1 l2 : list ascii) :
  map to_lower l1 = map to_lower l2 ->
  existsb (fun c => Ascii.eqb "." (to_lower c)) l1
  = existsb (fun c => Ascii.eqb "." (to_lower c)) l2.
Proof.
  revert l2. induction l1 as [|a l1 IH]; intros [|b l2] H; simpl in *; try easy.
  injection H as Hab Hl. now rewrite Hab, (IH _ Hl).
Qed.

(** A string that ends, case aside, in a dot and the letters [e] is some
    prefix, a dot, and as many dot-free characters. *)
Lemma ends_with_ci_dot (e : list ascii) (s : string) :
  existsb (fun c => Ascii.eqb "." (to_lower c)) e = false ->
  ends_with_ci (text ("."%char :: e)) s = true ->
  exists s0 e', chars s = (s0 ++ "."%char :: e')%list
                /\ length e' = length e
                /\ lastIndexOf_char "." e' = (-1)%Z.
Proof.
  intros He H. unfold ends_with_ci in H. rewrite chars_text in H. simpl rev in H.
  apply starts_with_ci_split in H as (l1 & l2 & Hs & Hm).
  induction l1 as [|d m _] using rev_ind.
  { apply (f_equal (@length _)) in Hm. rewrite !length_map, length_app in Hm.
    simpl in Hm. lia. }
  rewrite !map_app in Hm. simpl in Hm. apply app_inj_tail in Hm as [Hm Hd].
  apply to_lower_dot in Hd. subst d.
  exists (rev l2), (rev m). split; [|split].
  - rewrite <- (rev_involutive (chars s)), Hs, !rev_app_distr. simpl.
    reflexivity.
  - rewrite length_rev. apply (f_equal (@length _)) in Hm.
    now rewrite !length_map, length_rev in Hm.
  - apply lastIndexOf_char_absent.
    etransitivity; [|exact He].
    rewrite <- (rev_involutive e). apply existsb_lower_map.
    now rewrite !map_rev, Hm, map_rev.
Qed.

End StringFacts.

(** ** The line-number pattern *)
Section LineNumberPattern.
Import JsString Open.

(** No separator starts with a digit. *)
Lemma match_separator_digits_digit (c : ascii) (r : list ascii) :
  is_digit c = true -> match_separator_digits separators (c :: r) = None.
Proof.
  destruct c as [[] [] [] [] [] [] [] []]; intros H; try discriminate H; reflexivity.
Qed.

Lemma match_separator_digits_nil : match_separator_digits separators [] = None.
Proof. reflexivity. Qed.

(** What is left of a run of digits is empty or starts with a digit. *)
Lemma drop_digits (d : list ascii) (m : nat) :
  forallb is_digit d = true ->
  match_separator_digits separators (drop m d) = None.
Proof.
  revert m. induction d as [|c d IH]; intros m H.
  - destruct m; reflexivity.
  - simpl in H. apply andb_prop in H as [Hc Hd].
    destruct m; simpl; [now apply match_separator_digits_digit | now apply IH].
Qed.

Lemma match_at_separator (sep : string) (d : list ascii) :
  In (chars sep) separators -> digits_to_end d = true ->
  match_separator_digits separators (chars sep ++ d) = Some d.
Proof.
  intros [<-|[<-|[<-|[<-|[]]]]] Hd; simpl; rewrite ?drop_0; unfold drop;
    now rewrite Hd.
Qed.

(** Past the separator's first character nothing matches. *)
Lemma no_match_inside (sep : string) (d : list ascii) (m : nat) :
  In (chars sep) separators -> forallb is_digit d = true ->
  match_separator_digits separators (drop (S m) (chars sep ++ d)) = None.
Proof.
  intros [<-|[<-|[<-|[<-|[]]]]] Hd; simpl.
  - now apply drop_digits.
  - now apply drop_digits.
  - destruct m as [|[|m]]; simpl; [reflexivity | reflexivity | now apply drop_digits].
  - destruct m as [|[|m]]; simpl; [reflexivity | reflexivity | now apply drop_digits].
Qed.

Lemma exec_from_unfold (k : nat) (l : list ascii) :
  exec_from k l =
  match (if single_line (take k l)
         then match_separator_digits separators (drop k l) else None) with
  | Some d => Some (take k l, d)
  | None => match k with O => None | S k' => exec_from k' l end
  end.
Proof. destruct k; reflexivity. Qed.

(** The greedy group settles on the prefix before the separator. *)
Lemma exec_from_suffix (p d : list ascii) (sep : string) (k : nat) :
  In (chars sep) separators -> single_line p = true -> digits_to_end d = true ->
  (length p <= k)%nat ->
  exec_from k (p ++ chars sep ++ d) = Some (p, d).
Proof.
  intros Hsep Hp Hd Hk.
  assert (Hall : forallb is_digit d = true)
    by (unfold digits_to_end in Hd; now apply andb_prop in Hd as [_ ?]).
  assert (Hhere : exec_from (length p) (p ++ chars sep ++ d) = Some (p, d)).
  { rewrite exec_from_unfold, take_app_length, drop_app_length, Hp.
    now rewrite (match_at_separator _ _ Hsep Hd). }
  induction k as [|k IH].
  - now replace 0%nat with (length p) by lia.
  - destruct (Nat.eq_dec (length p) (S k)) as [E|NE]; [now rewrite <- E|].
    rewrite exec_from_unfold.
    replace (drop (S k) (p ++ chars sep ++ d))
      with (drop (S (k - length p)) (chars sep ++ d)).
    + rewrite (no_match_inside _ _ _ Hsep Hall).
      destruct (single_line (take _ _)); apply IH; lia.
    + rewrite (drop_app_ge p) by lia. f_equal. lia.
Qed.

(** [fileLineNoRE] on a URI that ends in a separator and digits. *)
Lemma fileLineNoRE_suffix (path sep digits : string) :
  In (chars sep) separators ->
  single_line (chars path) = true ->
  digits_to_end (chars digits) = true ->
  fileLineNoRE (path +:+ sep +:+ digits) = Some (path, digits).
Proof.
  intros Hsep Hp Hd. unfold fileLineNoRE.
  rewrite !chars_app, (exec_from_suffix _ _ _ _ Hsep Hp Hd).
  - now rewrite !text_chars.
  - rewrite !length_app. lia.
Qed.

End LineNumberPattern.

(** ** Which events the parts of the dispatcher add *)
Section DispatcherEvents.
Import JsString Open Observe.

Lemma emits_mono {A} (P Q : event -> bool) (c : M A) :
  (forall ev, P ev = true -> Q ev = true) -> emits P c -> emits Q c.
Proof.
  intros HPQ Hc w. destruct (Hc w) as (evs & Ht & HP). exists evs. split; [exact Ht|].
  rewrite forallb_forall in *. auto.
Qed.

Lemma emits_ret {A} P (a : A) : emits P (ret a).
Proof. intros w. exists []. simpl. now rewrite app_nil_r. Qed.

Lemma emits_diverge {A} P : emits P (@diverge A).
Proof. intros w. exists []. simpl. now rewrite app_nil_r. Qed.

Lemma emits_get P : emits P get_skipNextPrompt.
Proof. intros w. exists []. simpl. now rewrite app_nil_r. Qed.

Lemma emits_set P b : emits P (set_skipNextPrompt b).
Proof. intros w. exists []. simpl. now rewrite app_nil_r. Qed.

Lemma emits_emit (P : event -> bool) ev : P ev = true -> emits P (emit ev).
Proof. intros H w. exists [ev]. simpl. now rewrite H. Qed.

Lemma emits_call {A} (P : event -> bool) ev (r : result A) :
  P ev = true -> emits P (call ev r).
Proof. intros H w. exists [ev]. simpl. now rewrite H. Qed.

Lemma emits_bind {A B} P (c : M A) (k : A -> M B) :
  emits P c -> (forall a, emits P (k a)) -> emits P (bind c k).
Proof.
  intros Hc Hk w. unfold bind. destruct (Hc w) as (evs & Ht & HP).
  destruct (c w) as [[a|e|] w1]; simpl in Ht; [|now exists evs..].
  destruct (Hk a w1) as (evs' & Ht' & HP'). exists (evs ++ evs')%list.
  now rewrite Ht', Ht, app_assoc, forallb_app, HP, HP'.
Qed.

Lemma emits_try_catch {A} P (c : M A) (h : exn -> M A) :
  emits P c -> (forall e, emits P (h e)) -> emits P (try_catch c h).
Proof.
  intros Hc Hh w. unfold try_catch. destruct (Hc w) as (evs & Ht & HP).
  destruct (c w) as [[a|e|] w1]; simpl in Ht; [now exists evs| |now exists evs].
  destruct (Hh e w1) as (evs' & Ht' & HP'). exists (evs ++ evs')%list.
  now rewrite Ht', Ht, app_assoc, forallb_app, HP, HP'.
Qed.

Ltac emits_auto :=
  repeat first
    [ apply emits_ret | apply emits_diverge | apply emits_get | apply emits_set
    | apply emits_emit; reflexivity | apply emits_call; reflexivity
    | apply emits_bind; [|intros ?] | apply emits_try_catch; [|intros ?]
    | match goal with
      | |- emits _ (if ?b then _ else _) => destruct b
      | |- emits _ (match ?x with _ => _ end) => destruct x
      end ].

Lemma loadSqliteDatabase_quiet env uri : emits quiet_event (loadSqliteDatabase env uri).
Proof. unfold loadSqliteDatabase. emits_auto. Qed.

Lemma _checkKSFBaseName_loop_quiet fuel env names ext name :
  emits quiet_event (_checkKSFBaseName_loop fuel env names ext name).
Proof.
  revert name. induction fuel as [|fuel IH]; intros name; simpl; emits_auto.
  all: apply IH.
Qed.

Lemma prompts_quiet fuel env uri viewType buttons responses :
  emits quiet_event (prompts fuel env uri viewType buttons responses).
Proof.
  unfold prompts, prompt_scheme, prompt_snippet, prompt_tool, _checkKSFBaseName.
  emits_auto. all: apply _checkKSFBaseName_loop_quiet.
Qed.

Lemma open_document_shape fuel env uri lineno viewType callback w :
  document_shape env uri lineno callback w
    (open_document fuel env uri lineno viewType callback w).
Proof.
  unfold open_document, bind, get_skipNextPrompt.
  set (buttons := [_; _; _]). set (responses := removeAmpersands buttons).
  assert (Hopen : forall vt w1 evs,
             trace w1 = (trace w ++ evs)%list -> forallb quiet_event evs = true ->
             document_shape env uri lineno callback w
               (open_file env uri lineno vt callback
                  (snd (set_skipNextPrompt false w1)))).
  { intros vt w1 evs Ht Hq.
    exists (evs ++ [open_request uri lineno vt callback])%list. split.
    - simpl. now rewrite Ht, app_assoc.
    - right. exists evs, vt. split; [reflexivity|split; [assumption|]].
      unfold open_file, call. simpl. now destruct (open_answer _ _ _ _ _). }
  destruct (skipNextPrompt w); simpl.
  - apply (Hopen viewType w []); [now rewrite app_nil_r | reflexivity].
  - destruct (prompts_quiet fuel env uri viewType buttons responses w)
      as (evs & Ht & Hq).
    destruct (prompts fuel env uri viewType buttons responses w)
      as [[[|vt]|e|] w1]; simpl in Ht.
    + exists evs. simpl. split; [exact Ht | now left].
    + simpl. now apply (Hopen vt w1 evs).
    + exists evs. simpl. split; [exact Ht | now left].
    + exists evs. simpl. split; [exact Ht | now left].
Qed.

Lemma dispatch_shape fuel env uri lineno viewType skip callback w :
  document_shape env uri lineno callback w
    (dispatch fuel env uri lineno viewType skip callback w).
Proof.
  assert (Hquiet : forall c : M unit, emits quiet_event c ->
                     document_shape env uri lineno callback w (c w)).
  { intros c Hc. destruct (Hc w) as (evs & Ht & Hq). exists evs. now split; [|left]. }
  unfold dispatch.
  destruct (is_project_uri uri); [apply Hquiet; now apply emits_call|].
  destruct (ends_with_ci ".xpi" uri).
  { apply Hquiet. apply emits_try_catch; [now apply emits_call|].
    intros e. now apply emits_call. }
  destruct (ends_with_ci ".kpz" uri); [apply Hquiet; now apply emits_call|].
  unfold bind.
  destruct (loadSqliteDatabase_quiet env uri w) as (evs & Ht & Hq).
  destruct (loadSqliteDatabase env uri w) as [[[|]|e|] w1]; simpl in Ht;
    try (exists evs; simpl; split; [exact Ht | now left]).
  destruct (open_document_shape fuel env uri lineno viewType callback w1)
    as (evs' & Ht' & Hs).
  exists (evs ++ evs')%list. split; [now rewrite Ht', Ht, app_assoc|].
  destruct Hs as [Hq'|(evs0 & vt & -> & Hq0 & Hr)].
  - left. now rewrite forallb_app, Hq, Hq'.
  - right. exists (evs ++ evs0)%list, vt.
    now rewrite app_assoc, forallb_app, Hq, Hq0.
Qed.

End DispatcherEvents.

(** ** Classification *)
Section Classification.
Import JsString Open Observe.

(** A URI that ends in a dot and an extension that is none of [db],
    [sqlite], [sqlite3] (told apart by length here) is no database. *)
Lemma loadSqliteDatabase_other_extension env (e : list ascii) (s : string) w :
  existsb (fun c => Ascii.eqb "." (to_lower c)) e = false ->
  existsb (Nat.eqb (length e)) [0; 2; 6; 7]%nat = false ->
  ends_with_ci (text ("."%char :: e)) s = true ->
  loadSqliteDatabase env s w = (Val false, w).
Proof.
  intros Hdot Hlen Hs. unfold loadSqliteDatabase.
  destruct (dbexplorer_viewManager env); [simpl|reflexivity].
  destruct (ends_with_ci_dot e s Hdot Hs) as (s0 & e' & Hc & Hl & Hlast).
  unfold lastIndexOf. rewrite Hc, (lastIndexOf_char_app _ _ _ Hlast).
  assert (Hsl : str_length s = (Z.of_nat (length s0) + 1 + Z.of_nat (length e))%Z).
  { unfold str_length. rewrite <- chars_length, Hc, length_app. simpl. lia. }
  simpl in Hlen. repeat (apply orb_false_elim in Hlen as [? Hlen]).
  repeat match goal with H : Nat.eqb _ _ = false |- _ => apply Nat.eqb_neq in H end.
  destruct (Z.eqb_spec (Z.of_nat (length s0)) (-1)); [lia|].
  destruct (Z.eqb_spec (Z.of_nat (length s0)) (str_length s - 1)); [lia|]. simpl.
  assert (Hext : substr s (Z.of_nat (length s0) + 1) = text e').
  { unfold substr. rewrite Hc. f_equal.
    replace (s0 ++ "."%char :: e')%list with ((s0 ++ ["."%char]) ++ e')%list
      by now rewrite <- app_assoc.
    apply drop_app_length'. rewrite length_app. simpl. lia. }
  rewrite Hext.
  assert (Hne : forall x, existsb (Nat.eqb (String.length x)) [0; 2; 6; 7]%nat = true ->
                          String.eqb (text e') x = false).
  { intros x Hx. apply String.eqb_neq. intros E.
    apply (f_equal String.length) in E. rewrite <- chars_length, chars_text, Hl in E.
    rewrite <- E in Hx. simpl in Hx.
    repeat (apply orb_prop in Hx as [Hx|Hx]; [apply Nat.eqb_eq in Hx; lia|]).
    discriminate. }
  simpl. now rewrite !Hne.
Qed.

Lemma ends_with_ci_disagree (e : list ascii) (q s : string) :
  JsString.agree (rev ("."%char :: e)) (rev (chars q)) = false ->
  ends_with_ci (text ("."%char :: e)) s = true -> ends_with_ci q s = false.
Proof.
  intros Hd. apply ends_with_ci_exclusive. now rewrite chars_text.
Qed.

Lemma dispatch_document fuel env (e : list ascii) uri lineno viewType skip callback w :
  document_extension e = true ->
  ends_with_ci (text ("."%char :: e)) uri = true ->
  dispatch fuel env uri lineno viewType skip callback w
  = open_document fuel env uri lineno viewType callback w.
Proof.
  unfold document_extension. intros [[Hdot Hlen]%andb_prop Hq]%andb_prop Hs.
  apply negb_true_iff in Hdot, Hlen. simpl in Hq.
  repeat (apply andb_prop in Hq as [?%negb_true_iff Hq]).
  unfold dispatch, is_project_uri.
  rewrite !(ends_with_ci_disagree e _ uri) by assumption. simpl.
  unfold bind. now rewrite (loadSqliteDatabase_other_extension env e uri w).
Qed.

Lemma prompts_unprompted fuel env (e : list ascii) uri viewType buttons responses w :
  unprompted_extension e = true ->
  ends_with_ci (text ("."%char :: e)) uri = true ->
  prompts fuel env uri viewType buttons responses w
  = (Val (Continue (if negb (truthy viewType) && (isImageUrl uri || isAudioUrl uri)
                    then Some "browser" else viewType)), w).
Proof.
  unfold unprompted_extension. intros Hq Hs. simpl in Hq.
  repeat (apply andb_prop in Hq as [?%negb_true_iff Hq]).
  unfold prompts, is_tool_uri.
  rewrite !(ends_with_ci_disagree e _ uri) by assumption. simpl.
  now destruct (negb (truthy viewType) && (isImageUrl uri || isAudioUrl uri)).
Qed.

(** A preview URL ends in one of seven extensions. *)
Lemma preview_extension uri :
  isImageUrl uri || isAudioUrl uri = true ->
  exists e, In e (map chars ["png"; "gif"; "jpg"; "jpeg"; "bmp"; "ico"; "mp3"])
            /\ ends_with_ci (text ("."%char :: e)) uri = true.
Proof.
  unfold isImageUrl, isAudioUrl. simpl. rewrite !orb_false_r. intros H.
  repeat (apply orb_prop in H as [H|H]);
    match type of H with
    | ends_with_ci (String _ ?x) _ = true => exists (chars x)
    end; (split; [simpl; tauto | exact H]).
Qed.

End Classification.

(** ** The dispatch boundary *)
Section DispatchBoundary.
Import JsString Open Observe.

Lemma URIAtLine_try_converted fuel env uri lineno viewType skip callback w u :
  pathToURI env uri = Ok u ->
  URIAtLine_try fuel env uri lineno viewType skip callback w
  = dispatch fuel env (fst (attached_lineno u lineno)) (snd (attached_lineno u lineno))
      viewType skip callback (log_event (EvPathToURI uri) w).
Proof.
  intros H. unfold URIAtLine_try, bind, call. rewrite H.
  now destruct (attached_lineno u lineno).
Qed.

(** The [catch] and the final [return null] around the [try] block. *)
Lemma URIAtLine_catch fuel env uri lineno viewType skip callback w :
  URIAtLine fuel env uri lineno viewType skip callback w
  = match URIAtLine_try fuel env uri lineno viewType skip callback w with
    | (Val _, w1) => (Val None, w1)
    | (Exc e, w1) => (Val None, log_event (EvLogException e) w1)
    | (Diverge, w1) => (Diverge, w1)
    end.
Proof.
  unfold URIAtLine, bind, try_catch.
  now destruct (URIAtLine_try _ _ _ _ _ _ _ w) as [[[]|e|] w1].
Qed.

Lemma quiet_not_accepted env ev : quiet_event ev = true -> accepted env ev = false.
Proof. now destruct ev. Qed.

Lemma quiet_not_callback ev : quiet_event ev = true -> is_callback ev = false.
Proof. now destruct ev. Qed.

Lemma forallb_impl {A} (P Q : A -> bool) (l : list A) :
  (forall x, P x = true -> Q x = true) -> forallb P l = true -> forallb Q l = true.
Proof. rewrite !forallb_forall. auto. Qed.

(** The events of one call: the path conversion first, then quiet events
    and at most requests to the view manager. *)
Lemma URIAtLine_events fuel env uri lineno viewType skip callback w :
  exists evs,
    trace (snd (URIAtLine fuel env uri lineno viewType skip callback w))
    = (trace w ++ EvPathToURI uri :: evs)%list
    /\ forallb (fun ev => quiet_event ev || is_open_request ev) evs = true.
Proof.
  rewrite URIAtLine_catch.
  destruct (pathToURI env uri) as [u|e0] eqn:Hu.
  - rewrite (URIAtLine_try_converted _ _ _ _ _ _ _ _ _ Hu).
    set (w0 := log_event (EvPathToURI uri) w).
    destruct (dispatch_shape fuel env (fst (attached_lineno u lineno))
                (snd (attached_lineno u lineno)) viewType skip callback w0)
      as (evs & Ht & Hs).
    assert (Hev : forallb (fun ev => quiet_event ev || is_open_request ev) evs = true).
    { destruct Hs as [Hq|(evs0 & vt & -> & Hq & _)].
      - eapply forallb_impl; [|exact Hq]. now intros ev ->.
      - rewrite forallb_app. apply andb_true_intro. split.
        + eapply forallb_impl; [|exact Hq]. now intros ev ->.
        + unfold open_request. simpl.
          now destruct (snd (attached_lineno u lineno)) as [l|];
            [destruct (lineno_truthy (Some l))|]. }
    destruct (dispatch _ _ _ _ _ _ _ w0) as [[[]|e|] w1]; simpl in Ht |- *.
    + exists evs. split; [|exact Hev]. rewrite Ht. simpl. now rewrite <- app_assoc.
    + exists (evs ++ [EvLogException e])%list. split.
      * rewrite Ht. simpl. now rewrite <- !app_assoc.
      * now rewrite forallb_app, Hev.
    + exists evs. split; [|exact Hev]. rewrite Ht. simpl. now rewrite <- app_assoc.
  - unfold URIAtLine_try, bind, call. rewrite Hu. simpl.
    exists [EvLogException e0]. split; [now rewrite <- app_assoc | reflexivity].
Qed.

(** When the [try] block throws, the view manager took no request. *)
Lemma URIAtLine_try_throws fuel env uri lineno viewType skip callback w e w1 :
  URIAtLine_try fuel env uri lineno viewType skip callback w = (Exc e, w1) ->
  exists evs,
    trace w1 = (trace w ++ evs)%list
    /\ forallb (fun ev => negb (accepted env ev)) evs = true
    /\ forallb (fun ev => negb (is_callback ev)) evs = true.
Proof.
  intros H. destruct (pathToURI env uri) as [u|e0] eqn:Hu.
  - rewrite (URIAtLine_try_converted _ _ _ _ _ _ _ _ _ Hu) in H.
    set (w0 := log_event (EvPathToURI uri) w) in H.
    destruct (dispatch_shape fuel env (fst (attached_lineno u lineno))
                (snd (attached_lineno u lineno)) viewType skip callback w0)
      as (evs & Ht & Hs).
    rewrite H in Ht, Hs. simpl in Ht, Hs.
    exists (EvPathToURI uri :: evs). split; [rewrite Ht; simpl; now rewrite <- app_assoc|].
    simpl. destruct Hs as [Hq|(evs0 & vt & -> & Hq & Ho)].
    + split; (eapply forallb_impl; [|exact Hq]); intros ev Hev.
      * now rewrite (quiet_not_accepted env ev Hev).
      * now rewrite (quiet_not_callback ev Hev).
    + rewrite !forallb_app. split; apply andb_true_intro; split.
      * eapply forallb_impl; [|exact Hq]. intros ev Hev.
        now rewrite (quiet_not_accepted env ev Hev).
      * unfold open_request, open_answer in *. simpl.
        destruct (snd (attached_lineno u lineno)) as [l|];
          [destruct (lineno_truthy (Some l))|]; simpl;
          match type of Ho with
          | _ = outcome_of ?r => destruct r; [discriminate Ho | reflexivity]
          end.
      * eapply forallb_impl; [|exact Hq]. intros ev Hev.
        now rewrite (quiet_not_callback ev Hev).
      * unfold open_request. simpl.
        now destruct (snd (attached_lineno u lineno)) as [l|];
          [destruct (lineno_truthy (Some l))|].
  - unfold URIAtLine_try, bind, call in H. rewrite Hu in H. injection H as _ <-.
    exists [EvPathToURI uri]. now split.
Qed.

(** C3, as amended. An exception thrown while the URI is classified or
    opened never leaves [URIAtLine]: it is logged with [log.exception] and
    the function returns [null]; the view manager accepted no open request
    before it, and the dispatcher does not call the callback, with [null]
    or with anything else. *)
Theorem URIAtLine_swallows_exceptions fuel env uri lineno viewType skip callback w :
  (forall e, fst (URIAtLine fuel env uri lineno viewType skip callback w) <> Exc e)
  /\ (forall e w1,
        URIAtLine_try fuel env uri lineno viewType skip callback w = (Exc e, w1) ->
        URIAtLine fuel env uri lineno viewType skip callback w
        = (Val None, log_event (EvLogException e) w1)
        /\ exists evs,
             trace w1 = (trace w ++ evs)%list
             /\ forallb (fun ev => negb (accepted env ev)) evs = true
             /\ forallb (fun ev => negb (is_callback ev)) evs = true).
Proof.
  split.
  - intros e. rewrite URIAtLine_catch.
    now destruct (URIAtLine_try _ _ _ _ _ _ _ w) as [[[]|e'|] w1].
  - intros e w1 H. split.
    + now rewrite URIAtLine_catch, H.
    + eapply URIAtLine_try_throws, H.
Qed.

Lemma URIAtLine_swallows_exceptions_witness :
  URIAtLine_try 0 Examples.broken_paths "a.txt" None None None (Some (UserCallback 0))
    Examples.fresh
  = (Exc (JsError "NS_ERROR_FAILURE"),
     {| skipNextPrompt := false; trace := [EvPathToURI "a.txt"] |})
  /\ URIAtLine 0 Examples.broken_paths "a.txt" None None None (Some (UserCallback 0))
       Examples.fresh
     = (Val None,
        {| skipNextPrompt := false;
           trace := [EvPathToURI "a.txt";
                     EvLogException (JsError "NS_ERROR_FAILURE")] |}).
Proof.
  split; [reflexivity|].
  exact (proj1 (proj2 (URIAtLine_swallows_exceptions 0 Examples.broken_paths "a.txt"
                         None None None (Some (UserCallback 0)) Examples.fresh)
                  (JsError "NS_ERROR_FAILURE")
                  {| skipNextPrompt := false; trace := [EvPathToURI "a.txt"] |}
                  eq_refl)).
Defined.

(** The claim of C3 as written fails: [pathToURI] throws, the exception is
    logged and swallowed, and the supplied callback receives nothing, no
    [null] either: it is neither called nor handed to the view manager. *)
Lemma URIAtLine_exception_leaves_callback_uncalled :
  let r := URIAtLine 0 Examples.broken_paths "a.txt" None None None
             (Some (UserCallback 0)) Examples.fresh in
  r = (Val None,
       {| skipNextPrompt := false;
          trace := [EvPathToURI "a.txt"; EvLogException (JsError "NS_ERROR_FAILURE")] |})
  /\ ~ In (EvCallback (UserCallback 0) None) (trace (snd r)).
Proof.
  split; [reflexivity|]. simpl. intros [H|[H|[]]]; discriminate H.
Qed.

(** The requests of one call, for a path that [pathToURI] converts. *)
Lemma URIAtLine_requests fuel env uri lineno viewType skip callback w u :
  pathToURI env uri = Ok u ->
  exists evs,
    trace (snd (URIAtLine fuel env uri lineno viewType skip callback w))
    = (trace w ++ evs)%list
    /\ forall ev, In ev evs -> is_open_request ev = true ->
         exists viewType',
           ev = open_request (fst (attached_lineno u lineno))
                  (snd (attached_lineno u lineno)) viewType' callback.
Proof.
  intros Hu. rewrite URIAtLine_catch, (URIAtLine_try_converted _ _ _ _ _ _ _ _ _ Hu).
  set (w0 := log_event (EvPathToURI uri) w).
  destruct (dispatch_shape fuel env (fst (attached_lineno u lineno))
              (snd (attached_lineno u lineno)) viewType skip callback w0)
    as (evs & Ht & Hs).
  assert (Hq : forall ev l, forallb quiet_event l = true -> In ev l ->
                            is_open_request ev = true -> False).
  { intros ev l Hl Hev Hopen. rewrite forallb_forall in Hl. specialize (Hl _ Hev).
    destruct ev; discriminate. }
  assert (Hev : forall ev, In ev evs -> is_open_request ev = true ->
            exists viewType',
              ev = open_request (fst (attached_lineno u lineno))
                     (snd (attached_lineno u lineno)) viewType' callback).
  { intros ev Hin Hopen.
    destruct Hs as [Hquiet|(evs0 & vt & -> & Hquiet & _)]; [now destruct (Hq ev evs)|].
    apply in_app_iff in Hin as [Hin|[<-|[]]]; [now destruct (Hq ev evs0)|].
    now exists vt. }
  destruct (dispatch _ _ _ _ _ _ _ w0) as [[[]|e|] w1]; simpl in Ht |- *.
  - exists (EvPathToURI uri :: evs). split; [rewrite Ht; now rewrite <- app_assoc|].
    intros ev [<-|Hin] Hopen; [discriminate Hopen | now apply Hev].
  - exists (EvPathToURI uri :: evs ++ [EvLogException e])%list. split.
    + rewrite Ht. now rewrite <- !app_assoc.
    + intros ev [<-|Hin] Hopen; [discriminate Hopen|].
      apply in_app_iff in Hin as [Hin|[<-|[]]]; [now apply Hev | discriminate Hopen].
  - exists (EvPathToURI uri :: evs). split; [rewrite Ht; now rewrite <- app_assoc|].
    intros ev [<-|Hin] Hopen; [discriminate Hopen | now apply Hev].
Qed.

(** C5. The URI that [pathToURI] returns is [path], a separator [#],
    [%23] or [:] (or [%3A]), and a non-empty run of digits; [path] has no
    line terminator in it. Without an explicit line number the
    classification runs on [path] with the digits as the line number, and
    every request that the call sends to the view manager is an
    open-at-line request for [path] at these digits. With an explicit line
    number the suffix stays on the URI: the classification runs on the
    whole URI and the line number is the explicit one. *)
Theorem URIAtLine_attached_line_number
    fuel env uri viewType skip callback w (path sep digits : string) :
  pathToURI env uri = Ok (path +:+ sep +:+ digits) ->
  In sep ["#"; "%23"; ":"; "%3A"] ->
  single_line (chars path) = true ->
  digits_to_end (chars digits) = true ->
  (URIAtLine_try fuel env uri None viewType skip callback w
   = dispatch fuel env path (Some (LineStr digits)) viewType skip callback
       (log_event (EvPathToURI uri) w))
  /\ (exists evs,
        trace (snd (URIAtLine fuel env uri None viewType skip callback w))
        = (trace w ++ evs)%list
        /\ forall ev, In ev evs -> is_open_request ev = true ->
             exists viewType',
               ev = EvFileOpenAtLineAsync path (LineStr digits) viewType' callback)
  /\ (forall l,
        attached_lineno (path +:+ sep +:+ digits) (Some l)
        = (path +:+ sep +:+ digits, Some l)
        /\ URIAtLine_try fuel env uri (Some l) viewType skip callback w
           = dispatch fuel env (path +:+ sep +:+ digits) (Some l) viewType skip callback
               (log_event (EvPathToURI uri) w)).
Proof.
  intros Hu Hsep Hp Hd.
  assert (Hsep' : In (chars sep) separators)
    by (simpl in Hsep |- *; destruct Hsep as [<-|[<-|[<-|[<-|[]]]]]; simpl; tauto).
  assert (Hn : digits <> "").
  { intros ->. discriminate Hd. }
  assert (Ha : attached_lineno (path +:+ sep +:+ digits) None
               = (path, Some (LineStr digits))).
  { unfold attached_lineno. now rewrite (fileLineNoRE_suffix _ _ _ Hsep' Hp Hd). }
  split; [|split].
  - now rewrite (URIAtLine_try_converted _ _ _ _ _ _ _ _ _ Hu), Ha.
  - destruct (URIAtLine_requests fuel env uri None viewType skip callback w _ Hu)
      as (evs & Ht & Hev).
    exists evs. split; [exact Ht|]. intros ev Hin Hopen.
    destruct (Hev ev Hin Hopen) as (vt & ->). exists vt. rewrite Ha.
    unfold open_request, lineno_truthy. simpl.
    now destruct (String.eqb_spec digits "").
  - intros l. split; [reflexivity|].
    now rewrite (URIAtLine_try_converted _ _ _ _ _ _ _ _ _ Hu).
Qed.

Lemma URIAtLine_attached_line_number_witness :
  pathToURI Examples.calm "file.txt:42" = Ok ("file.txt" +:+ ":" +:+ "42")
  /\ URIAtLine_try 0 Examples.calm "file.txt:42" None None None None Examples.fresh
     = dispatch 0 Examples.calm "file.txt" (Some (LineStr "42")) None None None
         (log_event (EvPathToURI "file.txt:42") Examples.fresh).
Proof.
  split; [reflexivity|].
  apply (URIAtLine_attached_line_number 0 Examples.calm "file.txt:42" None None None
           Examples.fresh "file.txt" ":" "42");
    [reflexivity | simpl; tauto | reflexivity | reflexivity].
Defined.

(** The default branch once the prompting part has decided on [viewType']:
    the flag is reset, the request goes out, and a throw is logged. *)
Lemma URIAtLine_document fuel env uri lineno viewType viewType' skip callback w u :
  pathToURI env uri = Ok u ->
  dispatch fuel env (fst (attached_lineno u lineno)) (snd (attached_lineno u lineno))
    viewType skip callback (log_event (EvPathToURI uri) w)
  = open_file env (fst (attached_lineno u lineno)) (snd (attached_lineno u lineno))
      viewType' callback
      {| skipNextPrompt := false; trace := (trace w ++ [EvPathToURI uri])%list |} ->
  URIAtLine fuel env uri lineno viewType skip callback w
  = (Val None,
     {| skipNextPrompt := false;
        trace :=
          (trace w
           ++ [EvPathToURI uri;
               open_request (fst (attached_lineno u lineno))
                 (snd (attached_lineno u lineno)) viewType' callback]
           ++ logged (open_answer env (fst (attached_lineno u lineno))
                        (snd (attached_lineno u lineno)) viewType' callback))%list |}).
Proof.
  intros Hu Hd.
  rewrite URIAtLine_catch, (URIAtLine_try_converted _ _ _ _ _ _ _ _ _ Hu), Hd.
  unfold open_file, call, log_event. simpl.
  destruct (open_answer _ _ _ _ _) as [[]|e]; simpl;
    now rewrite <- ?app_assoc.
Qed.

(** C6. [skipNextPrompt] is set and the URI, once converted and without
    its line number, ends in [.ksf]: the call shows no prompt, asks the
    view manager to open the file with the view type it was given, and
    leaves [skipNextPrompt] false. *)
Theorem URIAtLine_skipNextPrompt_scheme
    fuel env uri lineno viewType skip callback w u :
  skipNextPrompt w = true ->
  pathToURI env uri = Ok u ->
  ends_with_ci ".ksf" (fst (attached_lineno u lineno)) = true ->
  let uri' := fst (attached_lineno u lineno) in
  let lineno' := snd (attached_lineno u lineno) in
  let evs :=
    ([EvPathToURI uri; open_request uri' lineno' viewType callback]
     ++ logged (open_answer env uri' lineno' viewType callback))%list in
  URIAtLine fuel env uri lineno viewType skip callback w
  = (Val None, {| skipNextPrompt := false; trace := (trace w ++ evs)%list |})
  /\ forallb (fun ev => negb (is_prompt ev)) evs = true
  /\ In (open_request uri' lineno' viewType callback) evs.
Proof.
  intros Hskip Hu Hksf uri' lineno' evs. split; [|split].
  - apply URIAtLine_document; [exact Hu|].
    rewrite (dispatch_document fuel env (chars "ksf")) by (reflexivity || exact Hksf).
    unfold open_document, bind, get_skipNextPrompt. simpl. now rewrite Hskip.
  - subst evs. unfold open_request, logged. simpl.
    destruct lineno' as [l|]; [destruct (lineno_truthy (Some l))|];
      now destruct (open_answer _ _ _ _ _).
  - subst evs. simpl. tauto.
Qed.

Lemma URIAtLine_skipNextPrompt_scheme_witness :
  skipNextPrompt Examples.skipping = true
  /\ URIAtLine 0 Examples.calm "Solarized.ksf" None None None None Examples.skipping
     = (Val None,
        {| skipNextPrompt := false;
           trace := [EvPathToURI "Solarized.ksf";
                     EvFileOpenAsync "Solarized.ksf" None None] |}).
Proof.
  split; [reflexivity|].
  exact (proj1 (URIAtLine_skipNextPrompt_scheme 0 Examples.calm "Solarized.ksf" None None
                  None None Examples.skipping "Solarized.ksf" eq_refl eq_refl eq_refl)).
Defined.

(** C9, as amended. [skipNextPrompt] is not set, no view type was given and
    the URI, once converted and without its line number, has an image or
    audio extension: the request to the view manager asks for the
    ["browser"] view type. *)
Theorem URIAtLine_preview fuel env uri lineno viewType skip callback w u :
  skipNextPrompt w = false ->
  truthy viewType = false ->
  pathToURI env uri = Ok u ->
  isImageUrl (fst (attached_lineno u lineno))
  || isAudioUrl (fst (attached_lineno u lineno)) = true ->
  let uri' := fst (attached_lineno u lineno) in
  let lineno' := snd (attached_lineno u lineno) in
  URIAtLine fuel env uri lineno viewType skip callback w
  = (Val None,
     {| skipNextPrompt := false;
        trace :=
          (trace w
           ++ [EvPathToURI uri; open_request uri' lineno' (Some "browser") callback]
           ++ logged (open_answer env uri' lineno' (Some "browser") callback))%list |}).
Proof.
  intros Hskip Hvt Hu Hpre uri' lineno'.
  destruct (preview_extension _ Hpre) as (e & He & Hends).
  apply URIAtLine_document; [exact Hu|].
  assert (Hdoc : document_extension e = true /\ unprompted_extension e = true).
  { simpl in He. now destruct He as [<-|[<-|[<-|[<-|[<-|[<-|[<-|[]]]]]]]]. }
  rewrite (dispatch_document fuel env e) by (apply Hdoc || exact Hends).
  unfold open_document, bind, get_skipNextPrompt. simpl. rewrite Hskip. simpl.
  rewrite (prompts_unprompted fuel env e) by (apply Hdoc || exact Hends).
  now rewrite Hvt, Hpre.
Qed.

Lemma URIAtLine_preview_witness :
  skipNextPrompt Examples.fresh = false
  /\ URIAtLine 0 Examples.calm "logo.PNG" None None None None Examples.fresh
     = (Val None,
        {| skipNextPrompt := false;
           trace := [EvPathToURI "logo.PNG";
                     EvFileOpenAsync "logo.PNG" (Some "browser") None] |}).
Proof.
  split; [reflexivity|].
  exact (URIAtLine_preview 0 Examples.calm "logo.PNG" None None None None Examples.fresh
           "logo.PNG" eq_refl eq_refl eq_refl eq_refl).
Defined.

(** The claim of C9 as written fails: with [skipNextPrompt] set, an image
    given without a view type is opened without one, that is in the
    default editor view, and not in a ["browser"] view. *)
Lemma URIAtLine_image_opens_in_editor_when_skipping :
  isImageUrl "logo.png" = true
  /\ URIAtLine 0 Examples.calm "logo.png" None None None None Examples.skipping
     = (Val None,
        {| skipNextPrompt := false;
           trace := [EvPathToURI "logo.png"; EvFileOpenAsync "logo.png" None None] |}).
Proof. split; reflexivity. Qed.

(** [loadSqliteDatabase] never touches the flag, and whether it handles a
    URI does not depend on the state it runs in. *)
Lemma loadSqliteDatabase_frame env uri w w0 :
  skipNextPrompt (snd (loadSqliteDatabase env uri w)) = skipNextPrompt w
  /\ fst (loadSqliteDatabase env uri w) = fst (loadSqliteDatabase env uri w0).
Proof.
  unfold loadSqliteDatabase.
  repeat match goal with
         | |- context [if ?b then _ else _] => destruct b
         end; now split.
Qed.

(** C10. When the URI, once converted and without its line number, is a
    project file, an add-on package, a toolbox package or a database file
    that the database explorer takes, the call leaves [skipNextPrompt] as
    it was; so it does when the path conversion throws. *)
Theorem URIAtLine_keeps_skipNextPrompt fuel env uri lineno viewType skip callback w :
  (exists e, pathToURI env uri = Throw e)
  \/ (exists u,
        pathToURI env uri = Ok u
        /\ let uri' := fst (attached_lineno u lineno) in
           is_project_uri uri' = true
           \/ ends_with_ci ".xpi" uri' = true
           \/ ends_with_ci ".kpz" uri' = true
           \/ exists w0, fst (loadSqliteDatabase env uri' w0) = Val true) ->
  skipNextPrompt (snd (URIAtLine fuel env uri lineno viewType skip callback w))
  = skipNextPrompt w.
Proof.
  intros [(e & Hu)|(u & Hu & Hclass)]; rewrite URIAtLine_catch.
  - unfold URIAtLine_try, bind, call. now rewrite Hu.
  - rewrite (URIAtLine_try_converted _ _ _ _ _ _ _ _ _ Hu).
    set (uri' := fst (attached_lineno u lineno)) in *.
    set (w0 := log_event (EvPathToURI uri) w).
    change (skipNextPrompt w) with (skipNextPrompt w0).
    transitivity
      (skipNextPrompt
         (snd (dispatch fuel env uri' (snd (attached_lineno u lineno)) viewType skip
                 callback w0))).
    { now destruct (dispatch _ _ _ _ _ _ _ w0) as [[[]|e|] w1]. }
    unfold dispatch.
    destruct (is_project_uri uri') eqn:Hp.
    { unfold call. now destruct (projects_open env uri' skip). }
    destruct (ends_with_ci ".xpi" uri') eqn:Hx.
    { unfold try_catch, _installAddon, call.
      destruct (installPackageByUrl env uri'); [reflexivity|].
      match goal with
      | |- context [dialogs_alert env ?m] => now destruct (dialogs_alert env m)
      end. }
    destruct (ends_with_ci ".kpz" uri') eqn:Hz.
    { unfold call. now destruct (importPackage env uri'). }
    destruct Hclass as [H|[H|[H|(w1 & Hh)]]]; try congruence.
    unfold bind. destruct (loadSqliteDatabase_frame env uri' w0 w1) as [Hf Ho].
    rewrite Hh in Ho.
    now destruct (loadSqliteDatabase env uri' w0) as [[[|]|e|] w2].
Qed.

Lemma URIAtLine_keeps_skipNextPrompt_witness :
  is_project_uri "site.komodoproject" = true
  /\ skipNextPrompt
       (snd (URIAtLine 0 Examples.calm "site.komodoproject" None None None None
               Examples.skipping))
     = true.
Proof.
  split; [reflexivity|].
  apply (URIAtLine_keeps_skipNextPrompt 0 Examples.calm "site.komodoproject" None None
           None None Examples.skipping).
  right. exists "site.komodoproject". split; [reflexivity|]. left. reflexivity.
Defined.

End DispatchBoundary.

(** ** Already open documents *)
Section DisplayPath.
Import JsString Open Observe.

(** With a callback, the first open view on the path is made current and
    handed to the callback, and [displayPath] returns at once: no fallback. *)
Lemma displayPath_with_callback fuel env path viewType cb w before v after p :
  getViewsByType env
    (default "editor" (if truthy viewType then viewType else Some "editor"))
  = (before ++ v :: after)%list ->
  Forall (fun x => match koDoc x with
                   | Some q => _fequal env q path = false
                   | None => True
                   end) before ->
  koDoc v = Some p -> _fequal env p path = true ->
  displayPath fuel env path viewType (Some cb) w
  = (Val tt,
     {| skipNextPrompt := skipNextPrompt w;
        trace := (trace w ++ [EvMakeCurrent (view_id v);
                              EvCallback cb (Some (view_id v))])%list |}).
Proof.
  intros Hviews Hbefore Hdoc Heq. unfold displayPath. rewrite Hviews. unfold bind.
  assert (Hloop : displayPath_loop env (before ++ v :: after) path (Some cb) w
                  = (Val true,
                     {| skipNextPrompt := skipNextPrompt w;
                        trace := (trace w ++ [EvMakeCurrent (view_id v);
                                              EvCallback cb (Some (view_id v))])%list |})).
  { clear Hviews. induction Hbefore as [|x before Hx _ IH]; simpl.
    - rewrite Hdoc, Heq. unfold bind, emit, log_event. simpl.
      now rewrite <- app_assoc.
    - destruct (koDoc x) as [q|]; [rewrite Hx|]; exact IH. }
  now rewrite Hloop.
Qed.

(** C2 fails without a callback. [/tmp/a.txt] is open in editor view 7 and
    [displayPath] gets no callback: the view is made current, and then the
    fallback request to open the path is issued all the same. With a
    callback this does not happen ([displayPath_with_callback]). *)
Theorem displayPath_without_callback_opens_again :
  getViewsByType Examples.one_view "editor"
  = [{| view_id := 7; koDoc := Some "/tmp/a.txt" |}]
  /\ displayPath 0 Examples.one_view "/tmp/a.txt" (Some "editor") None Examples.fresh
     = (Val tt,
        {| skipNextPrompt := false;
           trace := [EvMakeCurrent 7;
                     EvPathToURI "/tmp/a.txt";
                     EvFileOpenAsync "/tmp/a.txt" (Some "editor") None] |}).
Proof. split; reflexivity. Qed.

End DisplayPath.

(** ** Batches *)
Section Batches.
Import JsString Open Observe.

Lemma opened_uris_app (a b : list event) :
  opened_uris (a ++ b) = (opened_uris a ++ opened_uris b)%list.
Proof. unfold opened_uris. apply flat_map_app. Qed.

Lemma opened_uris_none (evs : list event) :
  forallb (fun ev => quiet_event ev || is_open_request ev) evs = true ->
  opened_uris evs = [].
Proof.
  induction evs as [|ev evs IH]; [reflexivity|]. simpl.
  intros [Hev Hevs]%andb_prop. rewrite (IH Hevs). now destruct ev.
Qed.

(** One call of the open method is one single-open call, whatever it does. *)
Lemma open_method_opens_once fuel env isRecent url viewType w :
  exists evs,
    trace (snd ((if isRecent : bool
                 then recentURI fuel env url viewType (Some true)
                 else bind (URI fuel env url viewType (Some true) None)
                        (fun _ => ret tt)) w))
    = (trace w ++ evs)%list
    /\ opened_uris evs = [url].
Proof.
  assert (HURI : forall vt skip cb w0, exists evs,
             trace (snd (bind (URI fuel env url vt skip cb) (fun _ => ret tt) w0))
             = (trace w0 ++ evs)%list /\ opened_uris evs = [url]).
  { intros vt skip cb w0. unfold URI, bind.
    destruct (URIAtLine_events fuel env url None vt skip cb w0) as (evs & Ht & Hq).
    exists (EvPathToURI url :: evs). split.
    - now destruct (URIAtLine _ _ _ _ _ _ _ w0) as [[o|e|] w1].
    - simpl. now rewrite (opened_uris_none _ Hq). }
  destruct isRecent; [|apply HURI].
  unfold recentURI. unfold bind at 1.
  match goal with
  | |- context [let (_, _) := ?c w in _] =>
      assert (Hpre : exists pre, c w = (Val tt, {| skipNextPrompt := skipNextPrompt w;
                                                   trace := (trace w ++ pre)%list |})
                                 /\ opened_uris pre = [])
  end.
  { destruct (is_project_uri url && negb (file_exists env url)).
    - unfold bind, emit, log_event. simpl.
      destruct (places env && single_project_view env); simpl;
        eexists; (split; [rewrite <- ?app_assoc; reflexivity | reflexivity]).
    - exists []. simpl. rewrite app_nil_r. now destruct w. }
  destruct Hpre as (pre & -> & Hpre).
  match goal with
  | |- context [bind (URI fuel env url ?vt ?skip ?cb) _ ?w0] =>
      destruct (HURI vt skip cb w0) as (evs & Ht & Ho)
  end.
  exists (pre ++ evs)%list. split.
  - rewrite Ht. simpl. now rewrite app_assoc.
  - now rewrite opened_uris_app, Hpre, Ho.
Qed.

(** A loop of the open method that comes to its end made one single-open
    call per URL, in the order of the URLs. *)
Lemma for_each_opens fuel env (isRecent : bool) viewType urls w :
  let body := fun url : string =>
                if isRecent
                then recentURI fuel env url viewType (Some true)
                else bind (URI fuel env url viewType (Some true) None)
                       (fun _ => ret tt) in
  fst (for_each urls body w) = Val tt ->
  exists evs,
    trace (snd (for_each urls body w)) = (trace w ++ evs)%list
    /\ opened_uris evs = urls.
Proof.
  intros body. revert w. induction urls as [|url urls IH]; intros w Hval.
  - exists []. simpl. now rewrite app_nil_r.
  - simpl in Hval |- *. unfold bind in Hval |- *.
    destruct (open_method_opens_once fuel env isRecent url viewType w)
      as (evs & Ht & Ho).
    fold (body url) in Ht.
    destruct (body url w) as [[[]|e|] w1]; simpl in Hval, Ht; try discriminate Hval.
    destruct (IH w1 Hval) as (evs' & Ht' & Ho').
    exists (evs ++ evs')%list. split.
    + now rewrite Ht', Ht, app_assoc.
    + now rewrite opened_uris_app, Ho, Ho'.
Qed.

(** The branches of [multipleURIs], one by one. *)
Lemma multipleURIs_cases fuel env urls viewType isRecent w :
  let prompt := GetStringFromName env "reopenProjectFilesPrompt" in
  let asked := log_event (EvYesNoCancel prompt) w in
  let batch := fun (us : list string) (w0 : world) =>
    bind (if Nat.ltb 1 (length us) then emit (EvSetBatchMode true) else ret tt)
      (fun _ =>
         bind (for_each us
                 (fun url : string =>
                    if default false isRecent
                    then recentURI fuel env url viewType (Some true)
                    else bind (URI fuel env url viewType (Some true) None)
                           (fun _ => ret tt)))
           (fun _ => emit EvAddViewOpenedListener)) w0 in
  multipleURIs fuel env urls viewType isRecent w
  = if Nat.eqb (length urls) 0 then (Val tt, w)
    else if Nat.ltb 0 (length (projectFiles env urls)) then
      if String.eqb (yesNoCancel env prompt) "Cancel" then (Val tt, asked)
      else if String.eqb (yesNoCancel env prompt) "Yes"
           then batch (urls ++ projectFiles env urls)%list asked
           else batch urls asked
    else batch urls w.
Proof.
  intros prompt asked batch. unfold multipleURIs. fold prompt.
  destruct (Nat.eqb (length urls) 0); [reflexivity|].
  destruct (Nat.ltb 0 (length (projectFiles env urls))); [|reflexivity].
  unfold bind at 1. unfold bind at 1. unfold emit at 1.
  destruct (String.eqb (yesNoCancel env prompt) "Cancel"); [reflexivity|].
  now destruct (String.eqb (yesNoCancel env prompt) "Yes").
Qed.

(** Which computations come to an end. *)
Lemma finishes_ret {A} (a : A) : finishes (ret a).
Proof. now intros w. Qed.

Lemma finishes_emit ev : finishes (emit ev).
Proof. now intros w. Qed.

Lemma finishes_call {A} ev (r : result A) : finishes (call ev r).
Proof. intros w. unfold call. now destruct r. Qed.

Lemma finishes_get : finishes get_skipNextPrompt.
Proof. now intros w. Qed.

Lemma finishes_set b : finishes (set_skipNextPrompt b).
Proof. now intros w. Qed.

Lemma finishes_bind {A B} (c : M A) (k : A -> M B) :
  finishes c -> (forall a, finishes (k a)) -> finishes (bind c k).
Proof.
  intros Hc Hk w. unfold bind. specialize (Hc w).
  destruct (c w) as [[a|e|] w1]; simpl in *; [apply Hk | discriminate | contradiction].
Qed.

(** After a call, only the continuation for its answer has to end. *)
Lemma finishes_call_bind {A B} ev (r : result A) (k : A -> M B) :
  (forall a, r = Ok a -> finishes (k a)) -> finishes (bind (call ev r) k).
Proof.
  intros H w. unfold bind, call.
  destruct r as [a|e]; simpl; [now apply H | discriminate].
Qed.

Lemma finishes_try_catch {A} (c : M A) (h : exn -> M A) :
  finishes c -> (forall e, finishes (h e)) -> finishes (try_catch c h).
Proof.
  intros Hc Hh w. unfold try_catch. specialize (Hc w).
  destruct (c w) as [[a|e|] w1]; simpl in *; [discriminate | apply Hh | contradiction].
Qed.

Ltac finishes_step :=
  first
    [ apply finishes_ret | apply finishes_emit | apply finishes_call
    | apply finishes_get | apply finishes_set
    | apply finishes_bind; [|intros ?] | apply finishes_try_catch; [|intros ?]
    | match goal with
      | |- finishes (if ?b then _ else _) => destruct b
      | |- finishes (match ?x with _ => _ end) => destruct x
      end ].

Ltac finishes_auto := repeat finishes_step.

(** Enough fuel: when the exchange at the prompt settles within [rounds]
    rounds, the loop run with that much fuel or more comes to an end. *)
Lemma _checkKSFBaseName_loop_finishes rounds fuel env taken ext name :
  settles rounds env taken name = true -> (rounds <= fuel)%nat ->
  finishes (_checkKSFBaseName_loop fuel env taken ext name).
Proof.
  revert fuel name.
  induction rounds as [|rounds IH]; intros fuel name Hs Hle; [discriminate|].
  destruct fuel as [|fuel]; [lia|]. simpl in Hs. intros w. simpl.
  unfold bind, call, ret.
  destruct (String.eqb name "").
  - simpl in *.
    destruct (dialogs_prompt env _ _ name) as [[answer|]|e]; simpl; try discriminate.
    destruct (String.eqb answer ""); simpl; [discriminate|].
    apply IH; [exact Hs | lia].
  - destruct (schemeNameIsValid env name) as [ok|e]; simpl; [|discriminate].
    destruct ok; simpl in *.
    + destruct (known_name taken (scheme_key env name)); simpl in *; [|discriminate].
      destruct (dialogs_prompt env _ _ name) as [[answer|]|e]; simpl; try discriminate.
      destruct (String.eqb answer ""); simpl; [discriminate|].
      apply IH; [exact Hs | lia].
    + destruct (dialogs_prompt env _ _ name) as [[answer|]|e]; simpl; try discriminate.
      destruct (String.eqb answer ""); simpl; [discriminate|].
      apply IH; [exact Hs | lia].
Qed.

(** The other way round: a loop that came to an end with [fuel] did so
    because the exchange settled within [fuel] rounds. *)
Lemma _checkKSFBaseName_loop_settled fuel env taken ext name w :
  fst (_checkKSFBaseName_loop fuel env taken ext name w) <> Diverge ->
  settles fuel env taken name = true.
Proof.
  revert name w. induction fuel as [|fuel IH]; intros name w; simpl.
  - intros H. now contradiction H.
  - unfold bind, call, ret.
    destruct (String.eqb name "").
    + simpl.
      destruct (dialogs_prompt env _ _ name) as [[answer|]|e]; simpl; try reflexivity.
      destruct (String.eqb answer ""); simpl; [reflexivity|]. apply IH.
    + destruct (schemeNameIsValid env name) as [ok|e]; simpl; [|reflexivity].
      destruct ok; simpl.
      * destruct (known_name taken (scheme_key env name)); simpl; [|reflexivity].
        destruct (dialogs_prompt env _ _ name) as [[answer|]|e]; simpl; try reflexivity.
        destruct (String.eqb answer ""); simpl; [reflexivity|]. apply IH.
      * destruct (dialogs_prompt env _ _ name) as [[answer|]|e]; simpl; try reflexivity.
        destruct (String.eqb answer ""); simpl; [reflexivity|]. apply IH.
Qed.

Section Settled.
Variables (rounds fuel : nat) (env : Env).
Hypothesis Hsettles : settles_within rounds env.
Hypothesis Hfuel : (rounds <= fuel)%nat.

Lemma _checkKSFBaseName_finishes uri : finishes (_checkKSFBaseName fuel env uri).
Proof.
  unfold _checkKSFBaseName. apply finishes_call_bind. intros names Hnames.
  finishes_auto.
  apply (_checkKSFBaseName_loop_finishes rounds); [now apply Hsettles | exact Hfuel].
Qed.

Lemma prompts_finishes uri viewType buttons responses :
  finishes (prompts fuel env uri viewType buttons responses).
Proof.
  unfold prompts, prompt_scheme, prompt_snippet, prompt_tool.
  repeat first [apply _checkKSFBaseName_finishes | finishes_step].
Qed.

Lemma dispatch_finishes uri lineno viewType skip callback :
  finishes (dispatch fuel env uri lineno viewType skip callback).
Proof.
  unfold dispatch, _installAddon, loadSqliteDatabase, open_document, open_file.
  repeat first [apply prompts_finishes | finishes_step].
Qed.

(** With enough fuel a single-open call returns, and it returns [null]. *)
Lemma URIAtLine_returns uri lineno viewType skip callback w :
  fst (URIAtLine fuel env uri lineno viewType skip callback w) = Val None.
Proof.
  rewrite URIAtLine_catch.
  assert (H : finishes (URIAtLine_try fuel env uri lineno viewType skip callback)).
  { unfold URIAtLine_try. apply finishes_bind; [apply finishes_call|].
    intros u. destruct (attached_lineno u lineno). apply dispatch_finishes. }
  specialize (H w).
  now destruct (URIAtLine_try _ _ _ _ _ _ _ w) as [[[]|e|] w1].
Qed.

Lemma open_method_returns (isRecent : bool) url viewType w :
  fst ((if isRecent
        then recentURI fuel env url viewType (Some true)
        else bind (URI fuel env url viewType (Some true) None) (fun _ => ret tt)) w)
  = Val tt.
Proof.
  assert (HURI : forall vt skip cb w0,
             fst (bind (URI fuel env url vt skip cb) (fun _ => ret tt) w0) = Val tt).
  { intros vt skip cb w0. unfold URI, bind.
    pose proof (URIAtLine_returns url None vt skip cb w0) as H.
    destruct (URIAtLine _ _ _ _ _ _ _ w0) as [[o|e|] w1]; simpl in H;
      [reflexivity | discriminate | discriminate]. }
  destruct isRecent; [|apply HURI].
  unfold recentURI. unfold bind at 1.
  match goal with
  | |- context [let (_, _) := ?c w in _] =>
      assert (Hpre : exists w1, c w = (Val tt, w1))
  end.
  { destruct (is_project_uri url && negb (file_exists env url)).
    - unfold bind, emit.
      destruct (places env && single_project_view env); simpl; eexists; reflexivity.
    - eexists. reflexivity. }
  destruct Hpre as (w1 & ->). apply HURI.
Qed.

Lemma for_each_returns (isRecent : bool) viewType urls w :
  fst (for_each urls
         (fun url : string =>
            if isRecent
            then recentURI fuel env url viewType (Some true)
            else bind (URI fuel env url viewType (Some true) None)
                   (fun _ => ret tt)) w)
  = Val tt.
Proof.
  revert w. induction urls as [|url urls IH]; intros w; [reflexivity|].
  simpl. unfold bind at 1.
  pose proof (open_method_returns isRecent url viewType w) as H.
  match goal with
  | |- context [let (_, _) := ?c w in _] => change (fst (c w) = Val tt) in H;
      destruct (c w) as [[[]|e|] w1]
  end; simpl in H; try discriminate H.
  apply IH.
Qed.

End Settled.

(** C8. A batch of [N] URLs, at least one, for which files are remembered.
    When the user answers Cancel the batch ends with the question: no
    single-open call is made. When the user answers Yes, and at the prompt
    for a scheme name (the one loop of the dispatcher) comes to an end
    within as many rounds as there is fuel, the batch comes to its end, and
    the single-open calls are those for the URLs followed by those for the
    remembered files, one each and in this order: [N] plus the number of
    remembered files. *)
Theorem multipleURIs_reopen fuel env urls viewType isRecent w :
  urls <> [] ->
  projectFiles env urls <> [] ->
  let prompt := GetStringFromName env "reopenProjectFilesPrompt" in
  let r := multipleURIs fuel env urls viewType isRecent w in
  (yesNoCancel env prompt = "Cancel" ->
   r = (Val tt, log_event (EvYesNoCancel prompt) w)
   /\ opened_uris [EvYesNoCancel prompt] = [])
  /\ (yesNoCancel env prompt = "Yes" ->
      forall rounds,
        settles_within rounds env -> (rounds <= fuel)%nat ->
        fst r = Val tt
        /\ exists evs,
             trace (snd r) = (trace w ++ evs)%list
             /\ opened_uris evs = (urls ++ projectFiles env urls)%list
             /\ length (opened_uris evs)
                = (length urls + length (projectFiles env urls))%nat).
Proof.
  intros Hurls Hfiles prompt r. subst r. rewrite multipleURIs_cases. fold prompt.
  assert (Hn : Nat.eqb (length urls) 0 = false)
    by (destruct urls; [contradiction | reflexivity]).
  assert (Hm : Nat.ltb 0 (length (projectFiles env urls)) = true)
    by (destruct (projectFiles env urls); [contradiction | reflexivity]).
  rewrite Hn, Hm. split; intros Hanswer; rewrite Hanswer; [now split|].
  intros rounds Hsettles Hfuel.
  simpl String.eqb. cbv iota.
  assert (Hlen : Nat.ltb 1 (length (urls ++ projectFiles env urls)%list) = true).
  { apply Nat.ltb_lt. rewrite length_app.
    apply Nat.eqb_neq in Hn. apply Nat.ltb_lt in Hm. lia. }
  rewrite Hlen.
  assert (Hemit : forall ev (k : unit -> M unit) w0,
             bind (emit ev) k w0 = k tt (log_event ev w0)) by reflexivity.
  rewrite !Hemit.
  set (w1 := log_event (EvSetBatchMode true) (log_event (EvYesNoCancel prompt) w)).
  unfold bind at 1 3.
  pose proof (for_each_returns rounds fuel env Hsettles Hfuel (default false isRecent)
                viewType (urls ++ projectFiles env urls)%list w1) as Hval.
  destruct (for_each_opens fuel env (default false isRecent) viewType
              (urls ++ projectFiles env urls)%list w1 Hval) as (evs & Ht & Ho).
  cbv zeta in Ht.
  destruct (for_each _ _ w1) as [[[]|e|] w2]; simpl in Hval; try discriminate Hval.
  simpl in Ht |- *. split; [reflexivity|].
  exists ([EvYesNoCancel prompt; EvSetBatchMode true] ++ evs
          ++ [EvAddViewOpenedListener])%list.
  split; [|split].
  - rewrite Ht. simpl. now rewrite <- !app_assoc.
  - rewrite !opened_uris_app, Ho. simpl. now rewrite app_nil_r.
  - rewrite !opened_uris_app, Ho. simpl. rewrite app_nil_r, !length_app. simpl. lia.
Qed.

Lemma multipleURIs_reopen_witness :
  let env := MoreObserve.answering (Some "OK.customButtonLabel")
               (Examples.remembering "Yes") in
  let urls := ["p.komodoproject"; "x.ksf"; "notes.txt"] in
  projectFiles env urls = ["file:///a.py"; "file:///b.py"]
  /\ settles_within 1 env
  /\ fst (multipleURIs 1 env urls None None Examples.fresh) = Val tt
  /\ exists evs,
       trace (snd (multipleURIs 1 env urls None None Examples.fresh)) = evs
       /\ opened_uris evs
          = ["p.komodoproject"; "x.ksf"; "notes.txt"; "file:///a.py"; "file:///b.py"]
       /\ In (EvLoadSchemeFromURI "x.ksf" "x.ksf") evs.
Proof.
  intros env urls.
  assert (Hsettles : settles_within 1 env).
  { intros names name [= <-]. simpl.
    destruct (String.eqb name ""); [reflexivity|]. simpl.
    now destruct (known_name no_names (scheme_key env name)). }
  split; [reflexivity|]. split; [exact Hsettles|].
  destruct (proj2 (multipleURIs_reopen 1 env urls None None Examples.fresh
                     ltac:(discriminate) ltac:(discriminate))
              eq_refl 1%nat Hsettles (Nat.le_refl 1)) as (Hval & evs & Ht & Ho & _).
  split; [exact Hval|].
  exists evs. split; [exact Ht|]. split; [exact Ho|].
  simpl in Ht. rewrite <- Ht. vm_compute. tauto.
Defined.

End Batches.

(** ** The registry of dynamic buttons *)
Section Registry.
Import JsString DynamicButton.

Lemma keeps_ret {X A} (f : world -> X) (a : A) : keeps f (ret a).
Proof. now intros w. Qed.

Lemma keeps_throw {X A} (f : world -> X) e : keeps f (@throw A e).
Proof. now intros w. Qed.

Lemma keeps_gets {X A} (f : world -> X) (g : world -> A) : keeps f (gets g).
Proof. now intros w. Qed.

Lemma keeps_modify {X} (f : world -> X) (g : world -> world) :
  (forall w, f (g w) = f w) -> keeps f (modify g).
Proof. intros H w. apply H. Qed.

Lemma keeps_bind {X A B} (f : world -> X) (c : M A) (k : A -> M B) :
  keeps f c -> (forall a, keeps f (k a)) -> keeps f (bind c k).
Proof.
  intros Hc Hk w. unfold bind. specialize (Hc w).
  destruct (c w) as [[a|e] w1]; simpl in *; [|exact Hc].
  now rewrite Hk.
Qed.

Lemma keeps_for_each {X A} (f : world -> X) (xs : list A) (body : A -> M unit) :
  (forall x, keeps f (body x)) -> keeps f (for_each xs body).
Proof.
  intros Hb. induction xs as [|x xs IH]; simpl; [apply keeps_ret|].
  apply keeps_bind; [apply Hb | intros _; apply IH].
Qed.

Lemma keeps_this {X} (f : world -> X) self : keeps f (dynamicButton.this self).
Proof. intros w. unfold dynamicButton.this. now destruct (heap w !! self). Qed.

Ltac keeps_auto :=
  repeat first
    [ apply keeps_ret | apply keeps_throw | apply keeps_gets | apply keeps_this
    | apply keeps_modify; intros ?; reflexivity
    | apply keeps_bind; [|intros ?]
    | apply keeps_for_each; intros ?
    | match goal with
      | |- keeps _ (if ?b then _ else _) => destruct b
      | |- keeps _ (match ?x with _ => _ end) => destruct x
      | |- keeps _ (fun w => let '(_, _) := new_element w in _) =>
          let w := fresh "w" in intros w; reflexivity
      | |- keeps _ (fun w => let '(_, _) := setTimeout _ _ w in _) =>
          let w := fresh "w" in intros w; reflexivity
      end
    | let w := fresh "w" in
      intros w;
      unfold modify, dynamicButton.set_opts, dynamicButton.set_timer, clearTimeout;
      repeat case_match; reflexivity ].

Lemma new_keeps_buttons env o : keeps buttons (dynamicButton.new env o).
Proof.
  unfold dynamicButton.new, dynamicButton.init, dynamicButton.update,
    dynamicButton.hide, dynamicButton.store_hide, dynamicButton.subscribe.
  keeps_auto.
Qed.

Lemma unregister_keeps_buttons id : keeps buttons (unregister id).
Proof. unfold unregister, dynamicButton.unregister. keeps_auto. Qed.

(** Unregistering an id that is not in the registry throws, and changes
    nothing. *)
Lemma unregister_absent id w :
  buttons w !! id = None -> inherited id = false ->
  unregister id w = (Throw (does_not_exist id), w).
Proof.
  intros H Hi. unfold unregister, bind, gets, in_buttons. simpl.
  now rewrite H, Hi.
Qed.

(** A name of [Object.prototype] counts as registered though no button has
    it: [unregister] finds no [dynamicButton] under it. *)
Lemma unregister_inherited id w :
  buttons w !! id = None -> inherited id = true ->
  unregister id w
  = (Throw (TypeError "buttons[id].unregister is not a function"), w).
Proof.
  intros H Hi. unfold unregister, bind, gets, in_buttons. simpl.
  rewrite Hi, orb_true_r. simpl. now rewrite H.
Qed.

(** Registering an id that is in the registry throws, and changes nothing. *)
Lemma register_duplicate env label o raw self w :
  id_source label o = Some raw ->
  buttons w !! strip_non_word raw = Some self ->
  register env label o w = (Throw (already_exists (strip_non_word raw)), w).
Proof.
  intros Hsrc Hdup. unfold register, id_source in *.
  destruct label as [l|spec]; [destruct o as [opts|]; [|discriminate]|];
    unfold bind, ret, gets, in_buttons; simpl; rewrite Hsrc; simpl;
    now rewrite Hdup.
Qed.

(** When [register] returns, the registry has one more entry: the new
    button under the id made from [opts.id || label]. *)
Lemma register_stores env label o self w w' :
  register env label o w = (Ok self, w') ->
  exists raw,
    id_source label o = Some raw
    /\ buttons w !! strip_non_word raw = None
    /\ inherited (strip_non_word raw) = false
    /\ buttons w' = <[strip_non_word raw := self]> (buttons w).
Proof.
  unfold register, id_source.
  destruct label as [l|spec]; [destruct o as [opts|]; [|discriminate]|];
    unfold bind at 1, ret at 1; cbv iota; cbv beta.
  all: match goal with
       | |- context [or_else ?a ?b] => destruct (or_else a b) as [raw|]; [|discriminate]
       end.
  all: unfold bind at 1, gets at 1, in_buttons; cbv beta iota.
  all: destruct (buttons w !! strip_non_word raw) eqn:Hfree; [discriminate|].
  all: destruct (inherited (strip_non_word raw)) eqn:Hown; [discriminate|].
  all: rewrite ?bool_decide_eq_false_2 by (now intros [? ?]); cbn [orb]; cbv iota beta.
  all: try (unfold bind at 1, modify at 1; cbv beta iota).
  all: match goal with
       | |- context [bind (dynamicButton.new ?env' ?opts') _ ?w1] =>
           unfold bind at 1;
           pose proof (new_keeps_buttons env' opts' w1) as Hkeep;
           destruct (dynamicButton.new env' opts' w1) as [[s|e] w2];
           [|discriminate]
       end.
  all: unfold bind, modify, ret; simpl; intros [= <- <-]; exists raw.
  all: simpl in Hkeep; rewrite Hkeep.
  all: (split; [reflexivity|split; [exact Hfree|split; [exact Hown|]]]).
  all: simpl; now destruct (storage w !! strip_non_word raw).
Qed.


(** C1 fails on the removal. In a newly loaded module "Foo" is registered
    and then unregistered: [unregister] returns, the button element leaves
    the toolbar, and the registry still has the entry, so that registering
    "Foo" again throws. Only the other half of the claim holds
    ([unregister_absent]). *)
Theorem unregister_keeps_registry_entry :
  let r1 := register ButtonExamples.idle (Label "Foo") (Some ButtonExamples.no_options)
              ButtonExamples.loaded in
  let r2 := unregister "Foo" (snd r1) in
  let r3 := register ButtonExamples.idle (Label "Foo") (Some ButtonExamples.no_options)
              (snd r2) in
  fst r1 = Ok 1%nat
  /\ buttons (snd r1) !! "Foo" = Some 1%nat
  /\ fst r2 = Ok tt
  /\ toolbar (snd r1) = [(2, [0]); (4, [3])]%nat
  /\ toolbar (snd r2) = [(2, [0]); (4, [])]%nat
  /\ buttons (snd r2) !! "Foo" = Some 1%nat
  /\ fst r3 = Throw (already_exists "Foo").
Proof. vm_compute. repeat split; reflexivity. Qed.

(** C4 fails for an explicit id with a character that is not a word
    character. In a newly loaded module [register("Foo", { id: "foo-bar" })]
    looks for the key [foobar], keeps [foo-bar] as [opts.id], makes the
    stored entry under [foobar] and reads it under [foo-bar]: [init] throws
    a [TypeError], no button is stored under either key, and the stored
    state has a new entry. *)
Theorem register_explicit_id_not_kept :
  let r := register ButtonExamples.idle (Label "Foo")
             (Some (ButtonExamples.with_id "foo-bar")) ButtonExamples.loaded in
  fst r = Throw (TypeError "ss.storage.buttons[opts.id] is undefined")
  /\ buttons (snd r) !! "foo-bar" = None
  /\ buttons (snd r) !! "foobar" = None
  /\ storage ButtonExamples.loaded !! "foobar" = None
  /\ storage (snd r) !! "foobar" = Some {| hide := None |}
  /\ storage (snd r) !! "foo-bar" = None.
Proof. vm_compute. repeat split; reflexivity. Qed.

End Registry.

(** ** Debounced refresh *)
Section Debounce.
Import JsString DynamicButton.
Variable env : Env.

Lemma timer_eqb_eq (a b : timer) : timer_eqb a b = true <-> a = b.
Proof.
  unfold timer_eqb. destruct a as [i d t], b as [i' d' t']. simpl.
  rewrite !andb_true_iff, !Nat.eqb_eq. split; [intros [[-> ->] ->]|intros [= -> -> ->]]; auto.
Qed.

Lemma first_due_In (t : nat) (ts : list timer) (x : timer) :
  first_due t ts = Some x -> In x ts /\ (deadline x <= t)%nat.
Proof.
  revert x. induction ts as [|y ts IH]; intros x; simpl; [discriminate|].
  destruct (first_due t ts) as [z|].
  - destruct (IH z eq_refl) as [Hin Hz].
    destruct (Nat.leb_spec (deadline y) t); simpl.
    + destruct (Nat.leb (deadline y) (deadline z)); intros [= <-]; auto.
    + intros [= <-]; auto.
  - destruct (Nat.leb_spec (deadline y) t); intros [= <-]; auto.
Qed.

Lemma first_due_None (t : nat) (ts : list timer) :
  first_due t ts = None -> forall x, In x ts -> (t < deadline x)%nat.
Proof.
  induction ts as [|y ts IH]; simpl; [now intros _ x []|].
  destruct (first_due t ts) as [z|].
  - now destruct (Nat.leb (deadline y) t && Nat.leb (deadline y) (deadline z)).
  - destruct (Nat.leb_spec (deadline y) t); [discriminate|].
    intros _ x [<-|Hin]; [assumption | now apply IH].
Qed.

Lemma remove_timer_length (x : timer) (ts : list timer) :
  In x ts -> S (length (remove_timer x ts)) = length ts.
Proof.
  induction ts as [|y ts IH]; simpl; [now intros []|].
  destruct (timer_eqb y x) eqn:E; [reflexivity|].
  intros [->|Hin]; [|simpl; now rewrite IH].
  now rewrite (proj2 (timer_eqb_eq x x) eq_refl) in E.
Qed.

Lemma filter_remove_timer (f : timer -> bool) (x : timer) (ts : list timer) :
  List.filter f (remove_timer x ts)
  = if f x then remove_timer x (List.filter f ts) else List.filter f ts.
Proof.
  induction ts as [|y ts IH]; simpl; [now destruct (f x)|].
  destruct (timer_eqb y x) eqn:E.
  - apply timer_eqb_eq in E as ->. destruct (f x) eqn:Hf; simpl; [|reflexivity].
    now rewrite (proj2 (timer_eqb_eq x x) eq_refl).
  - simpl. rewrite IH. destruct (f y) eqn:Hy, (f x) eqn:Hx; simpl; try reflexivity.
    now rewrite E.
Qed.

(** What [update(true)] does to the parts of the state that the timers
    and the count of recomputations depend on. *)
Lemma recompute_effect (x : nat) (w : world) :
  let w' := snd (dynamicButton.update env x true w) in
  pending w' = pending w
  /\ heap w' = heap w
  /\ clock w' = clock w
  /\ predicate_calls w'
     = (predicate_calls w ++ if has_predicate x w then [x] else [])%list.
Proof.
  unfold dynamicButton.update, dynamicButton.recompute, dynamicButton.this,
    has_predicate, bind, gets, modify, throw, ret. simpl.
  destruct (heap w !! x) as [d|]; simpl; [|now rewrite app_nil_r].
  destruct (o_isEnabled (opts d)) as [p|]; simpl; [|now rewrite app_nil_r].
  match goal with
  | |- context [parentNode ?b ?w0] => destruct (parentNode b w0) as [[grp kids]|]
  end; simpl; [|now repeat split].
  destruct (Nat.eqb (length kids) 1); now repeat split.
Qed.

Lemma fire_effect (tm : timer) (w : world) :
  let w' := fire env tm w in
  pending w' = remove_timer tm (pending w)
  /\ heap w' = heap w
  /\ clock w' = Nat.max (clock w) (deadline tm)
  /\ predicate_calls w'
     = (predicate_calls w ++ if has_predicate (target tm) w then [target tm] else [])%list.
Proof.
  unfold fire.
  set (w1 := set_clock _ (set_pending _ w)).
  destruct (recompute_effect (target tm) w1) as (Hp & Hh & Hc & Hcalls).
  repeat split; [exact Hp | exact Hh | exact Hc | exact Hcalls].
Qed.

Lemma recomputations_app (self : nat) (w w' : world) (l : list nat) :
  predicate_calls w' = (predicate_calls w ++ l)%list ->
  recomputations self w'
  = (recomputations self w + length (List.filter (Nat.eqb self) l))%nat.
Proof.
  intros H. unfold recomputations. now rewrite H, List.filter_app, length_app.
Qed.

Variable self : nat.

(** Firing whatever is due by [t]: the timer of [self], when it has one
    that is due, fires once; otherwise nothing of [self] happens. *)
Lemma run_due_spec (fuel t : nat) (w : world) :
  (length (pending w) <= fuel)%nat ->
  has_predicate self w = true ->
  let w' := run_due fuel env t w in
  has_predicate self w' = true
  /\ heap w' = heap w
  /\ (clock w' <= Nat.max (clock w) t)%nat
  /\ match own_timers self w with
     | [] =>
         own_timers self w' = [] /\ recomputations self w' = recomputations self w
     | [tm] =>
         if Nat.leb (deadline tm) t
         then own_timers self w' = []
              /\ recomputations self w' = S (recomputations self w)
         else own_timers self w' = [tm]
              /\ recomputations self w' = recomputations self w
     | _ => True
     end.
Proof.
  revert w. induction fuel as [|fuel IH]; intros w Hlen Hlive; simpl.
  - destruct (pending w) eqn:Hp; [|simpl in Hlen; lia].
    unfold own_timers. rewrite Hp. simpl. repeat split; [assumption | lia].
  - destruct (first_due t (pending w)) as [tm2|] eqn:Hdue.
    + destruct (first_due_In _ _ _ Hdue) as [Hin Hd].
      destruct (fire_effect tm2 w) as (Hp & Hh & Hc & Hcalls).
      set (w1 := fire env tm2 w) in *.
      assert (Hlive1 : has_predicate self w1 = true)
        by (unfold has_predicate in *; now rewrite Hh).
      assert (Hlen1 : (length (pending w1) <= fuel)%nat).
      { rewrite Hp. pose proof (remove_timer_length _ _ Hin). lia. }
      destruct (IH w1 Hlen1 Hlive1) as (Hl' & Hh' & Hc' & Hown').
      split; [exact Hl'|]. split; [now rewrite Hh', Hh|]. split; [lia|].
      assert (Hown1 : own_timers self w1
                      = if Nat.eqb (target tm2) self
                        then remove_timer tm2 (own_timers self w)
                        else own_timers self w).
      { unfold own_timers. rewrite Hp. apply filter_remove_timer. }
      pose proof (recomputations_app self w w1 _ Hcalls) as Hrec.
      destruct (Nat.eqb_spec (target tm2) self) as [Et|Et].
      * assert (Hin2 : In tm2 (own_timers self w)).
        { unfold own_timers. apply filter_In. split; [exact Hin|]. now apply Nat.eqb_eq. }
        rewrite Et, Hlive in Hrec. simpl in Hrec. rewrite Nat.eqb_refl in Hrec.
        simpl in Hrec.
        destruct (own_timers self w) as [|tm [|tm' rest]] eqn:Hown; [destruct Hin2| |exact I].
        destruct Hin2 as [->|[]].
        simpl in Hown1. rewrite (proj2 (timer_eqb_eq tm2 tm2) eq_refl) in Hown1.
        rewrite Hown1 in Hown'.
        destruct (Nat.leb_spec (deadline tm2) t); [|lia].
        destruct Hown' as [Ho Hr]. split; [exact Ho | lia].
      * assert (Hself : Nat.eqb self (target tm2) = false)
          by (apply Nat.eqb_neq; congruence).
        assert (Hrec' : recomputations self w1 = recomputations self w).
        { rewrite Hrec. destruct (has_predicate (target tm2) w); simpl;
            [rewrite Hself|]; simpl; lia. }
        rewrite Hown1 in Hown'. rewrite <- Hrec'.
        destruct (own_timers self w) as [|tm [|tm' rest]]; [exact Hown' | |exact I].
        exact Hown'.
    + repeat split; [assumption | lia |].
      destruct (own_timers self w) as [|tm [|tm' rest]] eqn:Hown; [now split | |exact I].
      destruct (Nat.leb_spec (deadline tm) t) as [Hle|Hgt]; [|now split].
      assert (Hin : In tm (pending w)).
      { assert (H : In tm (own_timers self w)) by (rewrite Hown; now left).
        unfold own_timers in H. now apply filter_In in H as [H _]. }
      pose proof (first_due_None _ _ Hdue _ Hin). lia.
Qed.

Lemma elapse_spec (d : nat) (w : world) :
  has_predicate self w = true ->
  let w' := elapse env d w in
  has_predicate self w' = true
  /\ heap w' = heap w
  /\ clock w' = (clock w + d)%nat
  /\ match own_timers self w with
     | [] =>
         own_timers self w' = [] /\ recomputations self w' = recomputations self w
     | [tm] =>
         if Nat.leb (deadline tm) (clock w + d)
         then own_timers self w' = []
              /\ recomputations self w' = S (recomputations self w)
         else own_timers self w' = [tm]
              /\ recomputations self w' = recomputations self w
     | _ => True
     end.
Proof.
  intros Hlive. unfold elapse.
  destruct (run_due_spec (length (pending w)) (clock w + d) w (Nat.le_refl _) Hlive)
    as (Hl & Hh & Hc & Hown).
  set (w1 := run_due _ env _ w) in *.
  repeat split; [exact Hl | exact Hh | simpl; lia | exact Hown].
Qed.

Lemma filter_filter_comm {A} (f g : A -> bool) (l : list A) :
  List.filter f (List.filter g l) = List.filter g (List.filter f l).
Proof.
  induction l as [|x l IH]; [reflexivity|]. simpl.
  destruct (f x) eqn:Hf, (g x) eqn:Hg; simpl; rewrite ?Hf, ?Hg, IH; reflexivity.
Qed.

(** A request clears the timer that [_timer] names and sets a new one. *)
Lemma request_arms (w : world) :
  has_predicate self w = true ->
  own_timers self w = [] \/ (exists due, armed self due w) ->
  let w' := request env self w in
  armed self (clock w + 250) w'
  /\ has_predicate self w' = true
  /\ clock w' = clock w
  /\ recomputations self w' = recomputations self w.
Proof.
  intros Hlive Hown. unfold has_predicate in Hlive.
  destruct (heap w !! self) as [d|] eqn:Hd; [|discriminate].
  unfold request, dynamicButton.update, dynamicButton.this, bind, modify. simpl.
  rewrite Hd. simpl.
  assert (Hd' : heap (clearTimeout (_timer d) w) !! self = Some d)
    by (destruct (_timer d); exact Hd).
  unfold dynamicButton.set_timer. simpl. rewrite Hd'. simpl.
  assert (Hcleared : List.filter (fun t => Nat.eqb (target t) self)
                       (pending (clearTimeout (_timer d) w)) = []).
  { destruct Hown as [Hnone|(due & d0 & tm & Hd0 & Hone & Ht & _)].
    - destruct (_timer d); simpl; [|exact Hnone].
      rewrite filter_filter_comm. unfold own_timers in Hnone. now rewrite Hnone.
    - rewrite Hd in Hd0. injection Hd0 as <-. rewrite Ht. simpl.
      rewrite filter_filter_comm. unfold own_timers in Hone. rewrite Hone. simpl.
      now rewrite Nat.eqb_refl. }
  assert (Hsame : next_timer (clearTimeout (_timer d) w) = next_timer w
                  /\ clock (clearTimeout (_timer d) w) = clock w
                  /\ predicate_calls (clearTimeout (_timer d) w) = predicate_calls w)
    by (now destruct (_timer d)).
  destruct Hsame as (Hnext & Hclock & Hcalls).
  split; [|split; [|split]].
  - exists {| opts := opts d; button := button d; menupopup := menupopup d;
              _timer := Some (next_timer w) |},
           {| timer_id := next_timer w; deadline := clock w + 250; target := self |}.
    split; [simpl; rewrite Hnext; apply lookup_insert_eq|].
    split; [|split; reflexivity].
    unfold own_timers. simpl. rewrite List.filter_app, Hcleared. simpl.
    now rewrite Nat.eqb_refl, Hnext, Hclock.
  - unfold has_predicate. simpl. rewrite lookup_insert_eq. simpl. exact Hlive.
  - simpl. exact Hclock.
  - unfold recomputations. simpl. now rewrite Hcalls.
Qed.

(** A run of requests less than 250ms apart recomputes nothing and ends
    with the timer of the last request pending. *)
Lemma requests_arm (gaps : list nat) (w : world) :
  has_predicate self w = true ->
  armed self (clock w + 250) w ->
  Forall (fun gap => (gap < 250)%nat) gaps ->
  let w' := requests env self gaps w in
  armed self (clock w' + 250) w'
  /\ has_predicate self w' = true
  /\ recomputations self w' = recomputations self w.
Proof.
  intros Hlive Harmed Hgaps. revert w Hlive Harmed.
  induction Hgaps as [|gap gaps Hgap _ IH]; intros w Hlive Harmed; simpl; [auto|].
  destruct (elapse_spec gap w Hlive) as (Hl1 & Hh1 & Hc1 & Hown1).
  set (w1 := elapse env gap w) in *.
  destruct Harmed as (d & tm & Hd & Hone & Ht & Hdue).
  rewrite Hone in Hown1.
  destruct (Nat.leb_spec (deadline tm) (clock w + gap)); [lia|].
  destruct Hown1 as [Hone1 Hrec1].
  assert (Harmed1 : exists due, armed self due w1).
  { exists (deadline tm), d, tm. now rewrite Hh1. }
  destruct (request_arms w1 Hl1 (or_intror Harmed1)) as (Ha2 & Hl2 & Hc2 & Hrec2).
  set (w2 := request env self w1) in *.
  rewrite <- Hc2 in Ha2.
  destruct (IH w2 Hl2 Ha2) as (Ha3 & Hl3 & Hrec3).
  repeat split; [exact Ha3 | exact Hl3 | congruence].
Qed.

(** What [el.attr] does to the attributes one reads afterwards. *)
Lemma attrs_of_attr (el e : nat) (name value key : string) (w : world) :
  attrs_of el (attr e name value w) !! key
  = if Nat.eqb e el && String.eqb name key then Some value
    else attrs_of el w !! key.
Proof.
  unfold attrs_of, attr. simpl.
  destruct (Nat.eqb_spec e el) as [->|Hne]; simpl.
  - rewrite lookup_insert_eq. simpl.
    destruct (String.eqb_spec name key) as [->|Hk].
    + apply lookup_insert_eq.
    + now rewrite lookup_insert_ne.
  - now rewrite lookup_insert_ne.
Qed.

Lemma has_predicate_of (x : nat) (w : world) (q : predicate) :
  predicate_of x w = Some q -> has_predicate x w = true.
Proof.
  unfold predicate_of, has_predicate. destruct (heap w !! x) as [d|]; [|discriminate].
  now intros ->.
Qed.

(** [update(true)] writes the answer of the predicate, asked at the time
    of the call, to the attribute [disabled] of the button, and no other
    [disabled]. *)
Lemma recompute_disabled (x el : nat) (w : world) :
  attrs_of el (snd (dynamicButton.update env x true w)) !! "disabled"
  = match predicate_of x w, button_of x w with
    | Some q, Some bx =>
        if Nat.eqb bx el
        then Some (if eval_predicate env q (clock w) then "false" else "true")
        else attrs_of el w !! "disabled"
    | _, _ => attrs_of el w !! "disabled"
    end.
Proof.
  unfold dynamicButton.update, dynamicButton.recompute, dynamicButton.this,
    predicate_of, button_of, bind, gets, modify, throw, ret. simpl.
  destruct (heap w !! x) as [d|]; simpl; [|reflexivity].
  destruct (o_isEnabled (opts d)) as [q|]; simpl; [|reflexivity].
  match goal with
  | |- context [parentNode ?b0 ?w0] => destruct (parentNode b0 w0) as [[grp kids]|]
  end; simpl.
  - destruct (Nat.eqb (length kids) 1); simpl;
      rewrite !attrs_of_attr; simpl; rewrite andb_false_r;
      now destruct (Nat.eqb (button d) el).
  - rewrite attrs_of_attr. simpl. rewrite andb_true_r.
    now destruct (Nat.eqb (button d) el).
Qed.

Lemma existsb_filter {A} (f : A -> bool) (l : list A) :
  existsb f l = negb (Nat.eqb (length (List.filter f l)) 0).
Proof.
  induction l as [|a l IH]; [reflexivity|]. simpl.
  destruct (f a); [reflexivity | exact IH].
Qed.

Lemma existsb_same {A} (f g : A -> bool) (l : list A) :
  (forall a, f a = g a) -> existsb f l = existsb g l.
Proof.
  intros H. induction l as [|a l IH]; [reflexivity|]. simpl. now rewrite H, IH.
Qed.

(** [update(true)] leaves the group of the button collapsed exactly when
    none of its children is enabled. *)
Lemma recompute_collapsed (x bx grp : nat) (q : predicate) (kids : list nat)
    (w : world) :
  button_of x w = Some bx ->
  predicate_of x w = Some q ->
  parentNode bx w = Some (grp, kids) ->
  let w' := snd (dynamicButton.update env x true w) in
  attrs_of grp w' !! "collapsed"
  = Some (if existsb (not_disabled w') kids then "false" else "true").
Proof.
  unfold dynamicButton.update, dynamicButton.recompute, dynamicButton.this,
    predicate_of, button_of, bind, gets, modify, throw, ret. simpl.
  destruct (heap w !! x) as [d|]; simpl; [|discriminate].
  intros [= <-] -> Hparent.
  set (enabled := eval_predicate env q (clock w)).
  set (w2 := attr (button d) "disabled" (if enabled then "false" else "true")
               (set_predicate_calls (predicate_calls w ++ [x])%list w)).
  assert (Hp2 : parentNode (button d) w2 = Some (grp, kids)) by exact Hparent.
  rewrite Hp2. simpl.
  assert (Hsame : forall v k, not_disabled (attr grp "collapsed" v w2) k
                              = not_disabled w2 k).
  { intros v k. unfold not_disabled. rewrite attrs_of_attr. simpl.
    now rewrite andb_false_r. }
  assert (Hown : not_disabled w2 (button d) = enabled).
  { unfold not_disabled, w2. rewrite attrs_of_attr, Nat.eqb_refl. simpl.
    now destruct enabled. }
  destruct (Nat.eqb (length kids) 1) eqn:Hone; simpl.
  - rewrite attrs_of_attr, Nat.eqb_refl. simpl. f_equal.
    destruct kids as [|k [|k' kids]]; try discriminate Hone.
    apply find_some in Hparent as [_ Hchild]. unfold has_child in Hchild.
    simpl in Hchild. rewrite orb_false_r in Hchild.
    apply Nat.eqb_eq in Hchild as <-.
    simpl. now rewrite Hsame, Hown, orb_false_r.
  - rewrite attrs_of_attr, Nat.eqb_refl. simpl. f_equal.
    rewrite (existsb_same _ (not_disabled w2)) by (intros k; apply Hsame).
    now rewrite existsb_filter.
Qed.

Lemma fire_disabled (tm : timer) (el : nat) (w : world) :
  attrs_of el (fire env tm w) !! "disabled"
  = match predicate_of (target tm) w, button_of (target tm) w with
    | Some q, Some bx =>
        if Nat.eqb bx el
        then Some (if eval_predicate env q (Nat.max (clock w) (deadline tm))
                   then "false" else "true")
        else attrs_of el w !! "disabled"
    | _, _ => attrs_of el w !! "disabled"
    end.
Proof. unfold fire. now rewrite recompute_disabled. Qed.

(** The timer that fires next is the earliest of those that are due. *)
Lemma first_due_min (t : nat) (ts : list timer) (x : timer) :
  first_due t ts = Some x ->
  forall y, In y ts -> (deadline y <= t)%nat -> (deadline x <= deadline y)%nat.
Proof.
  revert x. induction ts as [|z ts IH]; intros x; simpl; [discriminate|].
  destruct (first_due t ts) as [y0|] eqn:Hrest.
  - specialize (IH y0 eq_refl).
    destruct (Nat.leb_spec (deadline z) t) as [Hz|Hz]; simpl.
    + destruct (Nat.leb_spec (deadline z) (deadline y0)) as [Hzy|Hzy];
        intros [= <-] y [<-|Hin] Hy; try lia.
      * specialize (IH y Hin Hy). lia.
      * now apply IH.
    + intros [= <-] y [<-|Hin] Hy; [lia | now apply IH].
  - destruct (Nat.leb_spec (deadline z) t) as [Hz|Hz]; [|discriminate].
    intros [= <-] y [<-|Hin] Hy; [lia|].
    pose proof (first_due_None _ _ Hrest _ Hin). lia.
Qed.

(** The one object with the element [el] is [self]. *)
Lemma owners_sole (el : nat) (w : world) :
  owners el w = [self] -> forall x, button_of x w = Some el -> x = self.
Proof.
  intros Hown x Hx. unfold button_of in Hx.
  destruct (heap w !! x) as [d|] eqn:Hd; [|discriminate]. injection Hx as Hb.
  assert (Hin : In x (owners el w)).
  { unfold owners. apply (in_map fst _ (x, d)). apply filter_In. split.
    - apply list_elem_of_In. now apply elem_of_map_to_list.
    - simpl. now apply Nat.eqb_eq. }
  rewrite Hown in Hin. now destruct Hin as [<-|[]].
Qed.

Variables (b : nat) (p : predicate).

(** Firing whatever is due by [t] and the attribute [disabled] of the
    button of [self]: it changes when the timer of [self] fires, to the
    answer the predicate gives at the deadline, and not otherwise. *)
Lemma run_due_disabled (fuel t : nat) (w : world) :
  (length (pending w) <= fuel)%nat ->
  button_of self w = Some b ->
  predicate_of self w = Some p ->
  (forall x, button_of x w = Some b -> x = self) ->
  let w' := run_due fuel env t w in
  match own_timers self w with
  | [] => attrs_of b w' !! "disabled" = attrs_of b w !! "disabled"
  | [tm] =>
      if Nat.leb (deadline tm) t
      then (clock w <= deadline tm)%nat ->
           attrs_of b w' !! "disabled"
           = Some (if eval_predicate env p (deadline tm) then "false" else "true")
      else attrs_of b w' !! "disabled" = attrs_of b w !! "disabled"
  | _ => True
  end.
Proof.
  revert w. induction fuel as [|fuel IH]; intros w Hlen Hb Hp Hsole; simpl.
  - destruct (pending w) eqn:Hpend; [|simpl in Hlen; lia].
    unfold own_timers. rewrite Hpend. reflexivity.
  - destruct (first_due t (pending w)) as [tm2|] eqn:Hdue.
    + destruct (first_due_In _ _ _ Hdue) as [Hin Hd].
      destruct (fire_effect tm2 w) as (Hpend & Hh & Hc & _).
      pose proof (fire_disabled tm2 b w) as Hattr.
      set (w1 := fire env tm2 w) in *.
      assert (Hb1 : forall x, button_of x w1 = button_of x w)
        by (intros x; unfold button_of; now rewrite Hh).
      assert (Hp1 : predicate_of self w1 = Some p)
        by (unfold predicate_of in *; now rewrite Hh).
      assert (Hlen1 : (length (pending w1) <= fuel)%nat).
      { rewrite Hpend. pose proof (remove_timer_length _ _ Hin). lia. }
      assert (Hsole1 : forall x, button_of x w1 = Some b -> x = self)
        by (intros x; rewrite Hb1; apply Hsole).
      specialize (IH w1 Hlen1 (eq_trans (Hb1 self) Hb) Hp1 Hsole1).
      assert (Hown1 : own_timers self w1
                      = if Nat.eqb (target tm2) self
                        then remove_timer tm2 (own_timers self w)
                        else own_timers self w).
      { unfold own_timers. rewrite Hpend. apply filter_remove_timer. }
      destruct (Nat.eqb_spec (target tm2) self) as [Et|Et].
      * assert (Hin2 : In tm2 (own_timers self w)).
        { unfold own_timers. apply filter_In. split; [exact Hin|]. now apply Nat.eqb_eq. }
        rewrite Et, Hp, Hb, Nat.eqb_refl in Hattr.
        destruct (own_timers self w) as [|tm [|tm' rest]] eqn:Hown;
          [destruct Hin2| |exact I].
        destruct Hin2 as [->|[]].
        simpl in Hown1. rewrite (proj2 (timer_eqb_eq tm2 tm2) eq_refl) in Hown1.
        rewrite Hown1 in IH.
        destruct (Nat.leb_spec (deadline tm2) t); [|lia].
        intros Hclock. rewrite IH, Hattr. now rewrite Nat.max_r by exact Hclock.
      * assert (Hattr1 : attrs_of b w1 !! "disabled" = attrs_of b w !! "disabled").
        { rewrite Hattr. destruct (predicate_of (target tm2) w) as [q|]; [|reflexivity].
          destruct (button_of (target tm2) w) as [bx|] eqn:Hbx; [|reflexivity].
          destruct (Nat.eqb_spec bx b) as [->|Hne]; [|reflexivity].
          now apply Hsole in Hbx. }
        rewrite Hown1 in IH.
        destruct (own_timers self w) as [|tm [|tm' rest]] eqn:Hown;
          [now rewrite IH | |exact I].
        destruct (Nat.leb_spec (deadline tm) t) as [Hle|Hgt]; [|now rewrite IH].
        intros Hclock. apply IH. rewrite Hc.
        assert (Hin3 : In tm (pending w)).
        { assert (H : In tm (own_timers self w)) by (rewrite Hown; now left).
          unfold own_timers in H. now apply filter_In in H as [H _]. }
        pose proof (first_due_min _ _ _ Hdue _ Hin3 Hle). lia.
    + destruct (own_timers self w) as [|tm [|tm' rest]] eqn:Hown;
        [reflexivity | |exact I].
      destruct (Nat.leb_spec (deadline tm) t) as [Hle|Hgt]; [|reflexivity].
      assert (Hin : In tm (pending w)).
      { assert (H : In tm (own_timers self w)) by (rewrite Hown; now left).
        unfold own_timers in H. now apply filter_In in H as [H _]. }
      pose proof (first_due_None _ _ Hdue _ Hin). lia.
Qed.

Lemma elapse_disabled (d : nat) (w : world) :
  button_of self w = Some b ->
  predicate_of self w = Some p ->
  (forall x, button_of x w = Some b -> x = self) ->
  let w' := elapse env d w in
  match own_timers self w with
  | [] => attrs_of b w' !! "disabled" = attrs_of b w !! "disabled"
  | [tm] =>
      if Nat.leb (deadline tm) (clock w + d)
      then (clock w <= deadline tm)%nat ->
           attrs_of b w' !! "disabled"
           = Some (if eval_predicate env p (deadline tm) then "false" else "true")
      else attrs_of b w' !! "disabled" = attrs_of b w !! "disabled"
  | _ => True
  end.
Proof.
  intros Hb Hp Hsole.
  exact (run_due_disabled (length (pending w)) (clock w + d) w (Nat.le_refl _)
           Hb Hp Hsole).
Qed.

(** A request touches no element, and no button or predicate of an object. *)
Lemma request_frame (w : world) :
  let w' := request env self w in
  elements w' = elements w
  /\ (forall x, button_of x w' = button_of x w)
  /\ (forall x, predicate_of x w' = predicate_of x w).
Proof.
  unfold request, dynamicButton.update, dynamicButton.this, bind, modify. simpl.
  destruct (heap w !! self) as [d|] eqn:Hd; simpl; [|auto].
  assert (Hsame : heap (clearTimeout (_timer d) w) = heap w
                  /\ elements (clearTimeout (_timer d) w) = elements w)
    by (now destruct (_timer d)).
  destruct Hsame as [Hheap Helem].
  unfold dynamicButton.set_timer. simpl. rewrite Hheap, Hd. simpl.
  split; [exact Helem|].
  split; intros x; unfold button_of, predicate_of; simpl; rewrite ?Hheap;
    (destruct (decide (x = self)) as [->|Hne];
     [rewrite lookup_insert_eq, Hd; reflexivity
     | rewrite lookup_insert_ne by congruence; reflexivity]).
Qed.

(** A run of requests less than 250ms apart leaves [disabled] alone. *)
Lemma requests_disabled (gaps : list nat) (w : world) :
  button_of self w = Some b ->
  predicate_of self w = Some p ->
  (forall x, button_of x w = Some b -> x = self) ->
  armed self (clock w + 250) w ->
  Forall (fun gap => (gap < 250)%nat) gaps ->
  let w' := requests env self gaps w in
  button_of self w' = Some b
  /\ predicate_of self w' = Some p
  /\ (forall x, button_of x w' = Some b -> x = self)
  /\ attrs_of b w' !! "disabled" = attrs_of b w !! "disabled".
Proof.
  intros Hb Hp Hsole Harmed Hgaps. revert w Hb Hp Hsole Harmed.
  induction Hgaps as [|gap gaps Hgap _ IH]; intros w Hb Hp Hsole Harmed; simpl; [auto|].
  pose proof (has_predicate_of _ _ _ Hp) as Hlive.
  destruct (elapse_spec gap w Hlive) as (Hl1 & Hh1 & Hc1 & Hown1).
  pose proof (elapse_disabled gap w Hb Hp Hsole) as Hattr1.
  set (w1 := elapse env gap w) in *.
  destruct Harmed as (d & tm & Hd & Hone & Ht & Hdue).
  rewrite Hone in Hown1, Hattr1.
  destruct (Nat.leb_spec (deadline tm) (clock w + gap)); [lia|].
  destruct Hown1 as [Hone1 Hrec1].
  assert (Harmed1 : exists due, armed self due w1).
  { exists (deadline tm), d, tm. now rewrite Hh1. }
  destruct (request_arms w1 Hl1 (or_intror Harmed1)) as (Ha2 & Hl2 & Hc2 & Hrec2).
  destruct (request_frame w1) as (He2 & Hb2 & Hp2).
  set (w2 := request env self w1) in *.
  rewrite <- Hc2 in Ha2.
  assert (Hbw1 : forall x, button_of x w1 = button_of x w)
    by (intros x; unfold button_of; now rewrite Hh1).
  assert (Hpw1 : predicate_of self w1 = Some p)
    by (unfold predicate_of in *; now rewrite Hh1).
  destruct (IH w2) as (Hb3 & Hp3 & Hsole3 & Hattr3).
  - now rewrite Hb2, Hbw1.
  - now rewrite Hp2.
  - intros x. rewrite Hb2, Hbw1. apply Hsole.
  - exact Ha2.
  - repeat split; [exact Hb3 | exact Hp3 | exact Hsole3 |].
    rewrite Hattr3, <- Hattr1. unfold attrs_of. now rewrite He2.
Qed.

(** C7. A button with a predicate and no refresh pending receives a run of
    refresh requests, each less than 250ms after the one before it.
    Nothing is recomputed during the run, nor in the 250ms after its last
    request; at 250ms after the last request, and from then on, there has
    been exactly one recomputation. When the button element is the
    widget's own, its attribute [disabled] stays as it was during the run
    and the 250ms after it, and from then on it is the answer that the
    predicate gave 250ms after the last request: ["false"] for enabled,
    ["true"] for disabled. A request with the flag [true] recomputes on the
    spot, whatever timers are pending, and leaves them alone: [disabled] is
    the answer of the predicate at the time of the call, and the group of
    the button is collapsed exactly when none of its children is enabled. *)
Theorem update_debounced (gaps : list nat) (w : world) :
  button_of self w = Some b ->
  predicate_of self w = Some p ->
  own_timers self w = [] ->
  Forall (fun gap => (gap < 250)%nat) gaps ->
  let burst := requests env self gaps (request env self w) in
  let disabled := fun w' : world => attrs_of b w' !! "disabled" in
  recomputations self burst = recomputations self w
  /\ (forall d, (d < 250)%nat ->
        recomputations self (elapse env d burst) = recomputations self w)
  /\ (forall d, (250 <= d)%nat ->
        recomputations self (elapse env d burst) = S (recomputations self w))
  /\ (owners b w = [self] ->
      disabled burst = disabled w
      /\ (forall d, (d < 250)%nat -> disabled (elapse env d burst) = disabled w)
      /\ (forall d, (250 <= d)%nat ->
            disabled (elapse env d burst)
            = Some (if eval_predicate env p (clock burst + 250)
                    then "false" else "true")))
  /\ (forall w0 b0 p0,
        button_of self w0 = Some b0 ->
        predicate_of self w0 = Some p0 ->
        let forced := snd (dynamicButton.update env self true w0) in
        recomputations self forced = S (recomputations self w0)
        /\ pending forced = pending w0
        /\ attrs_of b0 forced !! "disabled"
           = Some (if eval_predicate env p0 (clock w0) then "false" else "true")
        /\ forall grp childNodes,
             parentNode b0 w0 = Some (grp, childNodes) ->
             attrs_of grp forced !! "collapsed"
             = Some (if existsb (not_disabled forced) childNodes
                     then "false" else "true")).
Proof.
  intros Hb Hp Hnone Hgaps burst disabled.
  pose proof (has_predicate_of _ _ _ Hp) as Hlive.
  destruct (request_arms w Hlive (or_introl Hnone)) as (Ha1 & Hl1 & Hc1 & Hrec1).
  destruct (request_frame w) as (He1 & Hb1 & Hp1).
  set (w1 := request env self w) in *. rewrite <- Hc1 in Ha1.
  destruct (requests_arm gaps w1 Hl1 Ha1 Hgaps) as (Ha & Hl & Hrec).
  fold burst in Ha, Hl, Hrec.
  split; [congruence|]. split; [|split; [|split]].
  - intros d Hd. destruct Ha as (d0 & tm & Hd0 & Hone & Ht & Hdue).
    destruct (elapse_spec d burst Hl) as (_ & _ & _ & Hown).
    rewrite Hone in Hown.
    destruct (Nat.leb_spec (deadline tm) (clock burst + d)); [lia|].
    destruct Hown as [_ ->]. congruence.
  - intros d Hd. destruct Ha as (d0 & tm & Hd0 & Hone & Ht & Hdue).
    destruct (elapse_spec d burst Hl) as (_ & _ & _ & Hown).
    rewrite Hone in Hown.
    destruct (Nat.leb_spec (deadline tm) (clock burst + d)); [|lia].
    destruct Hown as [_ ->]. congruence.
  - intros Hown.
    pose proof (owners_sole b w Hown) as Hsole.
    assert (Hsole1 : forall x, button_of x w1 = Some b -> x = self)
      by (intros x; rewrite Hb1; apply Hsole).
    destruct (requests_disabled gaps w1) as (Hbb & Hpb & Hsoleb & Hattr);
      [now rewrite Hb1 | now rewrite Hp1 | exact Hsole1 | exact Ha1 | exact Hgaps |].
    fold burst in Hbb, Hpb, Hsoleb, Hattr.
    assert (Hstart : disabled burst = disabled w).
    { unfold disabled. rewrite Hattr. unfold attrs_of. now rewrite He1. }
    destruct Ha as (d0 & tm & Hd0 & Hone & Ht & Hdue).
    split; [exact Hstart|]. split; intros d Hd.
    + pose proof (elapse_disabled d burst Hbb Hpb Hsoleb) as Hattr2.
      rewrite Hone in Hattr2.
      destruct (Nat.leb_spec (deadline tm) (clock burst + d)); [lia|].
      unfold disabled in *. congruence.
    + pose proof (elapse_disabled d burst Hbb Hpb Hsoleb) as Hattr2.
      rewrite Hone in Hattr2.
      destruct (Nat.leb_spec (deadline tm) (clock burst + d)); [|lia].
      unfold disabled. rewrite Hattr2 by lia. now rewrite Hdue.
  - intros w0 b0 p0 Hb0 Hp0 forced.
    destruct (recompute_effect self w0) as (Hpend & _ & _ & Hcalls).
    fold forced in Hpend, Hcalls.
    split; [|split; [exact Hpend|split]].
    + rewrite (recomputations_app self w0 forced _ Hcalls),
        (has_predicate_of _ _ _ Hp0). simpl.
      rewrite Nat.eqb_refl. simpl. lia.
    + unfold forced. rewrite recompute_disabled, Hp0, Hb0. now rewrite Nat.eqb_refl.
    + intros grp kids Hparent.
      exact (recompute_collapsed self b0 grp p0 kids w0 Hb0 Hp0 Hparent).
Qed.

End Debounce.

Lemma update_debounced_witness :
  let w := ButtonExamples.settled in
  let burst :=
    DynamicButton.requests ButtonExamples.waking 1 [100; 100; 249]%nat
      (DynamicButton.request ButtonExamples.waking 1 w) in
  DynamicButton.button_of 1 w = Some 3%nat
  /\ DynamicButton.predicate_of 1 w = Some (DynamicButton.UserPredicate 0)
  /\ DynamicButton.own_timers 1 w = []
  /\ DynamicButton.owners 3 w = [1%nat]
  /\ DynamicButton.clock burst = 749%nat
  /\ DynamicButton.attrs_of 3 w !! "disabled" = Some "true"
  /\ DynamicButton.attrs_of 3 (DynamicButton.elapse ButtonExamples.waking 249 burst)
       !! "disabled" = Some "true"
  /\ DynamicButton.attrs_of 3 (DynamicButton.elapse ButtonExamples.waking 250 burst)
       !! "disabled" = Some "false"
  /\ DynamicButton.recomputations 1
       (DynamicButton.elapse ButtonExamples.waking 250 burst)
     = S (DynamicButton.recomputations 1 w).
Proof.
  intros w burst.
  assert (H1 : DynamicButton.button_of 1 w = Some 3%nat) by (vm_compute; reflexivity).
  assert (H2 : DynamicButton.predicate_of 1 w = Some (DynamicButton.UserPredicate 0))
    by (vm_compute; reflexivity).
  assert (H3 : DynamicButton.own_timers 1 w = []) by (vm_compute; reflexivity).
  assert (H4 : Forall (fun gap => (gap < 250)%nat) [100; 100; 249]%nat)
    by (repeat constructor; lia).
  assert (H5 : DynamicButton.owners 3 w = [1%nat]) by (vm_compute; reflexivity).
  assert (H6 : DynamicButton.clock burst = 749%nat) by (vm_compute; reflexivity).
  assert (H7 : DynamicButton.attrs_of 3 w !! "disabled" = Some "true")
    by (vm_compute; reflexivity).
  destruct (update_debounced ButtonExamples.waking 1 3 (DynamicButton.UserPredicate 0)
              [100; 100; 249]%nat w H1 H2 H3 H4)
    as (_ & _ & Hcount & Hshown & _).
  destruct (Hshown H5) as (_ & Hbefore & Hafter).
  split; [exact H1|]. split; [exact H2|]. split; [exact H3|]. split; [exact H5|].
  split; [exact H6|]. split; [exact H7|]. split; [|split].
  - etransitivity; [apply (Hbefore 249%nat); lia | exact H7].
  - etransitivity; [exact (Hafter 250%nat (Nat.le_refl 250))|].
    fold burst. rewrite H6. reflexivity.
  - exact (Hcount 250%nat (Nat.le_refl 250)).
Defined.

(** ** More on the dispatcher: the special openers *)
Section Openers.
Import JsString Open Observe.

(** X1. A URI that, once converted and without its line number, ends in
    [.kpf] or [.komodoproject] goes to [ko.projects.open] with the
    skip-recent argument of the caller: nothing is asked of the view manager,
    the flag stays, and a throw of the project loader is logged. *)
Theorem URIAtLine_project fuel env uri lineno viewType skip callback w u :
  pathToURI env uri = Ok u ->
  is_project_uri (fst (attached_lineno u lineno)) = true ->
  let uri' := fst (attached_lineno u lineno) in
  URIAtLine fuel env uri lineno viewType skip callback w
  = (Val None,
     {| skipNextPrompt := skipNextPrompt w;
        trace := (trace w ++ [EvPathToURI uri; EvProjectsOpen uri' skip]
                  ++ logged (projects_open env uri' skip))%list |}).
Proof.
  intros Hu Hp uri'.
  rewrite URIAtLine_catch, (URIAtLine_try_converted _ _ _ _ _ _ _ _ _ Hu).
  subst uri'. unfold dispatch. rewrite Hp. unfold call, log_event.
  destruct (projects_open env _ skip) as [[]|e]; simpl; now rewrite <- !app_assoc.
Qed.

Lemma URIAtLine_project_witness :
  is_project_uri "site.KPF" = true
  /\ URIAtLine 0 Examples.calm "site.KPF" None None (Some true) None Examples.fresh
     = (Val None,
        {| skipNextPrompt := false;
           trace := [EvPathToURI "site.KPF"; EvProjectsOpen "site.KPF" (Some true)] |}).
Proof.
  split; [reflexivity|].
  exact (URIAtLine_project 0 Examples.calm "site.KPF" None None (Some true) None
           Examples.fresh "site.KPF" eq_refl eq_refl).
Defined.

(** X2. An add-on package ([.xpi], and no project file) goes to the
    installer, once. When the installer throws, the user gets one alert with
    the bundle's text, a space and the exception; a throw of the alert itself
    is logged. Nothing is asked of the view manager and the flag stays. *)
Theorem URIAtLine_addon fuel env uri lineno viewType skip callback w u :
  pathToURI env uri = Ok u ->
  is_project_uri (fst (attached_lineno u lineno)) = false ->
  ends_with_ci ".xpi" (fst (attached_lineno u lineno)) = true ->
  let uri' := fst (attached_lineno u lineno) in
  let alert (ex : exn) :=
    GetStringFromName env "installingExtensionIsCurrentlyDisabled"
    +:+ " " +:+ exn_text ex in
  URIAtLine fuel env uri lineno viewType skip callback w
  = (Val None,
     {| skipNextPrompt := skipNextPrompt w;
        trace :=
          (trace w ++ [EvPathToURI uri; EvInstallAddon uri']
           ++ match installPackageByUrl env uri' with
              | Ok _ => []
              | Throw ex =>
                  EvDialogsAlert (alert ex) :: logged (dialogs_alert env (alert ex))
              end)%list |}).
Proof.
  intros Hu Hp Hx uri' alert.
  rewrite URIAtLine_catch, (URIAtLine_try_converted _ _ _ _ _ _ _ _ _ Hu).
  unfold dispatch. rewrite Hp, Hx. fold uri'.
  unfold try_catch, _installAddon, call, log_event.
  destruct (installPackageByUrl env uri') as [[]|ex]; simpl.
  - now rewrite <- !app_assoc.
  - fold (alert ex). destruct (dialogs_alert env (alert ex)) as [[]|e]; simpl;
      now rewrite <- !app_assoc.
Qed.

Lemma URIAtLine_addon_witness :
  ends_with_ci ".xpi" "tool.xpi" = true
  /\ URIAtLine 0 Examples.calm "tool.xpi" None None None None Examples.fresh
     = (Val None,
        {| skipNextPrompt := false;
           trace := [EvPathToURI "tool.xpi"; EvInstallAddon "tool.xpi"] |}).
Proof.
  split; [reflexivity|].
  exact (URIAtLine_addon 0 Examples.calm "tool.xpi" None None None None
           Examples.fresh "tool.xpi" eq_refl eq_refl eq_refl).
Defined.

End Openers.

(** ** More on the dispatcher: databases, line numbers, requests *)
Section Matching.
Import JsString Open Observe.

Lemma lastIndexOf_char_split (c : ascii) (l : list ascii) :
  (0 <= lastIndexOf_char c l)%Z ->
  l = (take (Z.to_nat (lastIndexOf_char c l)) l
       ++ c :: drop (S (Z.to_nat (lastIndexOf_char c l))) l)%list.
Proof.
  induction l as [|a l IH]; simpl lastIndexOf_char; [lia|].
  destruct (Z.leb_spec 0 (lastIndexOf_char c l)) as [Hr|Hr].
  - intros _. replace (Z.to_nat (lastIndexOf_char c l + 1))
      with (S (Z.to_nat (lastIndexOf_char c l))) by lia.
    simpl. f_equal. now apply IH.
  - destruct (Ascii.eqb_spec a c) as [->|]; [intros _|lia]. reflexivity.
Qed.

Lemma lastIndexOf_char_tail (c : ascii) (l : list ascii) :
  (0 <= lastIndexOf_char c l)%Z ->
  lastIndexOf_char c (drop (S (Z.to_nat (lastIndexOf_char c l))) l) = (-1)%Z.
Proof.
  induction l as [|a l IH]; simpl lastIndexOf_char; [lia|].
  destruct (Z.leb_spec 0 (lastIndexOf_char c l)) as [Hr|Hr].
  - intros _. replace (Z.to_nat (lastIndexOf_char c l + 1))
      with (S (Z.to_nat (lastIndexOf_char c l))) by lia.
    simpl. now apply IH.
  - destruct (Ascii.eqb_spec a c) as [->|]; [intros _|lia]. simpl. rewrite drop_0.
    pose proof (lastIndexOf_char_bounds c l). lia.
Qed.

(** X3. [loadSqliteDatabase] hands a URI to the database explorer exactly
    when the explorer is there and the URI is some text, a dot, and one of
    [db], [sqlite], [sqlite3] in lower case; then it returns what the
    explorer returns. In every other case it returns [false] and does
    nothing. *)
Theorem loadSqliteDatabase_handles env uri w :
  let database :=
    exists p e, uri = p +:+ "." +:+ e /\ In e ["db"; "sqlite"; "sqlite3"] in
  (dbexplorer_viewManager env = true -> database ->
   loadSqliteDatabase env uri w
   = call (EvAddSqliteDatabase uri) (addSqliteDatabaseFromURI env uri) w)
  /\ (dbexplorer_viewManager env = false \/ ~ database ->
      loadSqliteDatabase env uri w = (Val false, w)).
Proof.
  intros database. unfold loadSqliteDatabase. split.
  - intros Hdb (p & e & -> & He). rewrite Hdb. simpl negb. cbv iota.
    assert (Hlast : lastIndexOf "." (p +:+ "." +:+ e) = Z.of_nat (length (chars p))).
    { unfold lastIndexOf. rewrite !chars_app. apply lastIndexOf_char_app.
      simpl in He. now destruct He as [<-|[<-|[<-|[]]]]. }
    assert (Hlen : str_length (p +:+ "." +:+ e)
                   = (Z.of_nat (length (chars p)) + 1 + Z.of_nat (length (chars e)))%Z).
    { unfold str_length. rewrite <- chars_length, !chars_app, !length_app. simpl. lia. }
    assert (He2 : (2 <= length (chars e))%nat)
      by (simpl in He; destruct He as [<-|[<-|[<-|[]]]]; simpl; lia).
    rewrite Hlast, Hlen.
    destruct (Z.eqb_spec (Z.of_nat (length (chars p))) (-1)); [lia|].
    destruct (Z.eqb_spec (Z.of_nat (length (chars p)))
                (Z.of_nat (length (chars p)) + 1 + Z.of_nat (length (chars e)) - 1));
      [lia|]. simpl orb. cbv iota.
    assert (Hext : substr (p +:+ "." +:+ e) (Z.of_nat (length (chars p)) + 1) = e).
    { unfold substr. rewrite !chars_app. simpl chars at 2.
      replace (chars p ++ chars "." ++ chars e)%list
        with ((chars p ++ ["."%char]) ++ chars e)%list by now rewrite <- app_assoc.
      rewrite drop_app_length'; [apply text_chars|]. rewrite length_app. simpl. lia. }
    rewrite Hext.
    simpl in He. now destruct He as [<-|[<-|[<-|[]]]].
  - intros [Hno|Hnot]; [now rewrite Hno|].
    destruct (dbexplorer_viewManager env); [|reflexivity]. simpl negb. cbv iota.
    destruct (Z.eqb_spec (lastIndexOf "." uri) (-1)) as [|Hn1]; [reflexivity|].
    destruct (Z.eqb_spec (lastIndexOf "." uri) (str_length uri - 1)); [reflexivity|].
    unfold orb. cbv iota.
    match goal with
    | |- context [existsb ?f ?l] => destruct (existsb f l) eqn:Hex
    end; [|reflexivity]. exfalso. apply Hnot.
    unfold lastIndexOf in *. pose proof (lastIndexOf_char_bounds "." (chars uri)) as Hb.
    assert (Hk : (0 <= lastIndexOf_char "." (chars uri))%Z) by lia.
    pose proof (lastIndexOf_char_split "." (chars uri) Hk) as Hsplit.
    set (k := lastIndexOf_char "." (chars uri)) in *.
    exists (text (take (Z.to_nat k) (chars uri))), (substr uri (k + 1)). split.
    + rewrite <- (text_chars uri) at 1. rewrite Hsplit at 1.
      rewrite <- (text_chars (_ +:+ _)), !chars_app, !chars_text. unfold substr.
      rewrite chars_text. do 2 f_equal. change (chars ".") with ["."%char]. simpl.
      do 2 f_equal. lia.
    + apply existsb_exists in Hex as (x & Hin & Hx). apply String.eqb_eq in Hx.
      now rewrite Hx.
Qed.

Lemma loadSqliteDatabase_handles_witness :
  loadSqliteDatabase Examples.calm "file:///data/app.sqlite" Examples.fresh
  = (Val true,
     {| skipNextPrompt := false;
        trace := [EvAddSqliteDatabase "file:///data/app.sqlite"] |})
  /\ loadSqliteDatabase Examples.calm "file:///data/app.DB" Examples.fresh
     = (Val false, Examples.fresh).
Proof.
  split.
  - apply (proj1 (loadSqliteDatabase_handles Examples.calm "file:///data/app.sqlite"
                    Examples.fresh)); [reflexivity|].
    exists "file:///data/app", "sqlite". split; [reflexivity | simpl; tauto].
  - apply (proj2 (loadSqliteDatabase_handles Examples.calm "file:///data/app.DB"
                    Examples.fresh)).
    right. intros (p & e & Heq & He).
    apply (f_equal chars) in Heq. rewrite !chars_app in Heq.
    apply (f_equal (@rev _)) in Heq. rewrite !rev_app_distr in Heq.
    simpl in He. destruct He as [<-|[<-|[<-|[]]]]; simpl in Heq; discriminate Heq.
Defined.

Lemma starts_with_app (alt rest : list ascii) :
  starts_with alt rest = true -> rest = (alt ++ drop (length alt) rest)%list.
Proof.
  revert rest. induction alt as [|a alt IH]; intros [|b rest]; simpl; try easy.
  intros [Hab H]%andb_prop. apply Ascii.eqb_eq in Hab as ->. f_equal. now apply IH.
Qed.

Lemma match_separator_digits_sound (alts : list (list ascii)) (rest d : list ascii) :
  match_separator_digits alts rest = Some d ->
  exists alt, In alt alts /\ rest = (alt ++ d)%list /\ digits_to_end d = true.
Proof.
  induction alts as [|alt alts IH]; simpl; [discriminate|].
  destruct (starts_with alt rest && digits_to_end (drop (length alt) rest)) eqn:E.
  - intros [= <-]. apply andb_prop in E as [Hs Hd].
    exists alt. split; [now left|]. split; [now apply starts_with_app | exact Hd].
  - intros H. destruct (IH H) as (alt' & Hin & Hr & Hd). exists alt'. auto.
Qed.

Lemma exec_from_sound (k : nat) (l p d : list ascii) :
  exec_from k l = Some (p, d) ->
  exists alt,
    In alt separators /\ l = (p ++ alt ++ d)%list
    /\ digits_to_end d = true /\ single_line p = true.
Proof.
  induction k as [|k IH]; rewrite exec_from_unfold;
    (destruct (single_line (take _ l)) eqn:Hp;
     [destruct (match_separator_digits separators (drop _ l)) as [d'|] eqn:Hm|]);
    try discriminate; try exact IH.
  all: intros [= <- <-];
    destruct (match_separator_digits_sound _ _ _ Hm) as (alt & Hin & Hr & Hd);
    exists alt; (split; [exact Hin|]); (split; [|now split]);
    now rewrite <- Hr, take_drop.
Qed.

(** X4. [fileLineNoRE] matches a URI exactly when it is a text without line
    terminators, one of the separators [#], [:], [%23], [%3A] (this case
    only) and a non-empty run of digits, and the groups it yields are that
    text and these digits: nothing else is ever cut off a URI as a line
    number. *)
Theorem fileLineNoRE_matches (uri path digits : string) :
  fileLineNoRE uri = Some (path, digits)
  <-> (exists sep,
         In sep ["#"; ":"; "%23"; "%3A"]
         /\ uri = path +:+ sep +:+ digits
         /\ single_line (chars path) = true
         /\ digits_to_end (chars digits) = true).
Proof.
  split.
  - unfold fileLineNoRE.
    destruct (exec_from (length (chars uri)) (chars uri)) as [[p d]|] eqn:E;
      [|discriminate].
    intros [= <- <-]. destruct (exec_from_sound _ _ _ _ E) as (alt & Hin & Hl & Hd & Hp).
    exists (text alt). rewrite !chars_text. repeat split; [| |exact Hp|exact Hd].
    + simpl in Hin. destruct Hin as [<-|[<-|[<-|[<-|[]]]]]; simpl; tauto.
    + rewrite <- (text_chars uri), Hl, <- (text_chars (_ +:+ _)).
      now rewrite !chars_app, !chars_text.
  - intros (sep & Hsep & -> & Hp & Hd). apply fileLineNoRE_suffix; [|exact Hp|exact Hd].
    simpl in Hsep |- *. destruct Hsep as [<-|[<-|[<-|[<-|[]]]]]; simpl; tauto.
Qed.

Lemma fileLineNoRE_matches_witness :
  fileLineNoRE "file:///a.txt%3A7" = Some ("file:///a.txt", "7")
  /\ fileLineNoRE "file:///a.txt%3a7" = None.
Proof.
  split.
  - apply (proj2 (fileLineNoRE_matches "file:///a.txt%3A7" "file:///a.txt" "7")).
    exists "%3A". repeat split; simpl; tauto.
  - destruct (fileLineNoRE "file:///a.txt%3a7") as [[p d]|] eqn:E; [|reflexivity].
    discriminate E.
Defined.

Lemma quiet_no_requests (evs : list event) :
  forallb quiet_event evs = true ->
  List.filter is_open_request evs = [] /\ List.filter is_callback evs = []
  /\ opened_uris evs = [].
Proof.
  induction evs as [|ev evs IH]; [easy|]. simpl. intros [Hev Hevs]%andb_prop.
  destruct (IH Hevs) as (H1 & H2 & H3). rewrite H1, H2, H3. now destruct ev.
Qed.

(** X5. One call of [URIAtLine] converts its argument once, sends at most
    one request to the view manager, and calls no callback itself, whatever
    the platform does. *)
Theorem URIAtLine_one_request fuel env uri lineno viewType skip callback w :
  exists evs,
    trace (snd (URIAtLine fuel env uri lineno viewType skip callback w))
    = (trace w ++ evs)%list
    /\ opened_uris evs = [uri]
    /\ (length (List.filter is_open_request evs) <= 1)%nat
    /\ List.filter is_callback evs = [].
Proof.
  rewrite URIAtLine_catch. destruct (pathToURI env uri) as [u|e0] eqn:Hu.
  - rewrite (URIAtLine_try_converted _ _ _ _ _ _ _ _ _ Hu).
    set (w0 := log_event (EvPathToURI uri) w).
    destruct (dispatch_shape fuel env (fst (attached_lineno u lineno))
                (snd (attached_lineno u lineno)) viewType skip callback w0)
      as (evs & Ht & Hs).
    assert (Hevs : opened_uris evs = []
                   /\ (length (List.filter is_open_request evs) <= 1)%nat
                   /\ List.filter is_callback evs = []).
    { destruct Hs as [Hq|(evs0 & vt & -> & Hq & _)].
      - destruct (quiet_no_requests _ Hq) as (-> & -> & ->). simpl. auto.
      - destruct (quiet_no_requests _ Hq) as (H1 & H2 & H3).
        rewrite opened_uris_app, !List.filter_app, H1, H2, H3. unfold open_request.
        destruct (snd (attached_lineno u lineno)) as [l|];
          [destruct (lineno_truthy (Some l))|]; simpl; auto. }
    destruct Hevs as (Ho & Hr & Hc).
    destruct (dispatch _ _ _ _ _ _ _ w0) as [[[]|e|] w1]; simpl in Ht |- *.
    + exists (EvPathToURI uri :: evs). simpl. rewrite Ho, Hc, Ht. simpl.
      now rewrite <- app_assoc.
    + exists (EvPathToURI uri :: evs ++ [EvLogException e])%list. simpl.
      rewrite opened_uris_app, !List.filter_app, Ho, Hc, Ht. simpl.
      rewrite <- !app_assoc, app_nil_r. auto.
    + exists (EvPathToURI uri :: evs). simpl. rewrite Ho, Hc, Ht. simpl.
      now rewrite <- app_assoc.
  - unfold URIAtLine_try, bind, call. rewrite Hu. simpl.
    exists [EvPathToURI uri; EvLogException e0]. simpl. rewrite <- app_assoc. auto.
Qed.

End Matching.

(** ** More on the dispatcher: the three-way prompts *)
Section Prompts.
Import JsString Open Observe.

(** The default branch with the flag not set: the prompts decide. *)
Lemma open_document_prompting fuel env uri lineno viewType callback w :
  skipNextPrompt w = false ->
  open_document fuel env uri lineno viewType callback w
  = match
      prompts fuel env uri viewType
        [GetStringFromName env "OK.customButtonLabel";
         GetStringFromName env "openAsText.customButtonLabel";
         GetStringFromName env "Cancel.customButtonLabel"]
        (removeAmpersands
           [GetStringFromName env "OK.customButtonLabel";
            GetStringFromName env "openAsText.customButtonLabel";
            GetStringFromName env "Cancel.customButtonLabel"]) w
    with
    | (Val Return, w1) => (Val tt, w1)
    | (Val (Continue viewType'), w1) =>
        open_file env uri lineno viewType' callback
          {| skipNextPrompt := false; trace := trace w1 |}
    | (Exc e, w1) => (Exc e, w1)
    | (Diverge, w1) => (Diverge, w1)
    end.
Proof.
  intros Hskip. unfold open_document, bind, get_skipNextPrompt. rewrite Hskip. simpl.
  now destruct (prompts _ _ _ _ _ _ w) as [[[|vt]|e|] w1].
Qed.

(** X6. A [.sublime-snippet] file with the flag not set: the user is asked
    once. On Cancel (or a closed dialog) nothing else happens; on the first
    button the file's path goes to the snippet importer and no view is
    opened; on any other answer the file is opened as a document with the
    view type of the caller. A throw on the way is logged. *)
Theorem URIAtLine_snippet fuel env uri lineno viewType skip callback w u answer :
  skipNextPrompt w = false ->
  pathToURI env uri = Ok u ->
  ends_with_ci ".sublime-snippet" (fst (attached_lineno u lineno)) = true ->
  let uri' := fst (attached_lineno u lineno) in
  let lineno' := snd (attached_lineno u lineno) in
  let buttons :=
    [GetStringFromName env "OK.customButtonLabel";
     GetStringFromName env "openAsText.customButtonLabel";
     GetStringFromName env "Cancel.customButtonLabel"] in
  let prompt := GetStringFromName env "importSublimeFileAsTool.prompt" in
  let title := GetStringFromName env "openingSublimeFile.label" in
  customButtons env prompt buttons title = Ok answer ->
  URIAtLine fuel env uri lineno viewType skip callback w
  = (Val None,
     {| skipNextPrompt := false;
        trace :=
          (trace w ++ EvPathToURI uri :: EvCustomButtons prompt buttons title ::
             if declined answer (removeAmpersands buttons) then []
             else if is_response answer (removeAmpersands buttons) 0 then
               EvURIToPath uri' ::
               match URIToPath env uri' with
               | Ok path =>
                   EvImportSublimeSnippet path
                   :: logged (importSublimeSnippet_dragDrop env path)
               | Throw e => [EvLogException e]
               end
             else
               open_request uri' lineno' viewType callback
               :: logged (open_answer env uri' lineno' viewType callback))%list |}).
Proof.
  intros Hskip Hu Hends uri' lineno' buttons prompt title Hanswer.
  rewrite URIAtLine_catch, (URIAtLine_try_converted _ _ _ _ _ _ _ _ _ Hu).
  fold uri' lineno'.
  rewrite (dispatch_document fuel env (chars "sublime-snippet"))
    by (reflexivity || exact Hends).
  rewrite open_document_prompting by exact Hskip. fold buttons.
  unfold prompts.
  rewrite (ends_with_ci_exclusive ".sublime-snippet" ".ksf" uri')
    by (reflexivity || exact Hends).
  fold uri' in Hends. rewrite Hends. unfold prompt_snippet. fold prompt title.
  unfold bind at 1. unfold call at 1. rewrite Hanswer. cbv iota beta.
  destruct w as [flag tr]. simpl in Hskip. subst flag.
  destruct (declined answer (removeAmpersands buttons));
    [unfold ret, log_event; simpl; now rewrite <- !app_assoc|].
  destruct (is_response answer (removeAmpersands buttons) 0).
  - unfold bind, call, log_event. simpl.
    destruct (URIToPath env uri') as [path|e]; simpl; [|now rewrite <- !app_assoc].
    destruct (importSublimeSnippet_dragDrop env path) as [[]|e]; simpl;
      now rewrite <- !app_assoc.
  - unfold ret, open_file, call, log_event. simpl.
    destruct (open_answer env uri' lineno' viewType callback) as [[]|e]; simpl;
      now rewrite <- !app_assoc.
Qed.

Lemma URIAtLine_snippet_witness :
  skipNextPrompt Examples.fresh = false
  /\ URIAtLine 0 (MoreObserve.answering (Some "OK.customButtonLabel") Examples.calm)
       "for.sublime-snippet" None None None None Examples.fresh
     = (Val None,
        {| skipNextPrompt := false;
           trace :=
             [EvPathToURI "for.sublime-snippet";
              EvCustomButtons "importSublimeFileAsTool.prompt"
                ["OK.customButtonLabel"; "openAsText.customButtonLabel";
                 "Cancel.customButtonLabel"]
                "openingSublimeFile.label";
              EvURIToPath "for.sublime-snippet";
              EvImportSublimeSnippet "for.sublime-snippet"] |}).
Proof.
  split; [reflexivity|].
  exact (URIAtLine_snippet 0 (MoreObserve.answering (Some "OK.customButtonLabel")
                                Examples.calm)
           "for.sublime-snippet" None None None None Examples.fresh
           "for.sublime-snippet" (Some "OK.customButtonLabel")
           eq_refl eq_refl eq_refl eq_refl).
Defined.

(** X7. A [.komodotool] or [.ktf] file with the flag not set: the same three
    ways, with the tool importer in the place of the snippet importer. *)
Theorem URIAtLine_tool fuel env uri lineno viewType skip callback w u answer :
  skipNextPrompt w = false ->
  pathToURI env uri = Ok u ->
  is_tool_uri (fst (attached_lineno u lineno)) = true ->
  let uri' := fst (attached_lineno u lineno) in
  let lineno' := snd (attached_lineno u lineno) in
  let buttons :=
    [GetStringFromName env "OK.customButtonLabel";
     GetStringFromName env "openAsText.customButtonLabel";
     GetStringFromName env "Cancel.customButtonLabel"] in
  let prompt := GetStringFromName env "importFileAsKomodoTool.prompt" in
  let title := GetStringFromName env "openingKomodoToolFile.label" in
  customButtons env prompt buttons title = Ok answer ->
  URIAtLine fuel env uri lineno viewType skip callback w
  = (Val None,
     {| skipNextPrompt := false;
        trace :=
          (trace w ++ EvPathToURI uri :: EvCustomButtons prompt buttons title ::
             if declined answer (removeAmpersands buttons) then []
             else if is_response answer (removeAmpersands buttons) 0 then
               EvURIToPath uri' ::
               match URIToPath env uri' with
               | Ok path =>
                   EvImportFiles path
                   :: logged (importFilesFromFileSystem_dragDrop env path)
               | Throw e => [EvLogException e]
               end
             else
               open_request uri' lineno' viewType callback
               :: logged (open_answer env uri' lineno' viewType callback))%list |}).
Proof.
  intros Hskip Hu Htool uri' lineno' buttons prompt title Hanswer.
  rewrite URIAtLine_catch, (URIAtLine_try_converted _ _ _ _ _ _ _ _ _ Hu).
  fold uri' lineno'. fold uri' in Htool.
  assert (Hdoc : dispatch fuel env uri' lineno' viewType skip callback
                   (log_event (EvPathToURI uri) w)
                 = open_document fuel env uri' lineno' viewType callback
                     (log_event (EvPathToURI uri) w)
                 /\ ends_with_ci ".ksf" uri' = false
                 /\ ends_with_ci ".sublime-snippet" uri' = false).
  { unfold is_tool_uri in Htool. apply orb_prop in Htool as [H|H].
    - split; [apply (dispatch_document fuel env (chars "komodotool")); [reflexivity|exact H]|].
      split; apply (ends_with_ci_exclusive ".komodotool"); (reflexivity || exact H).
    - split; [apply (dispatch_document fuel env (chars "ktf")); [reflexivity|exact H]|].
      split; apply (ends_with_ci_exclusive ".ktf"); (reflexivity || exact H). }
  destruct Hdoc as (-> & Hksf & Hsnip).
  rewrite open_document_prompting by exact Hskip. fold buttons.
  unfold prompts. rewrite Hksf, Hsnip, Htool. unfold prompt_tool. fold prompt title.
  unfold bind at 1. unfold call at 1. rewrite Hanswer. cbv iota beta.
  destruct w as [flag tr]. simpl in Hskip. subst flag.
  destruct (declined answer (removeAmpersands buttons));
    [unfold ret, log_event; simpl; now rewrite <- !app_assoc|].
  destruct (is_response answer (removeAmpersands buttons) 0).
  - unfold bind, call, log_event. simpl.
    destruct (URIToPath env uri') as [path|e]; simpl; [|now rewrite <- !app_assoc].
    destruct (importFilesFromFileSystem_dragDrop env path) as [[]|e]; simpl;
      now rewrite <- !app_assoc.
  - unfold ret, open_file, call, log_event. simpl.
    destruct (open_answer env uri' lineno' viewType callback) as [[]|e]; simpl;
      now rewrite <- !app_assoc.
Qed.

Lemma URIAtLine_tool_witness :
  is_tool_uri "macro.KomodoTool" = true
  /\ URIAtLine 0 (MoreObserve.answering (Some "openAsText.customButtonLabel")
                    Examples.calm)
       "macro.KomodoTool:3" None None None None Examples.fresh
     = (Val None,
        {| skipNextPrompt := false;
           trace :=
             [EvPathToURI "macro.KomodoTool:3";
              EvCustomButtons "importFileAsKomodoTool.prompt"
                ["OK.customButtonLabel"; "openAsText.customButtonLabel";
                 "Cancel.customButtonLabel"]
                "openingKomodoToolFile.label";
              EvFileOpenAtLineAsync "macro.KomodoTool" (LineStr "3") None None] |}).
Proof.
  split; [reflexivity|].
  exact (URIAtLine_tool 0 (MoreObserve.answering (Some "openAsText.customButtonLabel")
                             Examples.calm)
           "macro.KomodoTool:3" None None None None Examples.fresh
           "macro.KomodoTool:3" (Some "openAsText.customButtonLabel")
           eq_refl eq_refl eq_refl eq_refl).
Defined.

End Prompts.

(** ** More on the dispatcher: the one-shot flag *)
Section Flag.
Import JsString Open Observe MoreObserve.

Lemma quietly_ret {A} (a : A) : quietly (ret a).
Proof. intros w. exists []. simpl. now rewrite app_nil_r. Qed.

Lemma quietly_diverge {A} : quietly (@diverge A).
Proof. intros w. exists []. simpl. now rewrite app_nil_r. Qed.

Lemma quietly_emit ev : quiet_event ev = true -> quietly (emit ev).
Proof. intros H w. exists [ev]. simpl. now rewrite H. Qed.

Lemma quietly_call {A} ev (r : result A) : quiet_event ev = true -> quietly (call ev r).
Proof. intros H w. exists [ev]. simpl. now rewrite H. Qed.

Lemma quietly_bind {A B} (c : M A) (k : A -> M B) :
  quietly c -> (forall a, quietly (k a)) -> quietly (bind c k).
Proof.
  intros Hc Hk w. unfold bind. destruct (Hc w) as (evs & Ht & HP & Hf).
  destruct (c w) as [[a|e|] w1]; simpl in Ht, Hf; [|now exists evs..].
  destruct (Hk a w1) as (evs' & Ht' & HP' & Hf'). exists (evs ++ evs')%list.
  now rewrite Ht', Ht, app_assoc, forallb_app, HP, HP', Hf', Hf.
Qed.

Lemma quietly_try_catch {A} (c : M A) (h : exn -> M A) :
  quietly c -> (forall e, quietly (h e)) -> quietly (try_catch c h).
Proof.
  intros Hc Hh w. unfold try_catch. destruct (Hc w) as (evs & Ht & HP & Hf).
  destruct (c w) as [[a|e|] w1]; simpl in Ht, Hf; [now exists evs| |now exists evs].
  destruct (Hh e w1) as (evs' & Ht' & HP' & Hf'). exists (evs ++ evs')%list.
  now rewrite Ht', Ht, app_assoc, forallb_app, HP, HP', Hf', Hf.
Qed.

Ltac quietly_auto :=
  repeat first
    [ apply quietly_ret | apply quietly_diverge
    | apply quietly_emit; reflexivity | apply quietly_call; reflexivity
    | apply quietly_bind; [|intros ?] | apply quietly_try_catch; [|intros ?]
    | match goal with
      | |- quietly (if ?b then _ else _) => destruct b
      | |- quietly (match ?x with _ => _ end) => destruct x
      end ].

Lemma loadSqliteDatabase_quietly env uri : quietly (loadSqliteDatabase env uri).
Proof. unfold loadSqliteDatabase. quietly_auto. Qed.

Lemma _checkKSFBaseName_loop_quietly fuel env names ext name :
  quietly (_checkKSFBaseName_loop fuel env names ext name).
Proof.
  revert name. induction fuel as [|fuel IH]; intros name; simpl; quietly_auto.
  all: apply IH.
Qed.

Lemma _checkKSFBaseName_quietly fuel env uri : quietly (_checkKSFBaseName fuel env uri).
Proof.
  unfold _checkKSFBaseName. quietly_auto. apply _checkKSFBaseName_loop_quietly.
Qed.

Lemma prompts_quietly fuel env uri viewType buttons responses :
  quietly (prompts fuel env uri viewType buttons responses).
Proof.
  unfold prompts, prompt_scheme, prompt_snippet, prompt_tool.
  quietly_auto.
  all: first [apply _checkKSFBaseName_quietly | apply _checkKSFBaseName_loop_quietly].
Qed.

(** X8. The flag is a one-shot: a call of [URIAtLine] leaves
    [skipNextPrompt] false when it sent a request to the view manager and
    leaves it as it was when it sent none. It never sets it. *)
Theorem URIAtLine_resets_flag_on_request fuel env uri lineno viewType skip callback w :
  exists evs,
    trace (snd (URIAtLine fuel env uri lineno viewType skip callback w))
    = (trace w ++ evs)%list
    /\ skipNextPrompt (snd (URIAtLine fuel env uri lineno viewType skip callback w))
       = if existsb is_open_request evs then false else skipNextPrompt w.
Proof.
  assert (Hnone : forall evs, forallb quiet_event evs = true ->
                              existsb is_open_request evs = false).
  { intros evs H. induction evs as [|ev evs IH]; [reflexivity|]. simpl in *.
    apply andb_prop in H as [Hev Hevs]. rewrite (IH Hevs). now destruct ev. }
  assert (Hlift : forall (c : M unit) w0, quietly c ->
            exists evs,
              trace (snd (c w0)) = (trace w0 ++ evs)%list
              /\ skipNextPrompt (snd (c w0))
                 = if existsb is_open_request evs then false else skipNextPrompt w0).
  { intros c w0 Hc. destruct (Hc w0) as (evs & Ht & Hq & Hf). exists evs.
    now rewrite (Hnone _ Hq). }
  assert (Hreq : forall u l vt,
            existsb is_open_request [open_request u l vt callback] = true).
  { intros u l vt. unfold open_request.
    now destruct l as [l|]; [destruct (lineno_truthy (Some l))|]. }
  assert (Hdoc : forall u l w0,
            exists evs,
              trace (snd (open_document fuel env u l viewType callback w0))
              = (trace w0 ++ evs)%list
              /\ skipNextPrompt (snd (open_document fuel env u l viewType callback w0))
                 = if existsb is_open_request evs then false else skipNextPrompt w0).
  { intros u l w0. unfold open_document, bind, get_skipNextPrompt.
    set (buttons := [_; _; _]).
    destruct (skipNextPrompt w0) eqn:Hflag; cbn [negb].
    - exists [open_request u l viewType callback]. rewrite Hreq. now split.
    - destruct (prompts_quietly fuel env u viewType buttons (removeAmpersands buttons) w0)
        as (evs & Ht & Hq & Hf).
      destruct (prompts fuel env u viewType buttons (removeAmpersands buttons) w0)
        as [[[|vt]|e|] w1]; simpl in Ht, Hf;
        try (exists evs; rewrite (Hnone _ Hq); split; [exact Ht | simpl; congruence]).
      exists (evs ++ [open_request u l vt callback])%list.
      rewrite existsb_app, Hreq, orb_true_r. unfold open_file, call. simpl.
      split; [|reflexivity]. now rewrite Ht, app_assoc. }
  assert (Hdispatch : forall u l w0,
            exists evs,
              trace (snd (dispatch fuel env u l viewType skip callback w0))
              = (trace w0 ++ evs)%list
              /\ skipNextPrompt (snd (dispatch fuel env u l viewType skip callback w0))
                 = if existsb is_open_request evs then false else skipNextPrompt w0).
  { intros u l w0. unfold dispatch.
    destruct (is_project_uri u); [apply Hlift; now apply quietly_call|].
    destruct (ends_with_ci ".xpi" u).
    { apply Hlift. apply quietly_try_catch; [now apply quietly_call|].
      intros e. now apply quietly_call. }
    destruct (ends_with_ci ".kpz" u); [apply Hlift; now apply quietly_call|].
    unfold bind.
    destruct (loadSqliteDatabase_quietly env u w0) as (evs & Ht & Hq & Hf).
    destruct (loadSqliteDatabase env u w0) as [[[|]|e|] w1]; simpl in Ht, Hf |- *;
      try (exists evs; rewrite (Hnone _ Hq); split; [exact Ht | congruence]).
    destruct (Hdoc u l w1) as (evs' & Ht' & Hf').
    exists (evs ++ evs')%list.
    rewrite existsb_app, (Hnone _ Hq), Ht', Hf', Ht, Hf. simpl. now rewrite app_assoc. }
  rewrite URIAtLine_catch. destruct (pathToURI env uri) as [u|e0] eqn:Hu.
  - rewrite (URIAtLine_try_converted _ _ _ _ _ _ _ _ _ Hu).
    set (w0 := log_event (EvPathToURI uri) w).
    destruct (Hdispatch (fst (attached_lineno u lineno)) (snd (attached_lineno u lineno)) w0)
      as (evs & Ht & Hf).
    destruct (dispatch _ _ _ _ _ _ _ w0) as [[[]|e|] w1]; simpl in Ht, Hf |- *.
    + exists (EvPathToURI uri :: evs). simpl. rewrite Ht, Hf. simpl.
      now rewrite <- app_assoc.
    + exists (EvPathToURI uri :: evs ++ [EvLogException e])%list. simpl.
      rewrite existsb_app, Ht, Hf. simpl. rewrite orb_false_r, <- !app_assoc. auto.
    + exists (EvPathToURI uri :: evs). simpl. rewrite Ht, Hf. simpl.
      now rewrite <- app_assoc.
  - unfold URIAtLine_try, bind, call. rewrite Hu. simpl.
    exists [EvPathToURI uri; EvLogException e0]. simpl. now rewrite <- app_assoc.
Qed.

End Flag.

(** ** More on the dispatcher: colour schemes *)
Section Schemes.
Import JsString Open Observe MoreObserve.

Lemma _checkKSFBaseName_loop_sound fuel env (names : name_set) ext name w base w' :
  _checkKSFBaseName_loop fuel env names ext name w = (Val (Some base), w') ->
  exists n,
    base = n +:+ ext /\ n <> ""
    /\ schemeNameIsValid env n = Ok true
    /\ known_name names (scheme_key env n) = false.
Proof.
  revert name w. induction fuel as [|fuel IH]; intros name w; simpl; [discriminate|].
  unfold bind at 1.
  assert (Hprompt : forall invalid w1,
            bind (call (EvDialogsPrompt
                          (formatStringFromName env
                             (if invalid : bool
                              then "schemeNameHasInvalidCharacters.template"
                              else "schemeExists.template") [name])
                          (GetStringFromName env "newSchemeName.label") name)
                    (dialogs_prompt env
                       (formatStringFromName env
                          (if invalid
                           then "schemeNameHasInvalidCharacters.template"
                           else "schemeExists.template") [name])
                       (GetStringFromName env "newSchemeName.label") name))
              (fun answer : option string =>
                 match answer with
                 | Some name0 =>
                     if String.eqb name0 "" then ret None
                     else _checkKSFBaseName_loop fuel env names ext name0
                 | None => ret None
                 end) w1 = (Val (Some base), w') ->
            exists n, base = n +:+ ext /\ n <> ""
                      /\ schemeNameIsValid env n = Ok true
                      /\ known_name names (scheme_key env n) = false).
  { intros invalid w1. unfold bind, call.
    destruct (dialogs_prompt env _ _ _) as [[n2|]|e]; try discriminate.
    destruct (String.eqb n2 ""); [discriminate|]. apply IH. }
  destruct (String.eqb_spec name "") as [->|Hne].
  - unfold ret at 1. simpl. apply (Hprompt true).
  - unfold bind at 1, call at 1.
    destruct (schemeNameIsValid env name) as [ok|e] eqn:Hvalid; [|discriminate].
    unfold ret at 1. cbv iota beta.
    destruct ok; simpl negb; [|apply (Hprompt true)].
    destruct (known_name names (scheme_key env name)) eqn:Hclash; simpl;
      [apply (Hprompt false)|].
    intros [= <- <-]. exists name. auto.
Qed.

(** What the [forEach] of [_checkKSFBaseName] leaves in [currentSchemeNames]:
    every name but [__proto__] becomes a key, and the prototype stays when
    no name is [__proto__]. *)
Lemma add_names_spec (keys : list string) (o : name_set) :
  let o' := fold_left add_name keys o in
  (forall k, k ∈ own_names o -> k ∈ own_names o')
  /\ (forall k, In k keys -> k <> "__proto__" -> k ∈ own_names o')
  /\ (~ In "__proto__" keys -> has_prototype o' = has_prototype o).
Proof.
  revert o. induction keys as [|key keys IH]; intros o; simpl.
  - repeat split; auto. now intros k [].
  - destruct (IH (add_name o key)) as (Hold & Hnew & Hproto).
    assert (Hkeep : forall k, k ∈ own_names o -> k ∈ own_names (add_name o key)).
    { intros k Hk. unfold add_name.
      destruct (has_prototype o && String.eqb key "__proto__"); simpl;
        [exact Hk | apply elem_of_union; now right]. }
    split; [auto|]. split.
    + intros k [<-|Hin] Hne; [|now apply Hnew].
      apply Hold. unfold add_name.
      destruct (String.eqb_spec key "__proto__") as [->|_]; [contradiction|].
      rewrite andb_false_r. simpl. apply elem_of_union. left.
      now apply elem_of_singleton.
    + intros Hnot. rewrite Hproto by tauto. unfold add_name.
      destruct (String.eqb_spec key "__proto__") as [->|_]; [tauto|].
      now rewrite andb_false_r.
Qed.

(** What [_checkKSFBaseName] returns when it returns a name. *)
Lemma _checkKSFBaseName_result fuel env uri w base w' :
  _checkKSFBaseName fuel env uri w = (Val (Some base), w') ->
  exists names e n,
    getSchemeNames env = Ok names
    /\ ext env uri = Ok e
    /\ base = n +:+ e
    /\ n <> ""
    /\ schemeNameIsValid env n = Ok true
    /\ (scheme_key env n <> "__proto__" ->
        ~ In (scheme_key env n) (map (scheme_key env) names))
    /\ (~ In "__proto__" (map (scheme_key env) names) ->
        inherited (scheme_key env n) = false).
Proof.
  unfold _checkKSFBaseName, bind, call.
  destruct (getSchemeNames env) as [names|e0]; [|discriminate].
  destruct (baseName env uri) as [b|e0]; [|discriminate].
  destruct (ext env uri) as [e|e0]; [|discriminate].
  intros H. apply _checkKSFBaseName_loop_sound in H as (n & -> & Hn & Hv & Hc).
  exists names, e, n. repeat split; try assumption.
  - intros Hne Hin.
    destruct (add_names_spec (map (scheme_key env) names) no_names) as (_ & Hnew & _).
    specialize (Hnew _ Hin Hne). unfold known_name in Hc.
    apply orb_false_elim in Hc as [Hc _]. apply bool_decide_eq_false in Hc.
    contradiction.
  - intros Hnot.
    destruct (add_names_spec (map (scheme_key env) names) no_names) as (_ & _ & Hproto).
    specialize (Hproto Hnot). unfold known_name in Hc.
    apply orb_false_elim in Hc as [_ Hc]. rewrite Hproto in Hc. exact Hc.
Qed.

(** X9. The name [_checkKSFBaseName] returns for a scheme is the file's
    extension after a name that is not empty and that the scheme service
    finds valid, however often the user was asked for another name. No
    existing scheme has the name (compared in lower case on darwin and
    win), unless the name is [__proto__]; and as long as no existing scheme
    is called [__proto__], the name is no name of [Object.prototype]. *)
Theorem _checkKSFBaseName_sound fuel env uri w base w' :
  _checkKSFBaseName fuel env uri w = (Val (Some base), w') ->
  exists names e n,
    getSchemeNames env = Ok names
    /\ ext env uri = Ok e
    /\ base = n +:+ e
    /\ n <> ""
    /\ schemeNameIsValid env n = Ok true
    /\ (scheme_key env n <> "__proto__" ->
        ~ In (scheme_key env n) (map (scheme_key env) names))
    /\ (~ In "__proto__" (map (scheme_key env) names) ->
        inherited (scheme_key env n) = false).
Proof. apply _checkKSFBaseName_result. Qed.

Lemma _checkKSFBaseName_sound_witness :
  _checkKSFBaseName 1 Examples.calm "Solarized.ksf" Examples.fresh
  = (Val (Some "Solarized.ksf"),
     {| skipNextPrompt := false;
        trace := [EvGetSchemeNames; EvBaseName "Solarized.ksf"; EvExt "Solarized.ksf";
                  EvSchemeNameIsValid "Solarized"] |})
  /\ exists names e n,
       getSchemeNames Examples.calm = Ok names
       /\ ext Examples.calm "Solarized.ksf" = Ok e
       /\ "Solarized.ksf" = n +:+ e
       /\ n <> "".
Proof.
  split; [reflexivity|].
  destruct (_checkKSFBaseName_sound 1 Examples.calm "Solarized.ksf" Examples.fresh
              "Solarized.ksf" _ eq_refl) as (names & e & n & H1 & H2 & H3 & H4 & _).
  exists names, e, n. auto.
Defined.

(** X10. A [.ksf] file with the flag not set and an answer that is not the
    first button: on Cancel (or a closed dialog) nothing is opened and
    nothing is imported; on any other answer the file is opened as a document
    with the view type of the caller. *)
Theorem URIAtLine_scheme_not_imported
    fuel env uri lineno viewType skip callback w u name answer :
  skipNextPrompt w = false ->
  pathToURI env uri = Ok u ->
  ends_with_ci ".ksf" (fst (attached_lineno u lineno)) = true ->
  baseName env (fst (attached_lineno u lineno)) = Ok name ->
  let uri' := fst (attached_lineno u lineno) in
  let lineno' := snd (attached_lineno u lineno) in
  let buttons :=
    [GetStringFromName env "OK.customButtonLabel";
     GetStringFromName env "openAsText.customButtonLabel";
     GetStringFromName env "Cancel.customButtonLabel"] in
  let prompt := formatStringFromName env "importFileAsScheme.prompt" [name] in
  let title := GetStringFromName env "openingSchemeFile.label" in
  customButtons env prompt buttons title = Ok answer ->
  declined answer (removeAmpersands buttons) = true
  \/ is_response answer (removeAmpersands buttons) 0 = false ->
  URIAtLine fuel env uri lineno viewType skip callback w
  = (Val None,
     {| skipNextPrompt := false;
        trace :=
          (trace w ++ EvPathToURI uri :: EvBaseName uri'
             :: EvCustomButtons prompt buttons title ::
             if declined answer (removeAmpersands buttons) then []
             else open_request uri' lineno' viewType callback
                  :: logged (open_answer env uri' lineno' viewType callback))%list |}).
Proof.
  intros Hskip Hu Hends Hname uri' lineno' buttons prompt title Hanswer Hnot.
  rewrite URIAtLine_catch, (URIAtLine_try_converted _ _ _ _ _ _ _ _ _ Hu).
  fold uri' lineno'.
  rewrite (dispatch_document fuel env (chars "ksf")) by (reflexivity || exact Hends).
  rewrite open_document_prompting by exact Hskip. fold buttons.
  unfold prompts. fold uri' in Hends, Hname. rewrite Hends. unfold prompt_scheme.
  unfold bind at 1. unfold call at 1. rewrite Hname. cbv iota beta. fold prompt title.
  unfold bind at 1. unfold call at 1. rewrite Hanswer. cbv iota beta.
  destruct w as [flag tr]. simpl in Hskip. subst flag.
  destruct (declined answer (removeAmpersands buttons)) eqn:Hd;
    [unfold ret, log_event; simpl; now rewrite <- !app_assoc|].
  destruct Hnot as [Hnot|Hnot]; [discriminate Hnot|]. rewrite Hnot.
  unfold ret, open_file, call, log_event. simpl.
  destruct (open_answer env uri' lineno' viewType callback) as [[]|e]; simpl;
    now rewrite <- !app_assoc.
Qed.

Lemma URIAtLine_scheme_not_imported_witness :
  skipNextPrompt Examples.fresh = false
  /\ URIAtLine 0 Examples.calm "Solarized.ksf" None None None None Examples.fresh
     = (Val None,
        {| skipNextPrompt := false;
           trace :=
             [EvPathToURI "Solarized.ksf"; EvBaseName "Solarized.ksf";
              EvCustomButtons "importFileAsScheme.prompt"
                ["OK.customButtonLabel"; "openAsText.customButtonLabel";
                 "Cancel.customButtonLabel"]
                "openingSchemeFile.label"] |}).
Proof.
  split; [reflexivity|].
  exact (URIAtLine_scheme_not_imported 0 Examples.calm "Solarized.ksf" None None None None
           Examples.fresh "Solarized.ksf" "Solarized.ksf" None
           eq_refl eq_refl eq_refl eq_refl eq_refl (or_introl eq_refl)).
Defined.

(** X11. A [.ksf] file with the flag not set, and the user takes the first
    button and a name is settled: the scheme is loaded, activated and the
    notice of how to go back is shown, and then no view is opened. When one
    of these three steps throws, the exception is shown in an alert and
    logged, and the file is opened as a document after all. *)
Theorem URIAtLine_scheme_import
    fuel env uri lineno viewType skip callback w u name answer base named :
  skipNextPrompt w = false ->
  pathToURI env uri = Ok u ->
  ends_with_ci ".ksf" (fst (attached_lineno u lineno)) = true ->
  baseName env (fst (attached_lineno u lineno)) = Ok name ->
  let uri' := fst (attached_lineno u lineno) in
  let lineno' := snd (attached_lineno u lineno) in
  let buttons :=
    [GetStringFromName env "OK.customButtonLabel";
     GetStringFromName env "openAsText.customButtonLabel";
     GetStringFromName env "Cancel.customButtonLabel"] in
  let prompt := formatStringFromName env "importFileAsScheme.prompt" [name] in
  let title := GetStringFromName env "openingSchemeFile.label" in
  customButtons env prompt buttons title = Ok answer ->
  declined answer (removeAmpersands buttons) = false ->
  is_response answer (removeAmpersands buttons) 0 = true ->
  getSchemeService env = Ok tt ->
  _checkKSFBaseName fuel env uri'
    (log_event EvGetSchemeService
       (log_event (EvCustomButtons prompt buttons title)
          (log_event (EvBaseName uri') (log_event (EvPathToURI uri) w))))
  = (Val (Some base), named) ->
  let fallback (ex : exn) :=
    ([EvWindowAlert ex; EvLogException ex;
      open_request uri' lineno' viewType callback]
     ++ logged (open_answer env uri' lineno' viewType callback))%list in
  URIAtLine fuel env uri lineno viewType skip callback w
  = (Val None,
     {| skipNextPrompt := false;
        trace :=
          (trace named ++ EvLoadSchemeFromURI uri' base ::
             match loadSchemeFromURI env uri' base with
             | Throw ex => fallback ex
             | Ok newSchemeName =>
                 EvActivateScheme newSchemeName ::
                 match activateScheme env newSchemeName with
                 | Throw ex => fallback ex
                 | Ok oldScheme =>
                     EvNotifyHowtoRestoreOldScheme oldScheme newSchemeName ::
                     match notifyHowtoRestoreOldScheme env oldScheme newSchemeName with
                     | Throw ex => fallback ex
                     | Ok _ => []
                     end
                 end
             end)%list |}).
Proof.
  intros Hskip Hu Hends Hname uri' lineno' buttons prompt title Hanswer Hd Hok Hsvc
    Hcheck fallback.
  assert (Hbase : String.eqb base "" = false).
  { apply _checkKSFBaseName_result in Hcheck as (names & e & n & _ & _ & -> & Hn & _).
    apply String.eqb_neq. destruct n; [contradiction | discriminate]. }
  assert (Hflag : skipNextPrompt named = false).
  { destruct (_checkKSFBaseName_quietly fuel env uri'
                (log_event EvGetSchemeService
                   (log_event (EvCustomButtons prompt buttons title)
                      (log_event (EvBaseName uri') (log_event (EvPathToURI uri) w)))))
      as (evs & _ & _ & Hf).
    rewrite Hcheck in Hf. simpl in Hf. congruence. }
  rewrite URIAtLine_catch, (URIAtLine_try_converted _ _ _ _ _ _ _ _ _ Hu).
  fold uri' lineno'.
  rewrite (dispatch_document fuel env (chars "ksf")) by (reflexivity || exact Hends).
  rewrite open_document_prompting by exact Hskip. fold buttons.
  unfold prompts. fold uri' in Hends, Hname. rewrite Hends. unfold prompt_scheme.
  unfold bind at 1. unfold call at 1. rewrite Hname. cbv iota beta. fold prompt title.
  unfold bind at 1. unfold call at 1. rewrite Hanswer. cbv iota beta.
  rewrite Hd, Hok.
  unfold bind at 1. unfold call at 1. rewrite Hsvc. cbv iota beta.
  unfold bind at 1. rewrite Hcheck. cbv iota beta. rewrite Hbase.
  destruct named as [flag tr]. simpl in Hflag. subst flag.
  unfold try_catch, bind, call, emit, ret, open_file, log_event, fallback. simpl.
  destruct (loadSchemeFromURI env uri' base) as [new|ex]; simpl.
  - destruct (activateScheme env new) as [old|ex]; simpl.
    + destruct (notifyHowtoRestoreOldScheme env old new) as [[]|ex]; simpl;
        [unfold log_event; simpl; rewrite <- ?app_assoc; reflexivity|].
      destruct (open_answer env uri' lineno' viewType callback) as [[]|e]; simpl;
        unfold log_event; simpl; rewrite <- ?app_assoc; reflexivity.
    + destruct (open_answer env uri' lineno' viewType callback) as [[]|e]; simpl;
        unfold log_event; simpl; rewrite <- ?app_assoc; reflexivity.
  - destruct (open_answer env uri' lineno' viewType callback) as [[]|e]; simpl;
      unfold log_event; simpl; rewrite <- ?app_assoc; reflexivity.
Qed.

Lemma URIAtLine_scheme_import_witness :
  skipNextPrompt Examples.fresh = false
  /\ URIAtLine 1
       (MoreObserve.unloadable
          (MoreObserve.answering (Some "OK.customButtonLabel") Examples.calm))
       "Solarized.ksf" None None None None Examples.fresh
     = (Val None,
        {| skipNextPrompt := false;
           trace :=
             [EvPathToURI "Solarized.ksf"; EvBaseName "Solarized.ksf";
              EvCustomButtons "importFileAsScheme.prompt"
                ["OK.customButtonLabel"; "openAsText.customButtonLabel";
                 "Cancel.customButtonLabel"]
                "openingSchemeFile.label";
              EvGetSchemeService; EvGetSchemeNames; EvBaseName "Solarized.ksf";
              EvExt "Solarized.ksf"; EvSchemeNameIsValid "Solarized";
              EvLoadSchemeFromURI "Solarized.ksf" "Solarized.ksf";
              EvWindowAlert (JsError "not a scheme");
              EvLogException (JsError "not a scheme");
              EvFileOpenAsync "Solarized.ksf" None None] |}).
Proof.
  split; [reflexivity|].
  exact (URIAtLine_scheme_import 1
           (MoreObserve.unloadable
              (MoreObserve.answering (Some "OK.customButtonLabel") Examples.calm))
           "Solarized.ksf" None None None None Examples.fresh "Solarized.ksf"
           "Solarized.ksf" (Some "OK.customButtonLabel") "Solarized.ksf" _
           eq_refl eq_refl eq_refl eq_refl eq_refl eq_refl eq_refl eq_refl eq_refl).
Defined.

End Schemes.


(** ** More on the dispatcher: view types *)
Section ViewTypes.
Import JsString Open Observe MoreObserve.

Lemma yields_ret {A} (a : A) (Q : A -> Prop) : Q a -> yields (ret a) Q.
Proof. intros H w a' w' [= <- _]. exact H. Qed.

Lemma yields_bind {A B} (c : M A) (k : A -> M B) (Q : B -> Prop) :
  (forall a, yields (k a) Q) -> yields (bind c k) Q.
Proof.
  intros Hk w b w'. unfold bind. destruct (c w) as [[a|e|] w1]; try discriminate.
  apply Hk.
Qed.

Lemma yields_try_catch {A} (c : M A) (h : exn -> M A) (Q : A -> Prop) :
  yields c Q -> (forall e, yields (h e) Q) -> yields (try_catch c h) Q.
Proof.
  intros Hc Hh w a w'. unfold try_catch. specialize (Hc w).
  destruct (c w) as [[a'|e|] w1]; try discriminate.
  - intros [= <- <-]. now apply (Hc a' w1).
  - apply Hh.
Qed.

(** The view type the prompts pass on is the one of the caller, or
    ["browser"] for a preview when the caller gave none. *)
Lemma prompts_viewType fuel env uri viewType buttons responses :
  yields (prompts fuel env uri viewType buttons responses)
    (fun next =>
       forall viewType', next = Continue viewType' ->
         viewType' = viewType
         \/ (truthy viewType = false
             /\ isImageUrl uri || isAudioUrl uri = true
             /\ viewType' = Some "browser")).
Proof.
  unfold prompts, prompt_scheme, prompt_snippet, prompt_tool.
  repeat first
    [ apply yields_ret; intros vt' [= <-]; now left
    | apply yields_ret; intros vt'; discriminate
    | apply yields_bind; intros ?
    | apply yields_try_catch; [|intros ?]
    | match goal with
      | |- yields (if negb (truthy viewType) && _ then _ else _) _ =>
          destruct (truthy viewType) eqn:Htruthy;
          [|destruct (isImageUrl uri || isAudioUrl uri) eqn:Hpreview]; simpl
      | |- yields (if ?b then _ else _) _ => destruct b
      | |- yields (match ?x with _ => _ end) _ => destruct x
      end ].
  apply yields_ret. intros vt' [= <-]. right. auto.
Qed.

(** The view types of the requests of one call. *)
Lemma URIAtLine_viewTypes fuel env uri lineno viewType skip callback w :
  exists evs,
    trace (snd (URIAtLine fuel env uri lineno viewType skip callback w))
    = (trace w ++ evs)%list
    /\ forall ev vt,
         In ev evs -> request_viewType ev = Some vt ->
         vt = viewType \/ (truthy viewType = false /\ vt = Some "browser").
Proof.
  assert (Hq : forall evs ev vt, forallb quiet_event evs = true -> In ev evs ->
                 request_viewType ev = Some vt -> False).
  { intros evs ev vt H Hin Hr. rewrite forallb_forall in H. specialize (H _ Hin).
    destruct ev; discriminate. }
  assert (Hreq : forall u l vt' vt,
            request_viewType (open_request u l vt' callback) = Some vt -> vt = vt').
  { intros u l vt' vt. unfold open_request.
    destruct l as [l|]; [destruct (lineno_truthy (Some l))|]; simpl; congruence. }
  assert (Hdoc : forall u l w0,
            exists evs,
              trace (snd (open_document fuel env u l viewType callback w0))
              = (trace w0 ++ evs)%list
              /\ forall ev vt,
                   In ev evs -> request_viewType ev = Some vt ->
                   vt = viewType \/ (truthy viewType = false /\ vt = Some "browser")).
  { intros u l w0. unfold open_document, bind, get_skipNextPrompt.
    set (buttons := [_; _; _]).
    destruct (skipNextPrompt w0); cbn [negb].
    - exists [open_request u l viewType callback]. split; [reflexivity|].
      intros ev vt [<-|[]] Hr. left. now apply (Hreq u l).
    - destruct (prompts_quiet fuel env u viewType buttons (removeAmpersands buttons) w0)
        as (evs & Ht & Hquiet).
      pose proof (prompts_viewType fuel env u viewType buttons (removeAmpersands buttons)
                    w0) as Hvt.
      destruct (prompts fuel env u viewType buttons (removeAmpersands buttons) w0)
        as [[[|vt']|e|] w1]; simpl in Ht;
        try (exists evs; split; [exact Ht|]; intros ev vt Hin Hr;
             now destruct (Hq evs ev vt)).
      exists (evs ++ [open_request u l vt' callback])%list. split.
      + unfold open_file, call. simpl. now rewrite Ht, app_assoc.
      + intros ev vt Hin Hr. apply in_app_iff in Hin as [Hin|[<-|[]]];
          [now destruct (Hq evs ev vt)|].
        apply Hreq in Hr as ->.
        destruct (Hvt _ _ eq_refl vt' eq_refl) as [->|(Hf & _ & ->)]; auto. }
  assert (Hquiet : forall (c : M unit) w0, emits quiet_event c ->
            exists evs,
              trace (snd (c w0)) = (trace w0 ++ evs)%list
              /\ forall ev vt,
                   In ev evs -> request_viewType ev = Some vt ->
                   vt = viewType \/ (truthy viewType = false /\ vt = Some "browser")).
  { intros c w0 Hc. destruct (Hc w0) as (evs & Ht & Hquiet). exists evs.
    split; [exact Ht|]. intros ev vt Hin Hr. now destruct (Hq evs ev vt). }
  assert (Hdispatch : forall u l w0,
            exists evs,
              trace (snd (dispatch fuel env u l viewType skip callback w0))
              = (trace w0 ++ evs)%list
              /\ forall ev vt,
                   In ev evs -> request_viewType ev = Some vt ->
                   vt = viewType \/ (truthy viewType = false /\ vt = Some "browser")).
  { intros u l w0. unfold dispatch.
    destruct (is_project_uri u); [apply Hquiet; now apply emits_call|].
    destruct (ends_with_ci ".xpi" u).
    { apply Hquiet. apply emits_try_catch; [now apply emits_call|].
      intros e. now apply emits_call. }
    destruct (ends_with_ci ".kpz" u); [apply Hquiet; now apply emits_call|].
    unfold bind.
    destruct (loadSqliteDatabase_quiet env u w0) as (evs & Ht & Hquiet0).
    destruct (loadSqliteDatabase env u w0) as [[[|]|e|] w1]; simpl in Ht |- *;
      try (exists evs; split; [exact Ht|]; intros ev vt Hin Hr;
           now destruct (Hq evs ev vt)).
    destruct (Hdoc u l w1) as (evs' & Ht' & Hev).
    exists (evs ++ evs')%list. split; [now rewrite Ht', Ht, app_assoc|].
    intros ev vt Hin Hr. apply in_app_iff in Hin as [Hin|Hin];
      [now destruct (Hq evs ev vt) | now apply (Hev ev)]. }
  rewrite URIAtLine_catch. destruct (pathToURI env uri) as [u|e0] eqn:Hu.
  - rewrite (URIAtLine_try_converted _ _ _ _ _ _ _ _ _ Hu).
    set (w0 := log_event (EvPathToURI uri) w).
    destruct (Hdispatch (fst (attached_lineno u lineno)) (snd (attached_lineno u lineno)) w0)
      as (evs & Ht & Hev).
    destruct (dispatch _ _ _ _ _ _ _ w0) as [[[]|e|] w1]; simpl in Ht |- *.
    + exists (EvPathToURI uri :: evs). split; [rewrite Ht; now rewrite <- app_assoc|].
      intros ev vt [<-|Hin] Hr; [discriminate Hr | now apply (Hev ev)].
    + exists (EvPathToURI uri :: evs ++ [EvLogException e])%list. split.
      * rewrite Ht. now rewrite <- !app_assoc.
      * intros ev vt [<-|Hin] Hr; [discriminate Hr|].
        apply in_app_iff in Hin as [Hin|[<-|[]]]; [now apply (Hev ev) | discriminate Hr].
    + exists (EvPathToURI uri :: evs). split; [rewrite Ht; now rewrite <- app_assoc|].
      intros ev vt [<-|Hin] Hr; [discriminate Hr | now apply (Hev ev)].
  - unfold URIAtLine_try, bind, call. rewrite Hu. simpl.
    exists [EvPathToURI uri; EvLogException e0]. split; [now rewrite <- app_assoc|].
    intros ev vt [<-|[<-|[]]] Hr; discriminate Hr.
Qed.

(** X12. Every request that a call of [URIAtLine] sends to the view manager
    carries the view type of the caller; the one exception is the preview, a
    ["browser"] view for an image or audio file when the caller named no
    view type. *)
Theorem URIAtLine_request_viewType fuel env uri lineno viewType skip callback w :
  exists evs,
    trace (snd (URIAtLine fuel env uri lineno viewType skip callback w))
    = (trace w ++ evs)%list
    /\ forall ev vt,
         In ev evs -> request_viewType ev = Some vt ->
         vt = viewType \/ (truthy viewType = false /\ vt = Some "browser").
Proof. apply URIAtLine_viewTypes. Qed.

(** The requests of a call of [URI] with a view type that is given: they
    all carry it. *)
Lemma URI_viewType fuel env uri (viewType : option string) skip callback w :
  truthy viewType = true ->
  exists evs,
    trace (snd (bind (URI fuel env uri viewType skip callback) (fun _ => ret tt) w))
    = (trace w ++ evs)%list
    /\ forall ev vt, In ev evs -> request_viewType ev = Some vt -> vt = viewType.
Proof.
  intros Hgiven. unfold URI, bind.
  destruct (URIAtLine_viewTypes fuel env uri None viewType skip callback w)
    as (evs & Ht & Hev).
  exists evs. split.
  - now destruct (URIAtLine _ _ _ _ _ _ _ w) as [[o|e|] w1].
  - intros ev vt Hin Hr. destruct (Hev ev vt Hin Hr) as [->|[Hf _]]; [reflexivity|].
    congruence.
Qed.

Lemma editor_default_given (viewType : option string) :
  truthy (if truthy viewType then viewType else Some "editor") = true.
Proof. now destruct (truthy viewType) eqn:H. Qed.

(** X21. A file opened from the list of recent files is never opened as a
    preview: every request that [recentURI] sends to the view manager
    carries the view type of the caller, or ["editor"] when the caller
    named none - an image too. *)
Theorem recentURI_viewType fuel env uri viewType skip w :
  exists evs,
    trace (snd (recentURI fuel env uri viewType skip w)) = (trace w ++ evs)%list
    /\ forall ev vt,
         In ev evs -> request_viewType ev = Some vt ->
         vt = if truthy viewType then viewType else Some "editor".
Proof.
  unfold recentURI. unfold bind at 1.
  match goal with
  | |- context [let (_, _) := ?c w in _] =>
      assert (Hpre : exists pre, c w = (Val tt, {| skipNextPrompt := skipNextPrompt w;
                                                   trace := (trace w ++ pre)%list |})
                                 /\ forall ev, In ev pre -> request_viewType ev = None)
  end.
  { destruct (is_project_uri uri && negb (file_exists env uri)).
    - unfold bind, emit, log_event. simpl.
      destruct (places env && single_project_view env); simpl;
        eexists; (split; [rewrite <- ?app_assoc; reflexivity|]);
        intros ev Hin; simpl in Hin; intuition (subst; reflexivity).
    - exists []. simpl. rewrite app_nil_r. split; [now destruct w | now intros ev []]. }
  destruct Hpre as (pre & -> & Hpre).
  match goal with
  | |- context [bind (URI fuel env uri ?vt ?sk ?cb) _ ?w0] =>
      destruct (URI_viewType fuel env uri vt sk cb w0 (editor_default_given viewType))
        as (evs & Ht & Hev)
  end.
  exists (pre ++ evs)%list. split.
  - rewrite Ht. simpl. now rewrite app_assoc.
  - intros ev vt Hin Hr. apply in_app_iff in Hin as [Hin|Hin].
    + rewrite (Hpre ev Hin) in Hr. discriminate Hr.
    + now apply (Hev ev).
Qed.

(** The loop of [displayPath] sends no request. *)
Lemma displayPath_loop_requests env views path callback :
  emits (fun ev => match request_viewType ev with None => true | Some _ => false end)
    (displayPath_loop env views path callback).
Proof.
  induction views as [|v views IH]; simpl; [apply emits_ret|].
  destruct (koDoc v) as [p|]; [|exact IH].
  destruct (_fequal env p path); [|exact IH].
  apply emits_bind; [now apply emits_emit|]. intros _.
  destruct callback as [cb|]; [|exact IH].
  apply emits_bind; [now apply emits_emit | intros _; apply emits_ret].
Qed.

(** X22. Nor does [displayPath] ever ask for a preview: every request it
    sends to the view manager, for a path that is not open (or, without a
    callback, for one that is), carries the view type of the caller, or
    ["editor"] when the caller named none. *)
Theorem displayPath_viewType fuel env path viewType callback w :
  exists evs,
    trace (snd (displayPath fuel env path viewType callback w)) = (trace w ++ evs)%list
    /\ forall ev vt,
         In ev evs -> request_viewType ev = Some vt ->
         vt = if truthy viewType then viewType else Some "editor".
Proof.
  unfold displayPath. cbv zeta. unfold bind at 1.
  destruct (displayPath_loop_requests env
              (getViewsByType env
                 (default "editor" (if truthy viewType then viewType else Some "editor")))
              path callback w) as (pre & Hpre & Hnone).
  assert (Hquiet : forall ev vt, In ev pre -> request_viewType ev = Some vt -> False).
  { intros ev vt Hin Hr. rewrite forallb_forall in Hnone. specialize (Hnone _ Hin).
    now rewrite Hr in Hnone. }
  destruct (displayPath_loop _ _ _ _ w) as [[returned|e|] w1]; simpl in Hpre |- *;
    try (exists pre; split; [exact Hpre|]; intros ev vt Hin Hr;
         now destruct (Hquiet ev vt)).
  destruct returned.
  - exists pre. split; [exact Hpre|]. intros ev vt Hin Hr. now destruct (Hquiet ev vt).
  - destruct (URI_viewType fuel env path
                (if truthy viewType then viewType else Some "editor") (Some true)
                callback w1 (editor_default_given viewType)) as (evs & Ht & Hev).
    exists (pre ++ evs)%list. split; [now rewrite Ht, Hpre, app_assoc|].
    intros ev vt Hin Hr. apply in_app_iff in Hin as [Hin|Hin];
      [now destruct (Hquiet ev vt) | now apply (Hev ev)].
Qed.

End ViewTypes.

(** ** More on already open documents and on the registry *)
Section MoreRegistry.
Import JsString.

(** X13. With a callback, [displayPath] on a path that is open in a view
    of the wanted type (the first such view counts) makes that view current,
    hands it to the callback and is done: it asks for no conversion of the
    path and sends no request to the view manager. *)
Theorem displayPath_refocuses fuel env path viewType cb w before v after p :
  Open.getViewsByType env
    (default "editor" (if truthy viewType then viewType else Some "editor"))
  = (before ++ v :: after)%list ->
  Forall (fun x => match Open.koDoc x with
                   | Some q => Open._fequal env q path = false
                   | None => True
                   end) before ->
  Open.koDoc v = Some p -> Open._fequal env p path = true ->
  let r := Open.displayPath fuel env path viewType (Some cb) w in
  r = (Open.Val tt,
       {| Open.skipNextPrompt := Open.skipNextPrompt w;
          Open.trace := (Open.trace w ++ [Open.EvMakeCurrent (Open.view_id v);
                                          Open.EvCallback cb (Some (Open.view_id v))])%list |})
  /\ Observe.opened_uris [Open.EvMakeCurrent (Open.view_id v);
                          Open.EvCallback cb (Some (Open.view_id v))] = []
  /\ existsb Observe.is_open_request
       [Open.EvMakeCurrent (Open.view_id v);
        Open.EvCallback cb (Some (Open.view_id v))] = false.
Proof.
  intros Hviews Hbefore Hdoc Heq r. subst r.
  split; [|split; reflexivity].
  exact (displayPath_with_callback fuel env path viewType cb w before v after p
           Hviews Hbefore Hdoc Heq).
Qed.

Lemma displayPath_refocuses_witness :
  Open.displayPath 0 Examples.one_view "/tmp/a.txt" None
    (Some (Open.UserCallback 0)) Examples.fresh
  = (Open.Val tt,
     {| Open.skipNextPrompt := false;
        Open.trace := [Open.EvMakeCurrent 7;
                       Open.EvCallback (Open.UserCallback 0) (Some 7%nat)] |}).
Proof.
  exact (proj1 (displayPath_refocuses 0 Examples.one_view "/tmp/a.txt" None
                  (Open.UserCallback 0) Examples.fresh []
                  {| Open.view_id := 7; Open.koDoc := Some "/tmp/a.txt" |} []
                  "/tmp/a.txt" eq_refl (List.Forall_nil _) eq_refl eq_refl)).
Defined.

Import DynamicButton.

(** X14. [register] refuses an id that the registry has, by a button of
    its own or by inheritance from [Object.prototype]: it throws the
    "already exists" error, and the registry, the stored flags, the toolbar
    and everything else stay as they were. *)
Theorem register_known_id_throws env label o raw w :
  id_source label o = Some raw ->
  in_buttons (strip_non_word raw) w = true ->
  register env label o w = (Throw (already_exists (strip_non_word raw)), w).
Proof.
  intros Hsrc Hknown. unfold register, id_source in *.
  destruct label as [l|spec]; [destruct o as [opts|]; [|discriminate]|];
    unfold bind, ret, gets; simpl; rewrite Hsrc; simpl; now rewrite Hknown.
Qed.

Lemma register_known_id_throws_witness :
  buttons ButtonExamples.loaded !! "constructor" = None
  /\ register ButtonExamples.idle (Label "constructor") (Some ButtonExamples.no_options)
       ButtonExamples.loaded
     = (Throw (already_exists "constructor"), ButtonExamples.loaded)
  /\ register ButtonExamples.idle (Label "Add ..") (Some ButtonExamples.no_options)
       ButtonExamples.loaded
     = (Throw (already_exists "Add"), ButtonExamples.loaded).
Proof.
  split; [reflexivity|]. split.
  - exact (register_known_id_throws ButtonExamples.idle (Label "constructor")
             (Some ButtonExamples.no_options) "constructor" ButtonExamples.loaded
             eq_refl eq_refl).
  - exact (register_known_id_throws ButtonExamples.idle (Label "Add ..")
             (Some ButtonExamples.no_options) "Add .." ButtonExamples.loaded
             eq_refl eq_refl).
Defined.

(** X15. [unregister] of an id for which the registry has no button throws
    and changes nothing: the "does not exist" error, or, for a name of
    [Object.prototype], a [TypeError] from the call of a method that is not
    there. *)
Theorem unregister_unknown_id id w :
  buttons w !! id = None ->
  unregister id w
  = (Throw (if inherited id
            then TypeError "buttons[id].unregister is not a function"
            else does_not_exist id), w).
Proof.
  intros H. destruct (inherited id) eqn:Hi.
  - now apply unregister_inherited.
  - now apply unregister_absent.
Qed.

Lemma unregister_unknown_id_witness :
  unregister "Bar" ButtonExamples.loaded
  = (Throw (does_not_exist "Bar"), ButtonExamples.loaded)
  /\ unregister "toString" ButtonExamples.loaded
     = (Throw (TypeError "buttons[id].unregister is not a function"),
        ButtonExamples.loaded).
Proof.
  split.
  - exact (unregister_unknown_id "Bar" ButtonExamples.loaded eq_refl).
  - exact (unregister_unknown_id "toString" ButtonExamples.loaded eq_refl).
Defined.

(** X16. When [register] returns, the id - [opts.id], or else the label,
    without its non-word characters - was not known to the registry, and
    the registry has gained exactly this entry: the id, with the button that
    was returned. *)
Theorem register_adds_entry env label o self w w' :
  register env label o w = (Ok self, w') ->
  exists raw,
    id_source label o = Some raw
    /\ in_buttons (strip_non_word raw) w = false
    /\ buttons w' = <[strip_non_word raw := self]> (buttons w).
Proof.
  intros H. apply register_stores in H as (raw & Hsrc & Hfree & Hown & Hnew).
  exists raw. split; [exact Hsrc|]. split; [|exact Hnew].
  unfold in_buttons. rewrite Hown, orb_false_r. apply bool_decide_eq_false.
  rewrite Hfree. now intros [? ?].
Qed.

Lemma register_adds_entry_witness :
  exists w',
    register ButtonExamples.idle (Label "Foo Bar!") (Some ButtonExamples.no_options)
      ButtonExamples.loaded = (Ok 1%nat, w')
    /\ buttons w' = <[strip_non_word "Foo Bar!" := 1%nat]> (buttons ButtonExamples.loaded)
    /\ buttons w' !! "FooBar" = Some 1%nat.
Proof.
  assert (E : exists w',
             register ButtonExamples.idle (Label "Foo Bar!")
               (Some ButtonExamples.no_options) ButtonExamples.loaded = (Ok 1%nat, w'))
    by (vm_compute; eexists; reflexivity).
  destruct E as (w' & E). exists w'. split; [exact E|].
  destruct (register_adds_entry _ _ _ _ _ _ E) as (raw & Hsrc & _ & Hnew).
  vm_compute in Hsrc. injection Hsrc as <-. split; [exact Hnew|].
  rewrite Hnew. apply lookup_insert_eq.
Defined.

End MoreRegistry.

(** ** More on the dispatcher: calls that return *)
Section Returns.
Import JsString Open Observe.

(** X17. The one loop of the dispatcher is the prompt for a scheme name.
    When the user comes to an end there within [rounds] rounds - with a
    name that is accepted, with a cancel, or by an exception - a call of
    [URIAtLine] with that much fuel or more returns, and what it returns is
    [null]: no exception leaves it. *)
Theorem URIAtLine_terminates rounds fuel env uri lineno viewType skip callback w :
  settles_within rounds env -> (rounds <= fuel)%nat ->
  fst (URIAtLine fuel env uri lineno viewType skip callback w) = Val None.
Proof. intros Hs Hle. now apply (URIAtLine_returns rounds). Qed.

Lemma URIAtLine_terminates_witness :
  let env := MoreObserve.answering (Some "OK.customButtonLabel") Examples.calm in
  settles_within 1 env
  /\ fst (URIAtLine 1 env "Solarized.ksf" None None None None Examples.fresh) = Val None
  /\ In (EvLoadSchemeFromURI "Solarized.ksf" "Solarized.ksf")
       (trace (snd (URIAtLine 1 env "Solarized.ksf" None None None None Examples.fresh))).
Proof.
  intros env.
  assert (Hsettles : settles_within 1 env).
  { intros names name [= <-]. simpl.
    destruct (String.eqb name ""); [reflexivity|]. simpl.
    now destruct (known_name no_names (scheme_key env name)). }
  split; [exact Hsettles|]. split.
  - exact (URIAtLine_terminates 1 1 env "Solarized.ksf" None None None None
             Examples.fresh Hsettles (Nat.le_refl 1)).
  - vm_compute. tauto.
Defined.

End Returns.

(** ** More on the registry: what the constructor leaves *)
Section Construction.
Import JsString DynamicButton.

Lemma hoare_ret {A} (P : world -> Prop) (a : A) (Q : A -> world -> Prop) :
  (forall w, P w -> Q a w) -> hoare P (ret a) Q.
Proof. intros H w a' w' HP [= <- <-]. now apply H. Qed.

Lemma hoare_throw {A} (P : world -> Prop) e (Q : A -> world -> Prop) :
  hoare P (throw e) Q.
Proof. intros w a w' _ H. discriminate H. Qed.

Lemma hoare_modify (P : world -> Prop) f (Q : unit -> world -> Prop) :
  (forall w, P w -> Q tt (f w)) -> hoare P (modify f) Q.
Proof. intros H w a w' HP [= <- <-]. now apply H. Qed.

Lemma hoare_gets {A} (P : world -> Prop) (f : world -> A) (Q : A -> world -> Prop) :
  (forall w, P w -> Q (f w) w) -> hoare P (gets f) Q.
Proof. intros H w a w' HP [= <- <-]. now apply H. Qed.

Lemma hoare_bind {A B} (P : world -> Prop) (R : A -> world -> Prop)
    (c : M A) (k : A -> M B) (Q : B -> world -> Prop) :
  hoare P c R -> (forall a, hoare (R a) (k a) Q) -> hoare P (bind c k) Q.
Proof.
  intros Hc Hk w b w' HP. unfold bind.
  destruct (c w) as [[a|e] w1] eqn:E; [|discriminate].
  intros H. exact (Hk a w1 b w' (Hc w a w1 HP E) H).
Qed.

Lemma hoare_assume {A} (X : Prop) (P : world -> Prop) (c : M A)
    (Q : A -> world -> Prop) :
  (X -> hoare P c Q) -> hoare (fun w => X /\ P w) c Q.
Proof. intros H w a w' [HX HP]. now apply H. Qed.

(** A step that keeps [P], followed by the rest. *)
Lemma hoare_step {A B} (P : world -> Prop) (c : M A) (k : A -> M B)
    (Q : B -> world -> Prop) :
  hoare P c (fun _ => P) -> (forall a, hoare P (k a) Q) -> hoare P (bind c k) Q.
Proof. intros Hc Hk. now apply (hoare_bind P (fun _ => P)). Qed.

Lemma hoare_for_each {A} (P : world -> Prop) (xs : list A) (body : A -> M unit) :
  (forall x, hoare P (body x) (fun _ => P)) ->
  hoare P (for_each xs body) (fun _ => P).
Proof.
  intros Hb. induction xs as [|x xs IH]; simpl.
  - now apply hoare_ret.
  - apply hoare_step; [apply Hb | intros _; exact IH].
Qed.

Section Steps.
Variables (env : Env) (self btn : nat) (key : string).

Lemma made_attr q v el name value w :
  name <> "disabled" -> made self btn q v w -> made self btn q v (attr el name value w).
Proof.
  intros Hne (Hb & Hp & Hn & Hd).
  split; [exact Hb|]. split; [exact Hp|]. split; [exact Hn|].
  rewrite attrs_of_attr. destruct (String.eqb_spec name "disabled"); [contradiction|].
  now rewrite andb_false_r.
Qed.

Lemma made_disabled q v w :
  made self btn q v w -> made self btn q (Some "true") (attr btn "disabled" "true" w).
Proof.
  intros (Hb & Hp & Hn & Hd).
  split; [exact Hb|]. split; [exact Hp|]. split; [exact Hn|].
  rewrite attrs_of_attr. now rewrite Nat.eqb_refl.
Qed.

Lemma made_new_element q v w :
  made self btn q v w -> made self btn q v (snd (new_element w)).
Proof.
  intros (Hb & Hp & Hn & Hd). unfold new_element. simpl.
  split; [exact Hb|]. split; [exact Hp|]. split; [simpl; lia|].
  unfold attrs_of in *. simpl. rewrite lookup_insert_ne by lia. exact Hd.
Qed.

Lemma made_set_heap q v d w :
  button d = btn -> made self btn q v w ->
  made self btn (o_isEnabled (opts d)) v (set_heap (<[self := d]> (heap w)) w).
Proof.
  intros Hd (Hb & Hp & Hn & Ha). unfold made, button_of, predicate_of. simpl.
  rewrite lookup_insert_eq. now rewrite Hd.
Qed.

Lemma made_set_widget q v o m t w :
  made self btn q v w ->
  made self btn (o_isEnabled o) v
    (set_heap (<[self := {| opts := o; button := btn; menupopup := m; _timer := t |}]>
                 (heap w)) w).
Proof. now apply (made_set_heap q v {| opts := o; button := btn |}). Qed.

Lemma made_set_opts q v o w :
  made self btn q v w -> made self btn (o_isEnabled o) v (dynamicButton.set_opts self o w).
Proof.
  intros H. pose proof H as (Hb & _). unfold button_of in Hb.
  unfold dynamicButton.set_opts.
  destruct (heap w !! self) as [d|] eqn:Hd; [|discriminate]. injection Hb as Hb.
  exact (made_set_heap q v {| opts := o; button := button d; menupopup := menupopup d;
                              _timer := _timer d |} w Hb H).
Qed.

Lemma made_set_timer q v h w :
  made self btn q v w -> made self btn q v (dynamicButton.set_timer self h w).
Proof.
  intros H. pose proof H as (Hb & Hp & _). unfold button_of, predicate_of in Hb, Hp.
  unfold dynamicButton.set_timer.
  destruct (heap w !! self) as [d|] eqn:Hd; [|discriminate]. injection Hb as Hb.
  rewrite <- Hp.
  exact (made_set_heap q v {| opts := opts d; button := button d; menupopup := menupopup d;
                              _timer := h |} w Hb H).
Qed.

Lemma made_this q v :
  hoare (made self btn q v) (dynamicButton.this self) (fun _ => made self btn q v).
Proof.
  intros w a w' H. unfold dynamicButton.this.
  destruct (heap w !! self); [|discriminate]. now intros [= <- <-].
Qed.

Lemma made_store_hide q v name value :
  hoare (made self btn q v) (dynamicButton.store_hide name value)
    (fun _ => made self btn q v).
Proof.
  intros w a w' H. unfold dynamicButton.store_hide.
  destruct (storage w !! name); [|discriminate]. now intros [= <- <-].
Qed.

Lemma made_alloc {B} q v (k : nat -> M B) Q :
  (forall el, hoare (made self btn q v) (k el) Q) ->
  hoare (made self btn q v)
    (bind (fun w => let '(el, w') := new_element w in (Ok el, w')) k) Q.
Proof.
  intros Hk. apply (hoare_bind _ (fun _ => made self btn q v)); [|exact Hk].
  intros w a w' H [= <- <-]. now apply made_new_element.
Qed.

Lemma made_update q v :
  hoare (made self btn q v) (dynamicButton.update env self false)
    (fun _ => made self btn q v).
Proof.
  unfold dynamicButton.update. simpl.
  apply hoare_step; [apply made_this|]. intros d.
  apply hoare_step.
  { apply hoare_modify. intros w H. now destruct (_timer d). }
  intros _.
  apply (hoare_bind _ (fun _ => made self btn q v)).
  { intros w a w' H [= <- <-]. exact H. }
  intros h. apply hoare_modify. intros w H. now apply made_set_timer.
Qed.

Ltac made_keep :=
  first
    [ assumption
    | apply made_attr; [discriminate | assumption]
    | unfold addClass; apply made_attr; [discriminate | assumption]
    | eapply made_set_widget; eassumption
    | apply made_set_timer; assumption ].

Ltac made_step :=
  first
    [ progress cbv zeta
    | apply hoare_throw
    | apply hoare_ret; intros ? ?; assumption
    | apply made_update
    | apply made_this
    | apply made_store_hide
    | apply made_alloc; intros ?
    | apply hoare_gets; intros ? ?; assumption
    | apply hoare_modify; intros ? ?; cbv beta; made_keep
    | apply hoare_for_each; intros ?
    | match goal with
      | |- hoare (made ?s ?b _ ?v) (bind (modify (dynamicButton.set_opts ?s ?o')) _) _ =>
          apply (hoare_bind _ (fun _ => made s b (o_isEnabled o') v));
          [apply hoare_modify; intros ? ?; eapply made_set_opts; eassumption | intros ?]
      | |- hoare _ (if ?b then _ else _) _ => destruct b
      | |- hoare _ (match ?x with _ => _ end) _ => destruct x
      end
    | apply hoare_step; [|intros ?] ].

Ltac made_auto := repeat made_step.

(** What the constructor leaves: the object has its element, with
    [disabled] set, and its predicate. *)
Lemma init_made o :
  hoare (fun w => next_element w = btn) (dynamicButton.init env self o)
    (fun _ => made self btn (Some (isEnabled_of env o)) (Some "true")).
Proof.
  unfold dynamicButton.init.
  apply (hoare_bind _ (fun el w => el = btn /\ ((btn < next_element w)%nat
                                   /\ attrs_of btn w !! "disabled" = None))).
  { intros w a w' Hn [= <- <-]. unfold new_element, attrs_of. simpl.
    rewrite Hn. split; [reflexivity|]. split; [lia|].
    now rewrite lookup_insert_eq. }
  intros el. apply hoare_assume. intros ->.
  apply (hoare_bind _ (fun _ => made self btn (o_isEnabled o) None)).
  { apply hoare_modify. intros w (Hn & Ha).
    unfold made, button_of, predicate_of. simpl. now rewrite lookup_insert_eq. }
  intros _.
  do 3 (apply hoare_step; [apply hoare_modify; intros ? ?; made_keep | intros _]).
  apply (hoare_bind _ (fun _ => made self btn (o_isEnabled o) (Some "true"))).
  { apply hoare_modify. intros w H. now apply (made_disabled _ None). }
  intros _.
  unfold dynamicButton.hide, dynamicButton.subscribe.
  made_auto.
Qed.


Lemma kept_attr v st el name value w :
  name <> "kohidden" -> kept self btn key v st w ->
  kept self btn key v st (attr el name value w).
Proof.
  intros Hne (Hh & Hn & Ha & Hs).
  split; [exact Hh|]. split; [exact Hn|]. split; [|exact Hs].
  rewrite attrs_of_attr. destruct (String.eqb_spec name "kohidden"); [contradiction|].
  now rewrite andb_false_r.
Qed.

Lemma kept_new_element v st w :
  kept self btn key v st w -> kept self btn key v st (snd (new_element w)).
Proof.
  intros (Hh & Hn & Ha & Hs). unfold new_element. simpl.
  split; [exact Hh|]. split; [simpl; lia|]. split; [|exact Hs].
  unfold attrs_of in *. simpl. rewrite lookup_insert_ne by lia. exact Ha.
Qed.

Lemma kept_set_widget v st o m t w :
  js_str (o_id o) = key ->
  kept self btn key v st w ->
  kept self btn key v st
    (set_heap (<[self := {| opts := o; button := btn; menupopup := m; _timer := t |}]>
                 (heap w)) w).
Proof.
  intros Hk (Hh & Hn & Ha & Hs).
  split; [|now repeat split].
  eexists. simpl. rewrite lookup_insert_eq. now repeat split.
Qed.

Lemma kept_set_opts v st o w :
  js_str (o_id o) = key ->
  kept self btn key v st w -> kept self btn key v st (dynamicButton.set_opts self o w).
Proof.
  intros Hk ((d & Hd & Hb & _) & Hn & Ha & Hs).
  unfold dynamicButton.set_opts. rewrite Hd.
  split; [|now repeat split].
  eexists. simpl. rewrite lookup_insert_eq. now repeat split.
Qed.

Lemma kept_set_timer v st h w :
  kept self btn key v st w -> kept self btn key v st (dynamicButton.set_timer self h w).
Proof.
  intros ((d & Hd & Hb & Hk) & Hn & Ha & Hs).
  unfold dynamicButton.set_timer. rewrite Hd.
  split; [|now repeat split].
  eexists. simpl. rewrite lookup_insert_eq. now repeat split.
Qed.

Lemma kept_this v st :
  hoare (kept self btn key v st) (dynamicButton.this self)
    (fun d w => kept self btn key v st w
                /\ button d = btn /\ js_str (o_id (opts d)) = key).
Proof.
  intros w a w' H. pose proof H as ((d & Hd & Hb & Hk) & _).
  unfold dynamicButton.this. rewrite Hd. now intros [= <- <-].
Qed.

Lemma kept_alloc {B} v st (k : nat -> M B) Q :
  (forall el, hoare (kept self btn key v st) (k el) Q) ->
  hoare (kept self btn key v st)
    (bind (fun w => let '(el, w') := new_element w in (Ok el, w')) k) Q.
Proof.
  intros Hk. apply (hoare_bind _ (fun _ => kept self btn key v st)); [|exact Hk].
  intros w a w' H [= <- <-]. now apply kept_new_element.
Qed.

Lemma kept_update v st :
  hoare (kept self btn key v st) (dynamicButton.update env self false)
    (fun _ => kept self btn key v st).
Proof.
  unfold dynamicButton.update. simpl.
  apply (hoare_bind _ (fun _ => kept self btn key v st)).
  { intros w a w' H E. now apply (kept_this v st w a w' H E). }
  intros d.
  apply hoare_step.
  { apply hoare_modify. intros w H. now destruct (_timer d). }
  intros _.
  apply (hoare_bind _ (fun _ => kept self btn key v st)).
  { intros w a w' H [= <- <-]. exact H. }
  intros h. apply hoare_modify. intros w H. now apply kept_set_timer.
Qed.

(** [this.hide()] *)
Lemma kept_hide v st entry :
  st !! key = Some entry ->
  hoare (kept self btn key v st) (dynamicButton.hide self)
    (fun _ => kept self btn key (Some "true") (<[key := {| hide := Some true |}]> st)).
Proof.
  intros Hentry. unfold dynamicButton.hide.
  apply (hoare_bind _ _ _ _ _ (kept_this v st)). intros d.
  apply (hoare_bind _ (fun _ w => kept self btn key v (<[key := {| hide := Some true |}]> st) w
                                  /\ button d = btn)).
  - intros w a w' (H & Hb & Hk). rewrite Hk. unfold dynamicButton.store_hide.
    destruct H as (Hh & Hn & Ha & Hs). cbv beta. rewrite Hs, Hentry. intros [= <- <-].
    split; [|exact Hb]. split; [exact Hh|]. split; [exact Hn|]. split; [exact Ha|].
    reflexivity.
  - intros _. apply hoare_modify. intros w ((Hh & Hn & Ha & Hs) & Hb). rewrite Hb.
    split; [exact Hh|]. split; [exact Hn|]. split; [|exact Hs].
    rewrite attrs_of_attr. now rewrite Nat.eqb_refl.
Qed.

Ltac kept_keep :=
  first
    [ assumption
    | apply kept_attr; [discriminate | assumption]
    | unfold addClass; apply kept_attr; [discriminate | assumption]
    | eapply kept_set_widget; [first [reflexivity | eassumption] | eassumption]
    | apply kept_set_timer; assumption ].

Ltac kept_step :=
  lazymatch goal with
  | |- hoare _ (bind (gets (fun w => storage w !! _)) _) _ => fail
  | _ =>
      first
        [ progress cbv zeta
        | apply hoare_throw
        | apply hoare_ret; intros ? ?; assumption
        | apply kept_update
        | apply kept_alloc; intros ?
        | apply hoare_gets; intros ? ?; assumption
        | apply hoare_modify; intros ? ?; cbv beta; kept_keep
        | apply hoare_for_each; intros ?
        | match goal with
          | |- hoare (kept ?s ?b ?k ?v ?st)
                 (bind (modify (dynamicButton.set_opts ?s ?o')) _) _ =>
              apply (hoare_bind _ (fun _ => kept s b k v st));
              [apply hoare_modify; intros ? ?; apply kept_set_opts;
               [first [reflexivity | assumption] | assumption]
              | intros ?]
          | |- hoare _ (if ?b then _ else _) _ => destruct b
          | |- hoare _ (match ?x with _ => _ end) _ => destruct x
          end
        | apply hoare_step; [|intros ?] ]
  end.

Ltac kept_auto := repeat kept_step.

Lemma init_kept o st :
  js_str (o_id o) = key ->
  hoare (fun w => next_element w = btn /\ storage w = st) (dynamicButton.init env self o)
    (fun _ => kept self btn key
                (if stored_hidden st key then Some "true" else None)
                (if stored_hidden st key
                 then <[key := {| hide := Some true |}]> st else st)).
Proof.
  intros Hkey. unfold dynamicButton.init.
  apply (hoare_bind _ (fun el w => el = btn /\ ((btn < next_element w)%nat
                                   /\ attrs_of btn w !! "kohidden" = None
                                   /\ storage w = st))).
  { intros w a w' [Hn Hs] [= <- <-]. unfold new_element, attrs_of. simpl.
    rewrite Hn. split; [reflexivity|]. split; [lia|]. split; [|exact Hs].
    now rewrite lookup_insert_eq. }
  intros el. apply hoare_assume. intros ->.
  apply (hoare_bind _ (fun _ => kept self btn key None st)).
  { apply hoare_modify. intros w (Hn & Ha & Hs).
    split; [|now repeat split].
    eexists. simpl. rewrite lookup_insert_eq. now repeat split. }
  intros _.
  unfold dynamicButton.subscribe.
  kept_auto.
  all: apply (hoare_bind _ (fun entry w => entry = st !! key /\ kept self btn key None st w));
    [apply hoare_gets; intros w H; split; [|exact H];
     destruct H as (_ & _ & _ & Hs); now rewrite Hs, Hkey
    | intros entry; apply hoare_assume; intros ->].
  all: unfold stored_hidden.
  all: destruct (st !! key) as [entry|] eqn:Hentry; [|apply hoare_throw].
  all: destruct (default false (hide entry)).
  all: try (apply (hoare_bind _ _ _ _ _ (kept_hide None st entry Hentry)); intros _).
  all: try (apply (hoare_bind _ (fun _ => kept self btn key None st));
            [apply hoare_ret; intros ? ?; assumption | intros _]).
  all: kept_auto.
Qed.

End Steps.

(** What a call of [register] that returns has done: the id was not known,
    the stored flags have an entry for it, and the constructor ran, on the
    options of the caller over the defaults, for the next object. *)
Lemma register_constructs env label o opts0 self w w' :
  register env label o w = (Ok self, w') ->
  given_options label o = Some opts0 ->
  exists raw opts' w3,
    id_source label o = Some raw
    /\ self = next_widget w
    /\ o_id opts' = Some (storage_key opts0 (strip_non_word raw))
    /\ o_isEnabled opts' = o_isEnabled opts0
    /\ o_command opts' = o_command opts0
    /\ dynamicButton.init env self opts'
         (set_next_widget (S (next_widget w))
            match storage w !! strip_non_word raw with
            | Some _ => w
            | None =>
                set_storage (<[strip_non_word raw := {| hide := None |}]> (storage w)) w
            end)
       = (Ok tt, w3)
    /\ w' = set_buttons (<[strip_non_word raw := self]> (buttons w3)) w3.
Proof.
  intros Hreg Hgiven. unfold register in Hreg.
  assert (Hargs : exists l,
             (match label with
              | Spec o0 => ret (o0, or_else (o_label o0) (o_id o0))
              | Label l0 =>
                  match o with
                  | Some o0 => ret (o0, Some l0)
                  | None => throw (TypeError "opts is undefined")
                  end
              end) w = (Ok (opts0, l), w)
             /\ id_source label o = or_else (o_id opts0) l).
  { destruct label as [l|spec]; simpl in Hgiven.
    - subst o. now exists (Some l).
    - injection Hgiven as <-. now eexists. }
  destruct Hargs as (l & Hargs & Hsrc). unfold bind at 1 in Hreg. rewrite Hargs in Hreg.
  rewrite Hsrc.
  destruct (or_else (o_id opts0) l) as [raw|]; [|discriminate].
  unfold bind at 1, gets at 1 in Hreg.
  destruct (in_buttons (strip_non_word raw) w); [discriminate|].
  unfold bind at 1, modify at 1 in Hreg.
  match type of Hreg with
  | bind (dynamicButton.new ?e ?o') _ ?w0 = _ =>
      set (opts' := o') in *; set (w1 := w0) in *
  end.
  unfold bind at 1 in Hreg.
  destruct (dynamicButton.new env opts' w1) as [[s|e] w2] eqn:Hnew; [|discriminate].
  unfold bind, modify, ret in Hreg. injection Hreg as <- <-.
  unfold dynamicButton.new in Hnew. unfold bind at 1 in Hnew.
  unfold bind in Hnew.
  destruct (dynamicButton.init env (next_widget w1) opts' _) as [[[]|e] w3] eqn:Hinit;
    [|discriminate].
  injection Hnew as <- <-.
  assert (Hnw : next_widget w1 = next_widget w).
  { unfold w1. now destruct (storage w !! strip_non_word raw). }
  rewrite Hnw in *.
  exists raw, opts', w3. split; [reflexivity|]. split; [reflexivity|].
  split; [|split; [|split; [|split; [exact Hinit | reflexivity]]]].
  - unfold opts', extend, storage_key. simpl. now destruct (o_id opts0).
  - unfold opts', extend. simpl. now destruct (o_isEnabled opts0).
  - unfold opts', extend. simpl. now destruct (o_command opts0).
Qed.

(** X18. When [register] returns, the new object is the next one, its
    button is the element made first, and the button starts out disabled.
    The predicate the object is left with is the caller's [isEnabled]; or
    else, for a command that is a name and has a controller, the query of
    that controller; or else the constant false - a button without either
    can never be enabled. *)
Theorem register_predicate env label o opts0 self w w' :
  register env label o w = (Ok self, w') ->
  given_options label o = Some opts0 ->
  self = next_widget w
  /\ button_of self w' = Some (next_element w)
  /\ attrs_of (next_element w) w' !! "disabled" = Some "true"
  /\ predicate_of self w' = Some (isEnabled_of env opts0)
  /\ (o_isEnabled opts0 = None ->
      (forall c, o_command opts0 = Some (CommandName c) ->
                 getControllerForCommand env c = false) ->
      forall t, eval_predicate env (isEnabled_of env opts0) t = false).
Proof.
  intros Hreg Hgiven.
  assert (Hnever : o_isEnabled opts0 = None ->
            (forall c, o_command opts0 = Some (CommandName c) ->
                       getControllerForCommand env c = false) ->
            forall t, eval_predicate env (isEnabled_of env opts0) t = false).
  { intros Hp Hc t. unfold isEnabled_of. rewrite Hp.
    destruct (o_command opts0) as [[c|k]|]; try reflexivity.
    now rewrite (Hc c eq_refl). }
  destruct (register_constructs _ _ _ _ _ _ _ Hreg Hgiven)
    as (raw & opts' & w3 & _ & Hself & _ & Hp' & Hc' & Hinit & ->).
  assert (Hnext : next_element
                    (set_next_widget (S (next_widget w))
                       match storage w !! strip_non_word raw with
                       | Some _ => w
                       | None =>
                           set_storage
                             (<[strip_non_word raw := {| hide := None |}]> (storage w)) w
                       end) = next_element w)
    by (now destruct (storage w !! strip_non_word raw)).
  pose proof (init_made env self (next_element w) opts' _ tt w3 Hnext Hinit)
    as (Hb & Hp & _ & Hd).
  split; [exact Hself|]. split; [exact Hb|]. split; [exact Hd|]. split; [|exact Hnever].
  transitivity (predicate_of self w3); [reflexivity|].
  rewrite Hp. unfold isEnabled_of. now rewrite Hp', Hc'.
Qed.

Lemma register_predicate_witness :
  exists w',
    register ButtonExamples.idle (Label "Foo") (Some ButtonExamples.no_options)
      ButtonExamples.loaded = (Ok 1%nat, w')
    /\ button_of 1 w' = Some 3%nat
    /\ attrs_of 3 w' !! "disabled" = Some "true"
    /\ predicate_of 1 w' = Some NeverEnabled.
Proof.
  assert (E : exists w',
             register ButtonExamples.idle (Label "Foo")
               (Some ButtonExamples.no_options) ButtonExamples.loaded = (Ok 1%nat, w'))
    by (vm_compute; eexists; reflexivity).
  destruct E as (w' & E). exists w'. split; [exact E|].
  destruct (register_predicate _ _ _ ButtonExamples.no_options _ _ _ E eq_refl)
    as (_ & Hb & Hd & Hp & _).
  split; [exact Hb|]. split; [exact Hd|]. exact Hp.
Defined.

(** X19. The hidden state of a button is restored when it is made. When
    [register] returns, the new button has the attribute [kohidden] exactly
    when the stored flags of earlier sessions said [hide] under its id, and
    the flag is still stored afterwards. The id the flags are looked up
    under is [opts.id] as the caller gave it, or else the id made from the
    label. *)
Theorem register_restores_hidden env label o opts0 raw self w w' :
  register env label o w = (Ok self, w') ->
  given_options label o = Some opts0 ->
  id_source label o = Some raw ->
  let key := storage_key opts0 (strip_non_word raw) in
  attrs_of (next_element w) w' !! "kohidden"
  = (if stored_hidden (storage w) key then Some "true" else None)
  /\ stored_hidden (storage w') key = stored_hidden (storage w) key
  /\ is_Some (storage w' !! strip_non_word raw).
Proof.
  intros Hreg Hgiven Hsrc key.
  destruct (register_constructs _ _ _ _ _ _ _ Hreg Hgiven)
    as (raw' & opts' & w3 & Hsrc' & Hself & Hid & _ & _ & Hinit & ->).
  rewrite Hsrc in Hsrc'. injection Hsrc' as <-. fold key in Hid.
  set (id := strip_non_word raw) in *.
  set (st1 := match storage w !! id with
              | Some _ => storage w
              | None => <[id := {| hide := None |}]> (storage w)
              end).
  assert (Hpre : next_element
                   (set_next_widget (S (next_widget w))
                      match storage w !! id with
                      | Some _ => w
                      | None => set_storage (<[id := {| hide := None |}]> (storage w)) w
                      end) = next_element w
                 /\ storage
                      (set_next_widget (S (next_widget w))
                         match storage w !! id with
                         | Some _ => w
                         | None => set_storage (<[id := {| hide := None |}]> (storage w)) w
                         end) = st1)
    by (unfold st1; now destruct (storage w !! id)).
  assert (Hkey : js_str (o_id opts') = key) by (now rewrite Hid).
  pose proof (init_kept env self (next_element w) key opts' st1 Hkey _ tt w3 Hpre Hinit)
    as (_ & _ & Ha & Hs).
  assert (Hsame : stored_hidden st1 key = stored_hidden (storage w) key).
  { unfold stored_hidden, st1.
    destruct (storage w !! id) eqn:Hold; [reflexivity|].
    destruct (decide (id = key)) as [<-|Hne].
    - now rewrite lookup_insert_eq, Hold.
    - now rewrite lookup_insert_ne. }
  assert (Hentry : is_Some (st1 !! id)).
  { unfold st1. destruct (storage w !! id) eqn:Hold; [now rewrite Hold|].
    rewrite lookup_insert_eq. now eexists. }
  simpl. rewrite Hs, Hsame in *. split; [exact Ha|].
  destruct (stored_hidden (storage w) key) eqn:Hflag.
  - split.
    + unfold stored_hidden. now rewrite lookup_insert_eq.
    + destruct (decide (key = id)) as [->|Hne].
      * rewrite lookup_insert_eq. now eexists.
      * now rewrite lookup_insert_ne.
  - split; [now rewrite Hsame | exact Hentry].
Qed.

Lemma register_restores_hidden_witness :
  let persisted : gmap string stored := {[ "Foo" := {| hide := Some true |} ]} in
  let w := snd (init ButtonExamples.idle (initial_world (Some persisted))) in
  exists w',
    register ButtonExamples.idle (Label "Foo") (Some ButtonExamples.no_options) w
    = (Ok 1%nat, w')
    /\ stored_hidden (storage w) "Foo" = true
    /\ attrs_of (next_element w) w' !! "kohidden" = Some "true".
Proof.
  intros persisted w.
  assert (E : exists w',
             register ButtonExamples.idle (Label "Foo")
               (Some ButtonExamples.no_options) w = (Ok 1%nat, w'))
    by (vm_compute; eexists; reflexivity).
  destruct E as (w' & E). exists w'. split; [exact E|].
  assert (Hflag : stored_hidden (storage w) "Foo" = true) by (vm_compute; reflexivity).
  split; [exact Hflag|].
  destruct (register_restores_hidden _ _ _ ButtonExamples.no_options "Foo" _ _ _ E
              eq_refl eq_refl) as (Ha & _).
  etransitivity; [exact Ha|]. vm_compute. reflexivity.
Defined.

(** The constructor of [self] leaves the other objects alone. *)
Lemma init_keeps_others env self o x :
  x <> self -> keeps (fun w => heap w !! x) (dynamicButton.init env self o).
Proof.
  intros Hne.
  assert (Hset : forall d w, heap (set_heap (<[self := d]> (heap w)) w) !! x = heap w !! x).
  { intros d w. simpl. now rewrite lookup_insert_ne. }
  assert (Hopts : forall o' w, heap (dynamicButton.set_opts self o' w) !! x = heap w !! x).
  { intros o' w. unfold dynamicButton.set_opts. destruct (heap w !! self); [apply Hset | reflexivity]. }
  assert (Htimer : forall h w, heap (dynamicButton.set_timer self h w) !! x = heap w !! x).
  { intros h w. unfold dynamicButton.set_timer. destruct (heap w !! self); [apply Hset | reflexivity]. }
  unfold dynamicButton.init, dynamicButton.update, dynamicButton.hide,
    dynamicButton.store_hide, dynamicButton.subscribe.
  repeat first
    [ apply keeps_ret | apply keeps_throw | apply keeps_gets | apply keeps_this
    | apply keeps_modify; intros ?; first [reflexivity | apply Hset | apply Hopts | apply Htimer]
    | apply keeps_bind; [|intros ?]
    | apply keeps_for_each; intros ?
    | match goal with
      | |- keeps _ (if ?b then _ else _) => destruct b
      | |- keeps _ (match ?x with _ => _ end) => destruct x
      | |- keeps _ (fun w => let '(_, _) := new_element w in _) =>
          let w := fresh "w" in intros w; reflexivity
      | |- keeps _ (fun w => let '(_, _) := setTimeout _ _ w in _) =>
          let w := fresh "w" in intros w; reflexivity
      end
    | let w := fresh "w" in
      intros w; unfold modify, clearTimeout; repeat case_match; reflexivity ].
Qed.

(** X20. A call of [register], whether it returns or throws, leaves the
    objects of the buttons made before as they were: their options, their
    element and their timer. The element it makes belongs to the new object
    only (all elements of the older objects were made before). *)
Theorem register_leaves_others env label o w :
  let w' := snd (register env label o w) in
  (forall x, x <> next_widget w -> heap w' !! x = heap w !! x)
  /\ ((forall x d, heap w !! x = Some d -> (button d < next_element w)%nat) ->
      forall x, button_of x w' = Some (next_element w) -> x = next_widget w).
Proof.
  intros w'.
  assert (Hframe : forall x, x <> next_widget w -> heap w' !! x = heap w !! x).
  { intros x Hne. unfold w', register.
    destruct label as [l|spec]; [destruct o as [opts0|]; [|reflexivity]|];
      unfold bind at 1, ret at 1; cbv beta iota.
    all: match goal with
         | |- context [or_else ?a ?b] => destruct (or_else a b) as [raw|]; [|reflexivity]
         end.
    all: unfold bind at 1, gets at 1; cbv beta iota.
    all: destruct (in_buttons (strip_non_word raw) w); [reflexivity|].
    all: unfold bind at 1, modify at 1; cbv beta iota.
    all: match goal with
         | |- context [bind (dynamicButton.new ?e ?o') _ ?w0] =>
             set (opts' := o'); set (w1 := w0)
         end.
    all: assert (Hw1 : heap w1 = heap w /\ next_widget w1 = next_widget w)
           by (unfold w1; now destruct (storage w !! strip_non_word raw)).
    all: destruct Hw1 as [Hh1 Hn1].
    all: unfold bind at 1, dynamicButton.new; unfold bind at 1; unfold bind at 1.
    all: pose proof (init_keeps_others env (next_widget w1) opts' x
                       ltac:(rewrite Hn1; exact Hne)
                       (set_next_widget (S (next_widget w1)) w1)) as Hkeep.
    all: simpl in Hkeep.
    all: destruct (dynamicButton.init env (next_widget w1) opts' _) as [[[]|e] w3];
           simpl in *; now rewrite Hkeep, Hh1. }
  split; [exact Hframe|].
  intros Hold x Hx.
  destruct (decide (x = next_widget w)) as [->|Hne]; [reflexivity|].
  unfold button_of in Hx. rewrite (Hframe x Hne) in Hx.
  destruct (heap w !! x) as [d|] eqn:Hd; [|discriminate].
  injection Hx as Hx. specialize (Hold x d Hd). lia.
Qed.

End Construction.
